(** * Certificate lifecycle management: engine, polling watcher, file watcher

    A shallow embedding of

      - pkg/certmgmt/certificate.go   (package certmgmt: the certificate engine)
      - pkg/certs/access/access.go    (package access: the polling watcher, and
                                       package file: the file watcher)

    Go values are modelled as follows.

      - [[]byte] is [slice = option (list byte)]; [None] is the nil slice.
      - [time.Time] and [time.Duration] are [Z], counted in nanoseconds;
        [time.Duration] arithmetic is 64-bit and wraps.
      - a [CertificateInfo] interface value is [option ptr]: nil, or the
        address of an [info] struct in the heap; interface comparison
        ([info != new]) is comparison of addresses.
      - Go functions that return [(T, error)] return a [result]; a function
        body is a computation in a state-and-outcome monad whose state holds
        the heap, the outside world and the trace of effects.
      - the cryptography, PEM, clock, entropy, file system and file
        notification packages are outside the repository: they form the
        interface [Lib], over which every definition is generic.           *)

From Stdlib Require Import ZArith Lia.
From Stdlib.Strings Require Import Byte.
From stdpp Require Import base tactics option list strings countable numbers.

Open Scope Z_scope.

(** ** Go data *)

Definition slice := option (list byte).
Definition error := string.
Definition Time := Z.
Definition Duration := Z.
Definition ptr := nat.

(** [len(s)] for a possibly nil slice. *)
Definition len (s : slice) : nat :=
  match s with
  | None => O
  | Some l => length l
  end.

(** The bytes a library function sees when it is handed the slice. *)
Definition bytes (s : slice) : list byte := default [] s.

Inductive result (A : Type) : Type :=
| Success (a : A)
| Failure (e : error).
Arguments Success {A} a.
Arguments Failure {A} e.

(** *** package time *)

Definition Nanosecond : Duration := 1.
Definition Microsecond : Duration := 1000 * Nanosecond.
Definition Millisecond : Duration := 1000 * Microsecond.
Definition Second : Duration := 1000 * Millisecond.
Definition Minute : Duration := 60 * Second.
Definition Hour : Duration := 60 * Minute.

(** 64-bit two's complement wrap-around of [int64] arithmetic. *)
Definition wrap64 (z : Z) : Z := (z + 2 ^ 63) mod 2 ^ 64 - 2 ^ 63.

Definition MaxInt64 : Z := 2 ^ 63 - 1.

(** [a * b] and [a / b] on [time.Duration] ([int64]); Go's division
    truncates toward zero. *)
Definition dmul (a b : Duration) : Duration := wrap64 (a * b).
Definition ddiv (a b : Duration) : Duration := wrap64 (Z.quot a b).

(** [t.Add(d)]. *)
Definition Time_Add (t : Time) (d : Duration) : Time := t + d.

(** *** package crypto/x509, encoding/pem, client-go/util/cert *)

Definition KeyUsageDigitalSignature : Z := 1.
Definition KeyUsageKeyEncipherment : Z := 4.
Definition ExtKeyUsageServerAuth : Z := 1.

Record pkix_Name := {
  Name_CommonName : string;
  Name_Organization : list string
}.

(** [x509.Certificate]: the fields the program names, and [Raw] standing
    for everything else a parsed certificate carries (public key,
    signature, issuer, ...); [D] is the library's type of that data.   *)
Record Certificate (D : Type) := {
  Subject : pkix_Name;
  DNSNames : list string;
  IPAddresses : list (list byte);
  SerialNumber : Z;
  NotBefore : Time;
  NotAfter : Time;
  KeyUsage : Z;
  ExtKeyUsage : list Z;
  Raw : D
}.
Arguments Subject {D} _.
Arguments DNSNames {D} _.
Arguments IPAddresses {D} _.
Arguments SerialNumber {D} _.
Arguments NotBefore {D} _.
Arguments NotAfter {D} _.
Arguments KeyUsage {D} _.
Arguments ExtKeyUsage {D} _.
Arguments Raw {D} _.

Record pem_Block := {
  Block_Type : string;
  Block_Headers : list (string * string);
  Block_Bytes : list byte
}.

Record AltNames := {
  AltNames_DNSNames : list string;
  AltNames_IPs : list (list byte)
}.

(** [cert.Config] of client-go. *)
Record cert_Config := {
  cc_CommonName : string;
  cc_Organization : list string;
  cc_AltNames : AltNames;
  cc_Usages : list Z
}.

Record VerifyOptions (P : Type) := {
  vo_DNSName : string;
  vo_Roots : P;
  vo_CurrentTime : Time
}.
Arguments vo_DNSName {P} _.
Arguments vo_Roots {P} _.
Arguments vo_CurrentTime {P} _.

(** [pkiutil.RSAPrivateKeyBlockType]. *)
Definition RSAPrivateKeyBlockType : string := "RSA PRIVATE KEY".

(** A key as an interface value ([crypto.Signer], or the [interface{}]
    that [keyutil.ParsePrivateKeyPEM] returns): an RSA key or a key of
    another algorithm. *)
Inductive Signer (R O : Type) : Type :=
| SignerRSA (k : R)
| SignerOther (k : O).
Arguments SignerRSA {R O} k.
Arguments SignerOther {R O} k.

(** ** The libraries the program is linked against

    [World] is everything outside the program that the libraries read
    or change: the clock, the entropy source, the file system, the
    notification subscriptions, the store behind [CertificateAccess]. *)
Class Lib := {
  World : Type;
  RSAPrivateKey : Type;
  OtherKey : Type;
  PublicKey : Type;
  CertPool : Type;
  TLSCertificate : Type;
  CertRaw : Type;
  Watcher : Type;

  (* the zero value of the unnamed fields of a certificate literal *)
  zeroRaw : CertRaw;

  time_Now : World -> Time * World;
  cryptorand_Int : Z -> World -> result Z * World;
  pkiutil_NewPrivateKey : World -> result (Signer RSAPrivateKey OtherKey) * World;
  Signer_Public : Signer RSAPrivateKey OtherKey -> PublicKey;

  x509_MarshalPKCS1PrivateKey : RSAPrivateKey -> list byte;
  pem_EncodeToMemory : pem_Block -> list byte;
  pem_Decode : list byte -> option pem_Block * list byte;
  pkiutil_EncodeCertPEM : Certificate CertRaw -> list byte;
  keyutil_ParsePrivateKeyPEM : list byte -> result (Signer RSAPrivateKey OtherKey);
  cert_ParseCertsPEM : list byte -> result (list (Certificate CertRaw));
  cert_NewSelfSignedCACert :
    cert_Config -> Signer RSAPrivateKey OtherKey -> World ->
    result (Certificate CertRaw) * World;

  tls_X509KeyPair : list byte -> list byte -> result TLSCertificate;
  tls_LoadX509KeyPair : string -> string -> World -> result TLSCertificate * World;

  x509_NewCertPool : CertPool;
  CertPool_AppendCertsFromPEM : CertPool -> list byte -> CertPool * bool;
  x509_ParseCertificate : list byte -> result (Certificate CertRaw);
  Certificate_Verify : Certificate CertRaw -> VerifyOptions CertPool -> option error;
  x509_CreateCertificate :
    Certificate CertRaw -> Certificate CertRaw -> PublicKey ->
    Signer RSAPrivateKey OtherKey -> World -> result (list byte) * World;

  fsnotify_NewWatcher : World -> result Watcher * World;
  Watcher_Add : Watcher -> string -> World -> option error * World;
  Watcher_Close : Watcher -> World -> option error * World;

  (* crypto/rand: "Int returns a uniform random value in [0, max)". *)
  cryptorand_Int_range : forall max w r w',
    cryptorand_Int max w = (Success r, w') -> 0 <= r < max
}.

Abbreviation Cert := (Certificate CertRaw).
Abbreviation Key := (Signer RSAPrivateKey OtherKey).

(** ** Program state and the monad of function bodies *)

(** [x == nil]. *)
Definition isNil {A} (o : option A) : bool :=
  match o with
  | None => true
  | Some _ => false
  end.

(** [info] of certificate.go, lines 39-44. *)
Record info := {
  cert : slice;
  key : slice;
  cacert : slice;
  cakey : slice
}.

(** A [CertificateInfo] interface value: nil or a [*info]. *)
Definition CertificateInfo := option ptr.

(** [certmgmt.Config]: the type is declared outside the two source files;
    these are the four fields the source reads ([cfg.CommonName],
    [cfg.DnsNames], [cfg.Validity], [cfg.Rest]). *)
Record Config := {
  CommonName : string;
  DnsNames : list string;
  Validity : Duration;
  Rest : Duration
}.

(** A call returns a value, panics (index out of range, nil
    dereference), or never returns because it waits for a channel that
    is never closed; errors are ordinary return values, as in Go. *)
Inductive Outcome (A : Type) : Type :=
| Ok (a : A)
| Panic (msg : string)
| Blocked.
Arguments Ok {A} a.
Arguments Panic {A} msg.
Arguments Blocked {A}.

Definition M (S A : Type) : Type := S -> Outcome A * S.

Definition ret {S A} (a : A) : M S A := fun s => (Ok a, s).

Definition bind {S A B} (m : M S A) (k : A -> M S B) : M S B :=
  fun s =>
    match m s with
    | (Ok a, s') => k a s'
    | (Panic msg, s') => (Panic msg, s')
    | (Blocked, s') => (Blocked, s')
    end.

Definition panic {S A} (msg : string) : M S A := fun s => (Panic msg, s).

Notation "'let*' x ':=' m 'in' k" := (bind m (fun x => k))
  (at level 10, x pattern, m at level 100, k at level 200).

Section Program.
Context `{L : Lib}.

(** What the program does to the outside, in order. *)
Inductive Event : Type :=
| EvPrintf (s : string)                (* fmt.Printf *)
| EvLog (s : string)                   (* logger.Info / Error / Errorf *)
| EvNewPrivateKey                      (* pkiutil.NewPrivateKey *)
| EvNewSelfSignedCACert (cn : string)  (* cert.NewSelfSignedCACert *)
| EvCreateCertificate (tmpl : Cert)    (* x509.CreateCertificate *)
| EvGet                                (* CertificateAccess.Get *)
| EvSet (i : CertificateInfo)          (* CertificateAccess.Set *)
| EvLock
| EvUnlock
| EvLoadX509KeyPair (certPath keyPath : string)
| EvNewWatcher
| EvWatcherAdd (path : string)
| EvWatcherClose
| EvGo (f : string)                    (* go f() *)
| EvRecvStop                           (* <-stopCh returned *)
| EvNewTimer (d : Duration)
| EvTimerReset (d : Duration)
| EvTimerStop.

Record Sys := {
  heap : list info;
  world : World;
  trace : list Event
}.

Definition call {A} (f : World -> A * World) : M Sys A :=
  fun s =>
    let (a, w) := f (world s) in
    (Ok a, {| heap := heap s; world := w; trace := trace s |}).

Definition emit (e : Event) : M Sys unit :=
  fun s => (Ok tt, {| heap := heap s; world := world s; trace := trace s ++ [e] |}).

Definition Printf (msg : string) : M Sys unit := emit (EvPrintf msg).

(** [&info{...}]: a fresh address. *)
Definition alloc (i : info) : M Sys ptr :=
  fun s => (Ok (length (heap s)),
            {| heap := heap s ++ [i]; world := world s; trace := trace s |}).

(** Reading through a [*info]. *)
Definition load (p : ptr) : M Sys info :=
  fun s =>
    match heap s !! p with
    | Some i => (Ok i, s)
    | None => (Panic "invalid memory address or nil pointer dereference", s)
    end.

(** Assigning to the fields of [*p]. *)
Definition store (p : ptr) (i : info) : M Sys unit :=
  fun s => (Ok tt, {| heap := <[p := i]> (heap s); world := world s; trace := trace s |}).

(** The method calls [i.Cert()], [i.Key()], [i.CACert()], [i.CAKey()]
    on an interface value (lines 46-60). *)
Definition fields (i : CertificateInfo) : M Sys info :=
  match i with
  | None => panic "invalid memory address or nil pointer dereference"
  | Some p => load p
  end.

(** ** package certmgmt (certificate.go) *)

(** [NewCertInfo], lines 62-69. *)
Definition NewCertInfo (c k cac cak : slice) : M Sys CertificateInfo :=
  let* p := alloc {| cert := c; key := k; cacert := cac; cakey := cak |} in
  ret (Some p).

(** [newPrivateKey], lines 71-81. *)
Definition newPrivateKey : M Sys (result RSAPrivateKey) :=
  let* _ := emit EvNewPrivateKey in
  let* r := call pkiutil_NewPrivateKey in
  match r with
  | Failure err => ret (Failure err)
  | Success (SignerRSA k) => ret (Success k)
  | Success (SignerOther _) =>
      ret (Failure "not a private key: %t")
  end.

(** [encodePrivateKeyPEM], lines 84-90. *)
Definition encodePrivateKeyPEM (k : RSAPrivateKey) : list byte :=
  let block := {| Block_Type := RSAPrivateKeyBlockType;
                  Block_Headers := [];
                  Block_Bytes := x509_MarshalPKCS1PrivateKey k |} in
  pem_EncodeToMemory block.

(** The text [%s] prints for an error value. *)
Definition show_err (e : option error) : string :=
  match e with
  | None => "%!s(<nil>)"
  | Some m => m
  end.

(** [Valid], lines 181-217. *)
Definition Valid (key cert cacert : slice) (dnsname : string)
    (duration : Duration) : M Sys bool :=
  if (len cert =? 0)%nat || (len key =? 0)%nat || (len cacert =? 0)%nat then
    let* _ := Printf "something empty" in ret false
  else
    match tls_X509KeyPair (bytes cert) (bytes key) with
    | Failure _ => let* _ := Printf "key does not match certmgmt" in ret false
    | Success _ =>
        let pool := x509_NewCertPool in
        let (pool, appended) := CertPool_AppendCertsFromPEM pool (bytes cacert) in
        if negb appended then
          let* _ := Printf "cannot create pool" in ret false
        else
          match fst (pem_Decode (bytes cert)) with
          | None => let* _ := Printf "cannot decode certmgmt" in ret false
          | Some block =>
              match x509_ParseCertificate (Block_Bytes block) with
              | Failure _ => let* _ := Printf "cannot parse certmgmt" in ret false
              | Success c =>
                  let* now := call time_Now in
                  let ops := {| vo_DNSName := dnsname;
                                vo_Roots := pool;
                                vo_CurrentTime := Time_Add now duration |} in
                  let err := Certificate_Verify c ops in
                  let* _ := Printf ("val: " +:+ show_err err) in
                  ret (bool_decide (err = None))
              end
          end
    end.

(** [IsValid], lines 169-179. *)
Definition IsValid (i : CertificateInfo) (dnsname : string)
    (duration : Duration) : M Sys bool :=
  let* f := fields i in
  match cert f, key f with
  | Some _, Some _ =>
      match cacert f with
      | None => let* _ := Printf "cacert not set" in ret false
      | Some _ => Valid (key f) (cert f) (cacert f) dnsname duration
      end
  | _, _ => let* _ := Printf "certmgmt or key not set" in ret false
  end.

(** [NewSignedCert], lines 220-250. *)
Definition NewSignedCert (cfg : cert_Config) (key : Key) (caCert : Cert)
    (caKey : Key) (duration : Duration) : M Sys (result Cert) :=
  let* r := call (cryptorand_Int MaxInt64) in
  match r with
  | Failure err => ret (Failure err)
  | Success serial =>
      if (String.length (cc_CommonName cfg) =? 0)%nat then
        ret (Failure "must specify a CommonName")
      else if (length (cc_Usages cfg) =? 0)%nat then
        ret (Failure "must specify at least one ExtKeyUsage")
      else
        let* now := call time_Now in
        let certTmpl :=
          {| Subject := {| Name_CommonName := cc_CommonName cfg;
                           Name_Organization := cc_Organization cfg |};
             DNSNames := AltNames_DNSNames (cc_AltNames cfg);
             IPAddresses := AltNames_IPs (cc_AltNames cfg);
             SerialNumber := serial;
             NotBefore := NotBefore caCert;
             NotAfter := Time_Add now duration;
             KeyUsage := Z.lor KeyUsageKeyEncipherment KeyUsageDigitalSignature;
             ExtKeyUsage := cc_Usages cfg;
             Raw := zeroRaw |} in
        let* _ := emit (EvCreateCertificate certTmpl) in
        let* r := call (x509_CreateCertificate certTmpl caCert (Signer_Public key) caKey) in
        match r with
        | Failure err => ret (Failure err)
        | Success certDERBytes => ret (x509_ParseCertificate certDERBytes)
        end
  end.

(** [UpdateCertificate], lines 110-128: is the CA of the working bundle
    [n] still usable?  The answer is the values of the local variables
    [ok], [caKey] and [caCert] at line 129; [caKey] and [caCert] are nil
    and [ok] is false until assigned. *)
Definition existingCA (n : info)
    : M Sys (bool * option RSAPrivateKey * option Cert) :=
  match cacert n with
  | None => ret (false, None, None)
  | Some _ =>
      let* _ := Printf "cacert found" in
      let* ok := Valid (cakey n) (cacert n) (cacert n) "" (5 * Hour * 24) in
      if ok then
        let* _ := Printf "cacert valid" in
        let '(caKey, ok) :=
          match keyutil_ParsePrivateKeyPEM (bytes (cakey n)) with
          | Failure _ => (None, false)
          | Success (SignerRSA k) => (Some k, true)
          | Success (SignerOther _) => (None, false)
          end in
        match cert_ParseCertsPEM (bytes (cacert n)) with
        | Failure _ => ret (false, caKey, None)
        | Success [] => panic "index out of range [0] with length 0"
        | Success (c :: _) => ret (ok, caKey, Some c)
        end
      else ret (false, None, None)
  end.

(** The [cert.Config] literal of line 137. *)
Definition caConfig (cfg : Config) : cert_Config :=
  {| cc_CommonName := "webhook-certmgmt-ca:" +:+ CommonName cfg;
     cc_Organization := [];
     cc_AltNames := {| AltNames_DNSNames := []; AltNames_IPs := [] |};
     cc_Usages := [] |}.

(** [UpdateCertificate], lines 130-141: a fresh CA key and self-signed
    CA certificate, written to the CA fields of [*new] (whose fields
    are [n]). *)
Definition generateCA (new : ptr) (n : info) (cfg : Config)
    : M Sys (result (info * RSAPrivateKey * Cert)) :=
  let* _ := Printf "generate cacert" in
  let* r := newPrivateKey in
  match r with
  | Failure err => ret (Failure ("failed to create the CA key pair: " +:+ err))
  | Success caKey =>
      let n := {| cert := cert n; key := key n; cacert := cacert n;
                  cakey := Some (encodePrivateKeyPEM caKey) |} in
      let* _ := store new n in
      let* _ := emit (EvNewSelfSignedCACert (cc_CommonName (caConfig cfg))) in
      let* r := call (cert_NewSelfSignedCACert (caConfig cfg) (SignerRSA caKey)) in
      match r with
      | Failure err => ret (Failure ("failed to create the CA certmgmt: " +:+ err))
      | Success caCert =>
          let n := {| cert := cert n; key := key n;
                      cacert := Some (pkiutil_EncodeCertPEM caCert);
                      cakey := cakey n |} in
          let* _ := store new n in
          ret (Success (n, caKey, caCert))
      end
  end.

(** The [cert.Config] literal of lines 152-158. *)
Definition serverConfig (cfg : Config) : cert_Config :=
  {| cc_CommonName := CommonName cfg;
     cc_Organization := [];
     cc_AltNames := {| AltNames_DNSNames := DnsNames cfg; AltNames_IPs := [] |};
     cc_Usages := [ExtKeyUsageServerAuth] |}.

(** [UpdateCertificate], lines 144-164: a fresh server key and a server
    certificate signed by the CA, written to [*new]. *)
Definition issueServer (new : ptr) (n : info) (cfg : Config)
    (caKey : RSAPrivateKey) (caCert : Cert) : M Sys (result CertificateInfo) :=
  let* _ := Printf "generate key" in
  let* r := newPrivateKey in
  match r with
  | Failure err => ret (Failure ("failed to create the server key pair: " +:+ err))
  | Success newKey =>
      let n := {| cert := cert n; key := Some (encodePrivateKeyPEM newKey);
                  cacert := cacert n; cakey := cakey n |} in
      let* _ := store new n in
      let* _ := Printf "generate certmgmt" in
      let* r := NewSignedCert (serverConfig cfg) (SignerRSA newKey) caCert
                  (SignerRSA caKey) (Validity cfg) in
      match r with
      | Failure err => ret (Failure ("failed to create the server certmgmt: " +:+ err))
      | Success newCert =>
          let n := {| cert := Some (pkiutil_EncodeCertPEM newCert); key := key n;
                      cacert := cacert n; cakey := cakey n |} in
          let* _ := store new n in
          ret (Success (Some new))
      end
  end.

(** [UpdateCertificate], lines 92-167. *)
Definition UpdateCertificate (old : CertificateInfo) (cfg : Config)
    : M Sys (result CertificateInfo) :=
  let* new := alloc {| cert := None; key := None; cacert := None; cakey := None |} in
  let* _ :=
    match old with
    | None => ret tt
    | Some _ =>
        let* o := fields old in
        store new {| cert := cert o; key := key o;
                     cacert := cacert o; cakey := cakey o |}
    end in
  match DnsNames cfg with
  | [] => panic "index out of range [0] with length 0"
  | dnsname :: _ =>
      let* valid := IsValid (Some new) dnsname (Rest cfg) in
      if negb valid then
        let* _ := Printf "not valid" in
        let* n := load new in
        let* ca := existingCA n in
        let '(ok, caKey, caCert) := ca in
        let* r :=
          if isNil (cacert n) || negb ok then generateCA new n cfg
          else
            match caKey, caCert with
            | Some caKey, Some caCert => ret (Success (n, caKey, caCert))
            | _, _ => panic "invalid memory address or nil pointer dereference"
            end in
        match r with
        | Failure err => ret (Failure err)
        | Success (n, caKey, caCert) => issueServer new n cfg caKey caCert
        end
      else ret (Success old)
  end.

(** ** Objects with methods

    A method body runs on the receiver [this] (a pointer in Go, so
    assignments to its fields persist) and on the rest of the state. *)
Record St (T : Type) := {
  this : T;
  sys : Sys
}.
Arguments this {T} _.
Arguments sys {T} _.

Definition liftSys {T A} (m : M Sys A) : M (St T) A :=
  fun st =>
    let (r, s) := m (sys st) in
    (r, {| this := this st; sys := s |}).

Definition getThis {T} : M (St T) T := fun st => (Ok (this st), st).

Definition setThis {T} (t : T) : M (St T) unit :=
  fun st => (Ok tt, {| this := t; sys := sys st |}).

(** [CertificateAccess] (an interface declared outside the two source
    files): the store the polling watcher reads and writes.  An
    implementation may read and extend the heap (it hands out and
    receives [CertificateInfo] values) and acts on the world. *)
Record CertificateAccess := {
  access_Get : list info -> World -> result CertificateInfo * (list info * World);
  access_Set : CertificateInfo -> list info -> World -> option error * (list info * World)
}.

Definition callStore {A} (f : list info -> World -> A * (list info * World)) : M Sys A :=
  fun s =>
    let '(a, (h, w)) := f (heap s) (world s) in
    (Ok a, {| heap := h; world := w; trace := trace s |}).

(** ** package access (access.go, lines 19-125) *)

(** [AccessSource], lines 30-37 (the lock is seen through [EvLock] and
    [EvUnlock]; the logger through [EvLog]). *)
Record AccessSource := {
  currentCert : option TLSCertificate;
  config : Config;
  access : CertificateAccess
}.

(** [this.currentCert = c]. *)
Definition AccessSource_setCurrentCert (c : option TLSCertificate)
    : M (St AccessSource) unit :=
  let* t := getThis in
  setThis {| currentCert := c; config := config t; access := access t |}.

(** [AccessSource.ReadCertificate], lines 54-81. *)
Definition AccessSource_ReadCertificate : M (St AccessSource) (option error) :=
  let* t := getThis in
  let* _ := liftSys (emit EvGet) in
  let* r := liftSys (callStore (access_Get (access t))) in
  match r with
  | Failure err => ret (Some err)
  | Success info =>
      let* r := liftSys (UpdateCertificate info (config t)) in
      match r with
      | Failure err => ret (Some err)
      | Success new =>
          if negb (bool_decide (info = new)) || isNil (currentCert t) then
            let* _ := liftSys (emit (EvSet new)) in
            let* e := liftSys (callStore (access_Set (access t) new)) in
            match e with
            | Some err => ret (Some err)
            | None =>
                let info := new in
                let* f := liftSys (fields info) in
                match tls_X509KeyPair (bytes (cert f)) (bytes (key f)) with
                | Failure err => ret (Some err)
                | Success c =>
                    let* _ := liftSys (emit EvLock) in
                    let* _ := AccessSource_setCurrentCert (Some c) in
                    let* _ := liftSys (emit EvUnlock) in
                    ret None
                end
            end
          else ret None
      end
  end.

(** [AccessSource.GetCertificate], lines 84-88: the certificate and
    the error it returns. *)
Definition AccessSource_GetCertificate
    : M (St AccessSource) (option TLSCertificate * option error) :=
  let* _ := liftSys (emit EvLock) in
  let* t := getThis in
  let* _ := liftSys (emit EvUnlock) in
  ret (currentCert t, None).

(** What a [select] of the refresh loop receives. *)
Inductive Wakeup : Type :=
| WStop                 (* <-stop *)
| WTick                 (* a value from timer.C *)
| WTimerClosed.         (* timer.C closed *)

Inductive LoopStatus : Type :=
| Exited
| Waiting (backoff : Duration).

(** The [for] loop of [watch], lines 102-124, on the wake-ups it
    receives; when they are used up the loop is waiting in [select]. *)
Fixpoint AccessSource_loop (ws : list Wakeup) (d backoff : Duration)
    : M (St AccessSource) LoopStatus :=
  match ws with
  | [] => ret (Waiting backoff)
  | WStop :: _ =>
      let* _ := liftSys (emit EvTimerStop) in
      ret Exited
  | WTimerClosed :: _ => ret Exited
  | WTick :: ws =>
      let* _ := liftSys (emit (EvLog "reconciling certificate %s")) in
      let next := d in
      let* err := AccessSource_ReadCertificate in
      let* nb :=
        match err with
        | Some _ =>
            let* _ := liftSys (emit (EvLog
                        "cannot reconcile certificate %s: %s (backoff=%s)")) in
            ret (backoff, ddiv (dmul backoff 3) 2)
        | None => ret (next, dmul 1 Second)
        end in
      let* _ := liftSys (emit (EvTimerReset (fst nb))) in
      AccessSource_loop ws d (snd nb)
  end.

(** [AccessSource.watch], lines 94-125. *)
Definition AccessSource_watch (ws : list Wakeup) : M (St AccessSource) LoopStatus :=
  let* t := getThis in
  let d := Rest (config t) in
  let d := if 10 * Minute <? d then 10 * Minute else d in
  let backoff := dmul 1 Second in
  let* _ := liftSys (emit (EvNewTimer d)) in
  AccessSource_loop ws d backoff.

(** [AccessSource.start], lines 90-92. *)
Definition AccessSource_start : M (St AccessSource) unit :=
  liftSys (emit (EvGo "watch")).

(** [access.New], lines 39-52. *)
Definition access_New (acc : CertificateAccess) (cfg : Config)
    : M Sys (result AccessSource) :=
  fun s =>
    let this0 := {| currentCert := None; config := cfg; access := acc |} in
    match (let* err := AccessSource_ReadCertificate in
           match err with
           | Some err => ret (Failure err)
           | None =>
               let* _ := AccessSource_start in
               let* t := getThis in
               ret (Success t)
           end) {| this := this0; sys := s |} with
    | (r, st) => (r, sys st)
    end.

(** ** package file (access.go, lines 126-295) *)

(** [CertWatcher], lines 159-168; [watcher] is nil until [New] sets it. *)
Record CertWatcher := {
  cw_currentCert : option TLSCertificate;
  watcher : option Watcher;
  certPath : string;
  keyPath : string
}.

Definition CertWatcher_setCurrentCert (c : option TLSCertificate)
    : M (St CertWatcher) unit :=
  let* t := getThis in
  setThis {| cw_currentCert := c; watcher := watcher t;
             certPath := certPath t; keyPath := keyPath t |}.

Definition CertWatcher_setWatcher (w : option Watcher) : M (St CertWatcher) unit :=
  let* t := getThis in
  setThis {| cw_currentCert := cw_currentCert t; watcher := w;
             certPath := certPath t; keyPath := keyPath t |}.

(** [fsnotify.Event] and the bits of [fsnotify.Op]. *)
Record fsnotify_Event := {
  Event_Name : string;
  Event_Op : Z
}.
Definition fsnotify_Create : Z := 1.
Definition fsnotify_Write : Z := 2.
Definition fsnotify_Remove : Z := 4.

(** [isWrite], [isCreate], [isRemove], lines 285-295. *)
Definition isWrite (event : fsnotify_Event) : bool :=
  Z.land (Event_Op event) fsnotify_Write =? fsnotify_Write.
Definition isCreate (event : fsnotify_Event) : bool :=
  Z.land (Event_Op event) fsnotify_Create =? fsnotify_Create.
Definition isRemove (event : fsnotify_Event) : bool :=
  Z.land (Event_Op event) fsnotify_Remove =? fsnotify_Remove.

(** [this.watcher.Add(f)]. *)
Definition CertWatcher_Add (f : string) : M (St CertWatcher) (option error) :=
  let* t := getThis in
  match watcher t with
  | None => panic "invalid memory address or nil pointer dereference"
  | Some w =>
      let* _ := liftSys (emit (EvWatcherAdd f)) in
      liftSys (call (Watcher_Add w f))
  end.

(** [CertWatcher.ReadCertificate], lines 250-263. *)
Definition CertWatcher_ReadCertificate : M (St CertWatcher) (option error) :=
  let* t := getThis in
  let* _ := liftSys (emit (EvLoadX509KeyPair (certPath t) (keyPath t))) in
  let* r := liftSys (call (tls_LoadX509KeyPair (certPath t) (keyPath t))) in
  match r with
  | Failure err => ret (Some err)
  | Success c =>
      let* _ := liftSys (emit EvLock) in
      let* _ := CertWatcher_setCurrentCert (Some c) in
      let* _ := liftSys (emit EvUnlock) in
      let* _ := liftSys (emit (EvLog "Updated current TLS certiface")) in
      ret None
  end.

(** [CertWatcher.GetCertificate], lines 198-202. *)
Definition CertWatcher_GetCertificate
    : M (St CertWatcher) (option TLSCertificate * option error) :=
  let* _ := liftSys (emit EvLock) in
  let* t := getThis in
  let* _ := liftSys (emit EvUnlock) in
  ret (cw_currentCert t, None).

(** [CertWatcher.handleEvent], lines 265-283. *)
Definition CertWatcher_handleEvent (event : fsnotify_Event) : M (St CertWatcher) unit :=
  if negb (isWrite event || isRemove event || isCreate event) then ret tt
  else
    let* _ := liftSys (emit (EvLog "certificate event")) in
    let* _ :=
      if isRemove event then
        let* e := CertWatcher_Add (Event_Name event) in
        match e with
        | Some _ => liftSys (emit (EvLog "error re-watching file"))
        | None => ret tt
        end
      else ret tt in
    let* e := CertWatcher_ReadCertificate in
    match e with
    | Some _ => liftSys (emit (EvLog "error re-reading certificate"))
    | None => ret tt
    end.

(** What a [select] of the event loop receives. *)
Inductive Notification : Type :=
| NEvent (event : fsnotify_Event)   (* a value from watcher.Events *)
| NEventsClosed                     (* watcher.Events closed *)
| NError (err : error)              (* a value from watcher.Errors *)
| NErrorsClosed.                    (* watcher.Errors closed *)

(** [CertWatcher.watch], lines 225-245, on the notifications it
    receives; [Waiting 0] when they are used up and the loop is in
    [select], [Exited] when it has returned. *)
Fixpoint CertWatcher_watch (ns : list Notification) : M (St CertWatcher) LoopStatus :=
  match ns with
  | [] => ret (Waiting 0)
  | NEvent event :: ns =>
      let* _ := CertWatcher_handleEvent event in
      CertWatcher_watch ns
  | NEventsClosed :: _ => ret Exited
  | NError _ :: ns =>
      let* _ := liftSys (emit (EvLog "certificate watch error")) in
      CertWatcher_watch ns
  | NErrorsClosed :: _ => ret Exited
  end.

(** A stop channel ([ctx.Done()]), by whether it is ever closed. *)
Inductive Chan : Type :=
| EventuallyClosed
| NeverClosed.

(** [<-stopCh]. *)
Definition recv (stopCh : Chan) : M Sys unit :=
  match stopCh with
  | EventuallyClosed => emit EvRecvStop
  | NeverClosed => fun s => (Blocked, s)
  end.

(** The [for _, f := range files] of [start], lines 208-212. *)
Fixpoint CertWatcher_addAll (files : list string) : M (St CertWatcher) (option error) :=
  match files with
  | [] => ret None
  | f :: files =>
      let* e := CertWatcher_Add f in
      match e with
      | Some err => ret (Some err)
      | None => CertWatcher_addAll files
      end
  end.

(** [CertWatcher.start], lines 205-222. *)
Definition CertWatcher_start (stopCh : Chan) : M (St CertWatcher) (option error) :=
  let* t := getThis in
  let files := [certPath t; keyPath t] in
  let* e := CertWatcher_addAll files in
  match e with
  | Some err => ret (Some err)
  | None =>
      let* _ := liftSys (emit (EvGo "watch")) in
      let* _ := liftSys (emit (EvLog "Starting certificate watcher")) in
      let* _ := liftSys (recv stopCh) in
      match watcher t with
      | None => panic "invalid memory address or nil pointer dereference"
      | Some w =>
          let* _ := liftSys (emit EvWatcherClose) in
          liftSys (call (Watcher_Close w))
      end
  end.

(** [file.New], lines 173-195; [done] is [ctx.Done()]. *)
Definition file_New (done : Chan) (certPath keyPath : string)
    : M Sys (result CertWatcher) :=
  fun s =>
    let cw := {| cw_currentCert := None; watcher := None;
                 certPath := certPath; keyPath := keyPath |} in
    match (let* err := CertWatcher_ReadCertificate in
           match err with
           | Some err => ret (Failure err)
           | None =>
               let* _ := liftSys (emit EvNewWatcher) in
               let* r := liftSys (call fsnotify_NewWatcher) in
               match r with
               | Failure err => ret (Failure err)
               | Success w =>
                   let* _ := CertWatcher_setWatcher (Some w) in
                   let* _ := CertWatcher_start done in
                   let* t := getThis in
                   ret (Success t)
               end
           end) {| this := cw; sys := s |} with
    | (r, st) => (r, sys st)
    end.

(** Whether [go f()] has been executed. *)
Definition started (f : string) (tr : list Event) : bool :=
  existsb (fun e => match e with
                    | EvGo g => bool_decide (g = f)
                    | _ => false
                    end) tr.

(** The notifications that arrive for a watcher after [New]: they are
    consumed by the [watch] goroutine, if there is one. *)
Definition CertWatcher_deliver (ns : list Notification) : M (St CertWatcher) unit :=
  fun st =>
    if started "watch" (trace (sys st)) then
      (let* _ := CertWatcher_watch ns in ret tt) st
    else (Ok tt, st).

End Program.

Arguments this {L T} _.
Arguments sys {L T} _.

(** ** Observations on the program

    Definitions used to state what the program does. *)
Section Observations.
Context `{L : Lib}.

(** [Valid] reads the clock and prints; what it answers depends on the
    world alone. *)
Definition Valid_on (k c ca : slice) (dnsname : string) (duration : Duration)
    (w : World) : Outcome bool * Sys :=
  Valid k c ca dnsname duration {| heap := []; world := w; trace := [] |}.

(** The template [NewSignedCert] hands to [x509.CreateCertificate]
    (lines 232-244) for the serial number and clock reading it drew. *)
Definition certTemplate (cfg : cert_Config) (caCert : Cert) (serial : Z)
    (now : Time) (duration : Duration) : Cert :=
  {| Subject := {| Name_CommonName := cc_CommonName cfg;
                   Name_Organization := cc_Organization cfg |};
     DNSNames := AltNames_DNSNames (cc_AltNames cfg);
     IPAddresses := AltNames_IPs (cc_AltNames cfg);
     SerialNumber := serial;
     NotBefore := NotBefore caCert;
     NotAfter := now + duration;
     KeyUsage := Z.lor KeyUsageKeyEncipherment KeyUsageDigitalSignature;
     ExtKeyUsage := cc_Usages cfg;
     Raw := zeroRaw |}.

(** The condition under which line 129 keeps the CA of bundle [n], when
    line 112 runs in world [w]. *)
Definition caUsable (n : info) (w : World) : bool :=
  negb (isNil (cacert n)) &&
  match fst (Valid_on (cakey n) (cacert n) (cacert n) "" (5 * Hour * 24) w) with
  | Ok true => true
  | _ => false
  end &&
  match keyutil_ParsePrivateKeyPEM (bytes (cakey n)) with
  | Success (SignerRSA _) => true
  | _ => false
  end &&
  match cert_ParseCertsPEM (bytes (cacert n)) with
  | Success (_ :: _) => true
  | _ => false
  end.

(** The check of line 108 on a bundle with fields [b], seen from the
    world it runs in. *)
Definition IsValid_on (b : info) (dnsname : string) (duration : Duration)
    (w : World) : Outcome bool * Sys :=
  IsValid (Some O) dnsname duration {| heap := [b]; world := w; trace := [] |}.

(** The fields of the working bundle after lines 93-99. *)
Definition workingCopy (old : CertificateInfo) (h : list info) : option info :=
  match old with
  | None => Some {| cert := None; key := None; cacert := None; cakey := None |}
  | Some p => h !! p
  end.

(** [s] after the events [es]. *)
Definition after (s : Sys) (es : list Event) : Sys :=
  {| heap := heap s; world := world s; trace := trace s ++ es |}.

(** The back-off after a failed refresh (line 118). *)
Definition nextBackoff (backoff : Duration) : Duration := ddiv (dmul backoff 3) 2.

(** The back-off after [k] failed refreshes in a row. *)
Definition backoffAfter (k : nat) : Duration := Nat.iter k nextBackoff (dmul 1 Second).

(** The durations the timer was armed with. *)
Definition delays (tr : list Event) : list Duration :=
  omap (fun e => match e with
                 | EvNewTimer d => Some d
                 | EvTimerReset d => Some d
                 | _ => None
                 end) tr.


(** The condition for keeping the CA as the specification words it:
    present, valid against itself with the 5-day lookahead, and the CA
    key parses from PEM as an RSA key. *)
Definition caUsable_spec (n : info) (w : World) : bool :=
  negb (isNil (cacert n)) &&
  match fst (Valid_on (cakey n) (cacert n) (cacert n) "" (5 * Hour * 24) w) with
  | Ok true => true
  | _ => false
  end &&
  match keyutil_ParsePrivateKeyPEM (bytes (cakey n)) with
  | Success (SignerRSA _) => true
  | _ => false
  end.

End Observations.

(** Equality of byte slices, as a test. *)
Fixpoint bytes_eqb (a b : list byte) : bool :=
  match a, b with
  | [], [] => true
  | x :: a, y :: b => Byte.eqb x y && bytes_eqb a b
  | _, _ => false
  end.

Definition slice_eqb (a b : slice) : bool :=
  match a, b with
  | None, None => true
  | Some a, Some b => bytes_eqb a b
  | _, _ => false
  end.

(** ** Further observations *)
Section EngineObservations.
Context `{L : Lib}.

(** The effects of the certificate engine: printing, key generation,
    CA issuing, signing. *)
Definition engineEvent (e : Event) : bool :=
  match e with
  | EvPrintf _ | EvNewPrivateKey | EvNewSelfSignedCACert _ | EvCreateCertificate _ => true
  | _ => false
  end.

(** [s'] differs from [s] at most in the object at address [new], in
    the world, and by engine events added to the trace. *)
Definition engineStep (new : ptr) (s s' : Sys) : Prop :=
  length (heap s') = length (heap s) /\
  (forall q : ptr, q <> new -> heap s' !! q = heap s !! q) /\
  exists tr, trace s' = trace s ++ tr /\ Forall (fun e => engineEvent e = true) tr.

(** Every run of [m] is an [engineStep] at [new] and does not block. *)
Definition engineOnly {A} (new : ptr) (m : M Sys A) : Prop :=
  forall s r s', m s = (r, s') -> engineStep new s s' /\ r <> Blocked.

(** A bundle in which the server certificate, the server key or the CA
    certificate is nil or empty. *)
Definition incomplete (b : info) : Prop :=
  len (cert b) = O \/ len (key b) = O \/ len (cacert b) = O.

(** Every value [m] returns satisfies [Q]. *)
Definition returns {S A} (Q : A -> Prop) (m : M S A) : Prop :=
  forall s a s', m s = (Ok a, s') -> Q a.

(** The errors [UpdateCertificate] wraps, by the stage that failed. *)
Inductive IssueError : error -> Prop :=
| CAKeyError (e : error) : IssueError ("failed to create the CA key pair: " +:+ e)
| CACertError (e : error) : IssueError ("failed to create the CA certmgmt: " +:+ e)
| ServerKeyError (e : error) : IssueError ("failed to create the server key pair: " +:+ e)
| ServerCertError (e : error) : IssueError ("failed to create the server certmgmt: " +:+ e).

(** The effects of a refresh of the polling watcher: those of the
    engine, the store's Get and Set, and the lock. *)
Definition refreshEvent (e : Event) : bool :=
  engineEvent e ||
  match e with
  | EvGet | EvSet _ | EvLock | EvUnlock => true
  | _ => false
  end.

(** A store whose Get fails every time. *)
Definition storeDown (acc : CertificateAccess) : Prop :=
  forall (h : list info) (w : World),
    exists (e : error) (hw : list info * World), access_Get acc h w = (Failure e, hw).

(** What the refresh loop does during an outage: it logs, asks the
    store, and re-arms the timer. *)
Definition quietEvent (e : Event) : bool :=
  match e with
  | EvLog _ | EvGet | EvTimerReset _ => true
  | _ => false
  end.

(** The test of [handleEvent], line 267: an event that may modify the
    contents of the file. *)
Definition relevant (event : fsnotify_Event) : bool :=
  isWrite event || isRemove event || isCreate event.

(** [st'] is [st] with, at most, another certificate loaded: the
    watcher, the two paths and the heap are the same, a loaded
    certificate is not unloaded, and the trace has only grown. *)
Definition reloadStep (st st' : St CertWatcher) : Prop :=
  watcher (this st') = watcher (this st) /\
  certPath (this st') = certPath (this st) /\
  keyPath (this st') = keyPath (this st) /\
  heap (sys st') = heap (sys st) /\
  (is_Some (cw_currentCert (this st)) -> is_Some (cw_currentCert (this st'))) /\
  exists tr, trace (sys st') = trace (sys st) ++ tr.

(** Every run of [m] is a [reloadStep], does not block, and returns
    when the watcher is set. *)
Definition reloadOnly {A} (m : M (St CertWatcher) A) : Prop :=
  forall st r st', m st = (r, st') ->
    reloadStep st st' /\ r <> Blocked /\
    (is_Some (watcher (this st)) -> exists a, r = Ok a).

End EngineObservations.

(** ** A small instance of the libraries

    Keys are numbers, a certificate names the key it certifies and the
    key that signed it, DER and PEM are simple byte framings, the clock
    advances by one microsecond at every reading, and entropy is a list
    of numbers.  The instance is used to run the program on concrete
    inputs. *)
Module Toy.

Record ToyRaw := {
  raw_pub : Z;        (* the certified public key *)
  raw_signer : Z;     (* the key that signed the certificate *)
  raw_isCA : bool
}.

Definition TCert := Certificate ToyRaw.
Definition TKey := Signer Z Z.

Record ToyWorld := {
  clock : Time;
  entropy : list Z;
  files : list (string * list byte);
  unwatchable : list string;
  secret : option info;
  get_failures : nat;
  set_fails : bool
}.

Definition with_clock (w : ToyWorld) (t : Time) : ToyWorld :=
  {| clock := t; entropy := entropy w; files := files w;
     unwatchable := unwatchable w; secret := secret w;
     get_failures := get_failures w; set_fails := set_fails w |}.

Definition with_entropy (w : ToyWorld) (e : list Z) : ToyWorld :=
  {| clock := clock w; entropy := e; files := files w;
     unwatchable := unwatchable w; secret := secret w;
     get_failures := get_failures w; set_fails := set_fails w |}.

Definition with_secret (w : ToyWorld) (i : option info) : ToyWorld :=
  {| clock := clock w; entropy := entropy w; files := files w;
     unwatchable := unwatchable w; secret := i;
     get_failures := get_failures w; set_fails := set_fails w |}.

Definition with_get_failures (w : ToyWorld) (n : nat) : ToyWorld :=
  {| clock := clock w; entropy := entropy w; files := files w;
     unwatchable := unwatchable w; secret := secret w;
     get_failures := n; set_fails := set_fails w |}.

(** *** Byte framings *)

Definition bit_byte (b : bool) : byte := if b then "1"%byte else "0"%byte.

Fixpoint pos_bytes (p : positive) : list byte :=
  match p with
  | xH => []
  | xO q => bit_byte false :: pos_bytes q
  | xI q => bit_byte true :: pos_bytes q
  end.

Fixpoint bytes_pos (l : list byte) : option positive :=
  match l with
  | [] => Some xH
  | b :: l =>
      match bytes_pos l with
      | None => None
      | Some q =>
          if Byte.eqb b "0"%byte then Some (xO q)
          else if Byte.eqb b "1"%byte then Some (xI q)
          else None
      end
  end.

Definition byteN (b : byte) : N := Byte.to_N b.
Definition Nbyte (n : N) : byte := default "000"%byte (Byte.of_N (n mod 256)%N).

Definition cert_tuple (c : TCert) :=
  ((Name_CommonName (Subject c), Name_Organization (Subject c)),
   (DNSNames c, map (map byteN) (IPAddresses c)),
   ((SerialNumber c, NotBefore c), (NotAfter c, KeyUsage c)),
   (ExtKeyUsage c, (raw_pub (Raw c), raw_signer (Raw c), raw_isCA (Raw c)))).

Definition tuple_cert
    (t : (string * list string) * (list string * list (list N)) *
         ((Z * Z) * (Z * Z)) * (list Z * (Z * Z * bool))) : TCert :=
  let '((cn, org), (dns, ips), ((ser, nb), (na, ku)), (eku, (pk, sg, ca))) := t in
  {| Subject := {| Name_CommonName := cn; Name_Organization := org |};
     DNSNames := dns; IPAddresses := map (map Nbyte) ips;
     SerialNumber := ser; NotBefore := nb; NotAfter := na;
     KeyUsage := ku; ExtKeyUsage := eku;
     Raw := {| raw_pub := pk; raw_signer := sg; raw_isCA := ca |} |}.

Definition cert_eqb (a b : TCert) : bool :=
  bool_decide (cert_tuple a = cert_tuple b).

(** DER of a certificate and of a key. *)
Definition der_cert (c : TCert) : list byte := pos_bytes (encode (cert_tuple c)).

Definition parse_der_cert (der : list byte) : result TCert :=
  match bytes_pos der ≫= decode with
  | Some t => Success (tuple_cert t)
  | None => Failure "x509: malformed certificate"
  end.

Definition der_key (k : Z) : list byte := pos_bytes (encode k).

Definition parse_der_key (der : list byte) : result Z :=
  match bytes_pos der ≫= decode with
  | Some k => Success k
  | None => Failure "x509: failed to parse private key"
  end.

(** PEM: a block is its type (one length byte, then the characters),
    the length of its payload (three bytes) and the payload; a document
    is a sequence of blocks. *)
Definition len3 (n : nat) : list byte :=
  let n := N.of_nat n in
  [Nbyte (n / 65536); Nbyte (n / 256); Nbyte n].

Definition toy_pem_encode (b : pem_Block) : list byte :=
  let ty := String.list_byte_of_string (Block_Type b) in
  Nbyte (N.of_nat (length ty)) :: ty ++ len3 (length (Block_Bytes b)) ++ Block_Bytes b.

Definition toy_pem_decode (l : list byte) : option pem_Block * list byte :=
  match l with
  | [] => (None, l)
  | n :: l1 =>
      let n := N.to_nat (byteN n) in
      if (length l1 <? n)%nat then (None, l)
      else
        let ty := take n l1 in
        match drop n l1 with
        | a :: b :: c :: l2 =>
            let m := N.to_nat (byteN a * 65536 + byteN b * 256 + byteN c) in
            if (length l2 <? m)%nat then (None, l)
            else (Some {| Block_Type := String.string_of_list_byte ty;
                          Block_Headers := [];
                          Block_Bytes := take m l2 |},
                  drop m l2)
        | _ => (None, l)
        end
  end.

(** All blocks of a document. *)
Fixpoint pem_blocks (fuel : nat) (l : list byte) : list pem_Block :=
  match fuel with
  | O => []
  | S fuel =>
      match toy_pem_decode l with
      | (None, _) => []
      | (Some b, rest) => b :: pem_blocks fuel rest
      end
  end.

Definition blocks_of (l : list byte) : list pem_Block := pem_blocks (length l) l.

Definition is_cert_block (b : pem_Block) : bool :=
  bool_decide (Block_Type b = "CERTIFICATE").

Definition toy_EncodeCertPEM (c : TCert) : list byte :=
  toy_pem_encode {| Block_Type := "CERTIFICATE"; Block_Headers := [];
                    Block_Bytes := der_cert c |}.

(** client-go's [ParseCertsPEM]: every CERTIFICATE block must parse,
    and there must be one. *)
Fixpoint parse_all (bs : list pem_Block) : result (list TCert) :=
  match bs with
  | [] => Success []
  | b :: bs =>
      if is_cert_block b then
        match parse_der_cert (Block_Bytes b) with
        | Failure e => Failure e
        | Success c =>
            match parse_all bs with
            | Failure e => Failure e
            | Success cs => Success (c :: cs)
            end
        end
      else parse_all bs
  end.

Definition toy_ParseCertsPEM (l : list byte) : result (list TCert) :=
  match parse_all (blocks_of l) with
  | Failure e => Failure e
  | Success [] => Failure "data does not contain any valid RSA or ECDSA certificates"
  | Success cs => Success cs
  end.

(** [AppendCertsFromPEM]: blocks that do not parse are skipped. *)
Fixpoint parse_some (bs : list pem_Block) : list TCert :=
  match bs with
  | [] => []
  | b :: bs =>
      if is_cert_block b then
        match parse_der_cert (Block_Bytes b) with
        | Failure _ => parse_some bs
        | Success c => c :: parse_some bs
        end
      else parse_some bs
  end.

Definition toy_AppendCertsFromPEM (pool : list TCert) (l : list byte)
    : list TCert * bool :=
  let cs := parse_some (blocks_of l) in
  (pool ++ cs, negb (isNil (head cs))).

Definition key_of_signer (k : TKey) : Z :=
  match k with
  | SignerRSA z => z
  | SignerOther z => z
  end.

Definition toy_ParsePrivateKeyPEM (l : list byte) : result TKey :=
  match head (blocks_of l) with
  | None => Failure "data does not contain a valid RSA or ECDSA private key"
  | Some b =>
      match parse_der_key (Block_Bytes b) with
      | Failure e => Failure e
      | Success k =>
          if bool_decide (Block_Type b = RSAPrivateKeyBlockType) then Success (SignerRSA k)
          else if bool_decide (Block_Type b = "EC PRIVATE KEY") then Success (SignerOther k)
          else Failure "data does not contain a valid RSA or ECDSA private key"
      end
  end.

(** [tls.X509KeyPair]: the first certificate of the document is the
    leaf; it must parse, and the key must be the one it certifies. *)
Definition toy_X509KeyPair (certPEM keyPEM : list byte) : result (TCert * Z) :=
  match head (filter (fun b => is_cert_block b = true) (blocks_of certPEM)) with
  | None => Failure "tls: failed to find any PEM data in certificate input"
  | Some cb =>
      match toy_ParsePrivateKeyPEM keyPEM with
      | Failure _ => Failure "tls: failed to parse private key"
      | Success k =>
          match parse_der_cert (Block_Bytes cb) with
          | Failure e => Failure e
          | Success c =>
              if raw_pub (Raw c) =? key_of_signer k then Success (c, key_of_signer k)
              else Failure "tls: private key does not match public key"
          end
      end
  end.

Definition in_window (c : TCert) (t : Time) : bool :=
  (NotBefore c <=? t) && (t <=? NotAfter c).

(** [Certificate.Verify] with roots only: validity period of the leaf,
    the host name when one is asked for, then a chain: the certificate
    is itself a root, or a root that is a CA, is in its validity period
    and whose key signed it; server authentication must be allowed. *)
Definition toy_Verify (c : TCert) (o : VerifyOptions (list TCert)) : option error :=
  let t := vo_CurrentTime o in
  if negb (in_window c t) then
    Some "x509: certificate has expired or is not yet valid"
  else if negb (bool_decide (vo_DNSName o = "")) &&
          negb (bool_decide (vo_DNSName o ∈ DNSNames c)) then
    Some "x509: certificate is not valid for the requested name"
  else if existsb (cert_eqb c) (vo_Roots o) then None
  else if existsb (fun r => raw_isCA (Raw r) && in_window r t &&
                            (raw_signer (Raw c) =? raw_pub (Raw r))) (vo_Roots o) then
    if isNil (head (ExtKeyUsage c)) ||
       bool_decide (ExtKeyUsageServerAuth ∈ ExtKeyUsage c) then None
    else Some "x509: certificate specifies an incompatible key usage"
  else Some "x509: certificate signed by unknown authority".

(** *** Clock, entropy, issuing *)

Definition toy_Now (w : ToyWorld) : Time * ToyWorld :=
  (clock w, with_clock w (clock w + Microsecond)).

Definition toy_rand_Int (max : Z) (w : ToyWorld) : result Z * ToyWorld :=
  match entropy w with
  | [] => (Failure "unexpected EOF", w)
  | r :: e =>
      if 0 <? max then (Success (r mod max), with_entropy w e)
      else (Failure "crypto/rand: argument to Int is <= 0", with_entropy w e)
  end.

Definition toy_NewPrivateKey (w : ToyWorld) : result TKey * ToyWorld :=
  match entropy w with
  | [] => (Failure "unexpected EOF", w)
  | r :: e =>
      (Success (if 0 <=? r then SignerRSA r else SignerOther r), with_entropy w e)
  end.

Definition KeyUsageCertSign : Z := 32.

(** client-go's [NewSelfSignedCACert]: serial 0, valid for ten years
    from now, a CA. *)
Definition toy_NewSelfSignedCACert (cfg : cert_Config) (k : TKey) (w : ToyWorld)
    : result TCert * ToyWorld :=
  let (now, w) := toy_Now w in
  (Success {| Subject := {| Name_CommonName := cc_CommonName cfg;
                            Name_Organization := cc_Organization cfg |};
              DNSNames := []; IPAddresses := [];
              SerialNumber := 0;
              NotBefore := now;
              NotAfter := now + 10 * 365 * 24 * Hour;
              KeyUsage := Z.lor KeyUsageKeyEncipherment
                            (Z.lor KeyUsageDigitalSignature KeyUsageCertSign);
              ExtKeyUsage := [];
              Raw := {| raw_pub := key_of_signer k; raw_signer := key_of_signer k;
                        raw_isCA := true |} |}, w).

(** [x509.CreateCertificate]: the signing key must be the parent's. *)
Definition toy_CreateCertificate (tmpl parent : TCert) (pub : Z) (priv : TKey)
    (w : ToyWorld) : result (list byte) * ToyWorld :=
  if raw_pub (Raw parent) =? key_of_signer priv then
    (Success (der_cert
       {| Subject := Subject tmpl; DNSNames := DNSNames tmpl;
          IPAddresses := IPAddresses tmpl; SerialNumber := SerialNumber tmpl;
          NotBefore := NotBefore tmpl; NotAfter := NotAfter tmpl;
          KeyUsage := KeyUsage tmpl; ExtKeyUsage := ExtKeyUsage tmpl;
          Raw := {| raw_pub := pub; raw_signer := key_of_signer priv;
                    raw_isCA := false |} |}), w)
  else (Failure "x509: provided PrivateKey doesn't match parent's PublicKey", w).

(** *** Files and notifications *)

Fixpoint read_file (fs : list (string * list byte)) (path : string) : option (list byte) :=
  match fs with
  | [] => None
  | (p, d) :: fs => if bool_decide (p = path) then Some d else read_file fs path
  end.

Definition toy_LoadX509KeyPair (cp kp : string) (w : ToyWorld)
    : result (TCert * Z) * ToyWorld :=
  match read_file (files w) cp, read_file (files w) kp with
  | Some c, Some k => (toy_X509KeyPair c k, w)
  | _, _ => (Failure "open: no such file or directory", w)
  end.

Definition toy_Watcher_Add (_ : unit) (f : string) (w : ToyWorld)
    : option error * ToyWorld :=
  if bool_decide (f ∈ unwatchable w) then (Some "no such file or directory", w)
  else (None, w).

Lemma toy_rand_Int_range max w r w' :
  toy_rand_Int max w = (Success r, w') -> 0 <= r < max.
Proof.
  unfold toy_rand_Int. destruct (entropy w) as [|x e]; [discriminate|].
  destruct (0 <? max) eqn:Hmax; [|discriminate].
  intros [= <- _]. apply Z.ltb_lt in Hmax. apply Z.mod_pos_bound. exact Hmax.
Qed.

#[export] Instance toy : Lib := {|
  World := ToyWorld;
  RSAPrivateKey := Z;
  OtherKey := Z;
  PublicKey := Z;
  CertPool := list TCert;
  TLSCertificate := TCert * Z;
  CertRaw := ToyRaw;
  Watcher := unit;
  zeroRaw := {| raw_pub := 0; raw_signer := 0; raw_isCA := false |};
  time_Now := toy_Now;
  cryptorand_Int := toy_rand_Int;
  pkiutil_NewPrivateKey := toy_NewPrivateKey;
  Signer_Public := key_of_signer;
  x509_MarshalPKCS1PrivateKey := der_key;
  pem_EncodeToMemory := toy_pem_encode;
  pem_Decode := toy_pem_decode;
  pkiutil_EncodeCertPEM := toy_EncodeCertPEM;
  keyutil_ParsePrivateKeyPEM := toy_ParsePrivateKeyPEM;
  cert_ParseCertsPEM := toy_ParseCertsPEM;
  cert_NewSelfSignedCACert := toy_NewSelfSignedCACert;
  tls_X509KeyPair := toy_X509KeyPair;
  tls_LoadX509KeyPair := toy_LoadX509KeyPair;
  x509_NewCertPool := [];
  CertPool_AppendCertsFromPEM := toy_AppendCertsFromPEM;
  x509_ParseCertificate := parse_der_cert;
  Certificate_Verify := toy_Verify;
  x509_CreateCertificate := toy_CreateCertificate;
  fsnotify_NewWatcher := fun w => (Success tt, w);
  Watcher_Add := toy_Watcher_Add;
  Watcher_Close := fun _ w => (None, w);
  cryptorand_Int_range := toy_rand_Int_range
|}.

(** A store that holds one bundle by value: [Get] fails while
    [get_failures] is positive, hands out a fresh [info] otherwise (nil
    when the store is empty); [Set] copies the bundle in. *)
Definition toy_Get (h : list info) (w : ToyWorld)
    : result CertificateInfo * (list info * ToyWorld) :=
  match get_failures w with
  | S n => (Failure "store unavailable", (h, with_get_failures w n))
  | O =>
      match secret w with
      | None => (Success None, (h, w))
      | Some i => (Success (Some (length h)), (h ++ [i], w))
      end
  end.

Definition toy_Set (i : CertificateInfo) (h : list info) (w : ToyWorld)
    : option error * (list info * ToyWorld) :=
  if set_fails w then (Some "conflict", (h, w))
  else (None, (h, with_secret w (i ≫= fun p => h !! p))).

Definition toy_access : CertificateAccess :=
  {| access_Get := toy_Get; access_Set := toy_Set |}.

(** *** Inputs on which the program is run *)

Definition w0 : ToyWorld :=
  {| clock := 1000 * Second; entropy := [11; 22; 33; 44; 55; 66];
     files := []; unwatchable := []; secret := None;
     get_failures := 0; set_fails := false |}.

Definition s0 : Sys := {| heap := []; world := w0; trace := [] |}.

Definition cfg0 : Config :=
  {| CommonName := "svc"; DnsNames := ["svc.ns"];
     Validity := 24 * Hour; Rest := Hour |}.

(** No common name. *)
Definition cfg_nocn : Config :=
  {| CommonName := ""; DnsNames := ["svc.ns"];
     Validity := 24 * Hour; Rest := Hour |}.

(** A validity shorter than the renewal lookahead. *)
Definition cfg_short : Config :=
  {| CommonName := "svc"; DnsNames := ["svc.ns"];
     Validity := Hour; Rest := 2 * Hour |}.

Definition nil_info : info :=
  {| cert := None; key := None; cacert := None; cakey := None |}.

(** The state after a first issuance, and the bundle it issued. *)
Definition s_issued : Sys := snd (UpdateCertificate None cfg0 s0).
Definition b_issued : info := default nil_info (heap s_issued !! O).

(** The issued bundle without its server certificate and key. *)
Definition b_nocert : info :=
  {| cert := None; key := None; cacert := cacert b_issued; cakey := cakey b_issued |}.
Definition s_nocert : Sys :=
  {| heap := [b_nocert]; world := world s_issued; trace := [] |}.

(** The same, with a CERTIFICATE block that is not a certificate
    appended to the CA certificate. *)
Definition garbage : list byte :=
  toy_pem_encode {| Block_Type := "CERTIFICATE"; Block_Headers := [];
                    Block_Bytes := ["x"%byte] |}.
Definition b_trailing : info :=
  {| cert := None; key := None;
     cacert := Some (bytes (cacert b_issued) ++ garbage);
     cakey := cakey b_issued |}.
Definition s_trailing : Sys :=
  {| heap := [b_trailing]; world := world s_issued; trace := [] |}.

(** A world whose entropy source yields 0 as the third number drawn. *)
Definition s_zero : Sys :=
  {| heap := []; world := with_entropy w0 [11; 22; 0]; trace := [] |}.

(** The CA that [s_issued] was issued under, and the state in which
    the server certificate of the first issuance was signed. *)
Definition ca0 : TCert :=
  match toy_ParseCertsPEM (bytes (cacert b_issued)) with
  | Success (c :: _) => c
  | _ => tuple_cert (("", []), ([], []), ((0, 0), (0, 0)), ([], (0, 0, false)))
  end.
Definition s_signing (e : list Z) : Sys :=
  {| heap := []; world := with_entropy (world s_issued) e; trace := [] |}.

Definition signed (e : list Z) : Outcome (result TCert) * Sys :=
  NewSignedCert (serverConfig cfg0) (SignerRSA 22) ca0 (SignerRSA 11)
    (Validity cfg0) (s_signing e).
Definition cert_signed (e : list Z) : TCert :=
  match fst (signed e) with
  | Ok (Success c) => c
  | _ => ca0
  end.

(** A polling watcher that has started on an empty store, and the same
    watcher while the store is down. *)
Definition boot : Outcome (result AccessSource) * Sys := access_New toy_access cfg0 s0.
Definition source0 : AccessSource :=
  match fst boot with
  | Ok (Success a) => a
  | _ => {| currentCert := None; config := cfg0; access := toy_access |}
  end.
Definition st_running : St AccessSource := {| this := source0; sys := snd boot |}.
Definition st_outage (n : nat) : St AccessSource :=
  {| this := source0;
     sys := {| heap := heap (snd boot);
               world := with_get_failures (world (snd boot)) n;
               trace := [] |} |}.

(** The next refresh of the running watcher: what Get hands out, and
    the state [UpdateCertificate] leaves. *)
Definition got_running : result CertificateInfo * (list info * ToyWorld) :=
  access_Get (access (this st_running)) (heap (sys st_running)) (world (sys st_running)).
Definition h_got : list info := fst (snd got_running).
Definition w_got : ToyWorld := snd (snd got_running).
Definition s_updated : Sys :=
  snd (UpdateCertificate (Some 1%nat) (config (this st_running))
         {| heap := h_got; world := w_got; trace := trace (sys st_running) ++ [EvGet] |}).

(** A polling watcher that has never loaded a certificate. *)
Definition st_never : St AccessSource :=
  {| this := {| currentCert := None; config := cfg0; access := toy_access |};
     sys := s0 |}.

(** Certificate and key files, and a key file that cannot be watched. *)
Definition with_files (w : ToyWorld) (fs : list (string * list byte))
    (bad : list string) : ToyWorld :=
  {| clock := clock w; entropy := entropy w; files := fs;
     unwatchable := bad; secret := secret w;
     get_failures := get_failures w; set_fails := set_fails w |}.

Definition pair_files : list (string * list byte) :=
  [("tls.crt", bytes (cert b_issued)); ("tls.key", bytes (key b_issued))].

Definition s_files : Sys :=
  {| heap := []; world := with_files w0 pair_files []; trace := [] |}.
Definition s_unwatchable : Sys :=
  {| heap := []; world := with_files w0 pair_files ["tls.key"]; trace := [] |}.

Definition cert0 : TCert * Z :=
  match toy_X509KeyPair (bytes (cert b_issued)) (bytes (key b_issued)) with
  | Success c => c
  | Failure _ => (ca0, 0)
  end.

(** A file watcher with a loaded certificate whose files have gone. *)
Definition st_gone : St CertWatcher :=
  {| this := {| cw_currentCert := Some cert0; watcher := Some tt;
                certPath := "tls.crt"; keyPath := "tls.key" |};
     sys := s0 |}.

End Toy.

(** ** Further inputs *)
Module ToyMore.
Import Toy.

(** No DNS names. *)
Definition cfg_nonames : Config :=
  {| CommonName := "svc"; DnsNames := [];
     Validity := 24 * Hour; Rest := Hour |}.

(** A store whose Get fails every time, and a polling watcher on it. *)
Definition toy_Get_down (h : list info) (w : ToyWorld)
    : result CertificateInfo * (list info * ToyWorld) :=
  (Failure "store unavailable", (h, w)).

Definition down_access : CertificateAccess :=
  {| access_Get := toy_Get_down; access_Set := toy_Set |}.

Definition st_down : St AccessSource :=
  {| this := {| currentCert := currentCert source0; config := cfg0;
                access := down_access |};
     sys := s0 |}.

(** Notifications for the certificate file: removed, and a change of
    its mode ([fsnotify.Chmod] is 16). *)
Definition ev_removed : fsnotify_Event :=
  {| Event_Name := "tls.crt"; Event_Op := fsnotify_Remove |}.
Definition ev_chmod : fsnotify_Event :=
  {| Event_Name := "tls.crt"; Event_Op := 16 |}.

End ToyMore.

(** * Properties *)

Section Properties.
Context `{L : Lib}.

(** ** Running computations *)

Ltac same_lhs :=
  repeat match goal with
         | H1 : ?x = ?a, H2 : ?x = ?b |- _ => rewrite H1 in H2; simplify_eq
         end.

Lemma insert_fresh (h : list info) (x y : info) :
  <[length h := y]> (h ++ [x]) = h ++ [y].
Proof.
  rewrite insert_app_r_alt by lia.
  replace (length h - length h)%nat with O by lia. reflexivity.
Qed.

Lemma lookup_fresh (h : list info) (x : info) :
  (h ++ [x]) !! length h = Some x.
Proof.
  rewrite lookup_app_r by lia.
  replace (length h - length h)%nat with O by lia. reflexivity.
Qed.

Lemma info_eta (b : info) :
  {| cert := cert b; key := key b; cacert := cacert b; cakey := cakey b |} = b.
Proof. destruct b; reflexivity. Qed.

Lemma Valid_frame k c ca dnsname duration s :
  Valid k c ca dnsname duration s =
  (fst (Valid_on k c ca dnsname duration (world s)),
   {| heap := heap s;
      world := world (snd (Valid_on k c ca dnsname duration (world s)));
      trace := trace s ++ trace (snd (Valid_on k c ca dnsname duration (world s))) |}).
Proof.
  unfold Valid_on, Valid, Printf, emit, call, bind, ret. destruct s as [h w tr]; simpl.
  repeat case_match; simplify_eq; simpl; rewrite ?app_nil_r; try reflexivity.
  all: simpl in *; simplify_eq; same_lhs; try reflexivity.
Qed.

(** When [Valid] answers yes it has read the clock once and printed
    the verdict, and nothing else. *)
Lemma Valid_true k c ca dnsname duration s s' :
  Valid k c ca dnsname duration s = (Ok true, s') ->
  s' = {| heap := heap s; world := snd (time_Now (world s));
          trace := trace s ++ [EvPrintf "val: %!s(<nil>)"] |}.
Proof.
  unfold Valid, Printf, emit, call, bind, ret. destruct s as [h w tr]; simpl.
  intros H. repeat case_match; simplify_eq; simpl in *; simplify_eq.
  apply bool_decide_eq_true in H. rewrite H. simpl.
  match goal with E : time_Now _ = _ |- _ => rewrite E end. reflexivity.
Qed.

Lemma IsValid_frame p b dnsname duration s :
  heap s !! p = Some b ->
  IsValid (Some p) dnsname duration s =
  match cert b, key b with
  | Some _, Some _ =>
      match cacert b with
      | None => (Ok false, {| heap := heap s; world := world s;
                              trace := trace s ++ [EvPrintf "cacert not set"] |})
      | Some _ => Valid (key b) (cert b) (cacert b) dnsname duration s
      end
  | _, _ => (Ok false, {| heap := heap s; world := world s;
                          trace := trace s ++ [EvPrintf "certmgmt or key not set"] |})
  end.
Proof.
  intros Hb. unfold IsValid, fields, load, bind. rewrite Hb.
  destruct (cert b), (key b), (cacert b); reflexivity.
Qed.

Lemma IsValid_true p b dnsname duration s s' :
  heap s !! p = Some b ->
  IsValid (Some p) dnsname duration s = (Ok true, s') ->
  Valid (key b) (cert b) (cacert b) dnsname duration s = (Ok true, s').
Proof.
  intros Hb. rewrite (IsValid_frame p b) by exact Hb.
  destruct (cert b), (key b), (cacert b); intros H; simplify_eq; exact H.
Qed.

(** C1.  A non-nil input bundle that passes [IsValid] for the first
    configured DNS name with lookahead [Rest] is handed back as it is:
    [UpdateCertificate] returns the input pointer, so the caller sees no
    change; the input's four fields are as given; nothing is issued: the
    only effects are one reading of the clock and the verdict printed by
    the validation (the working copy is the one new object). *)
Theorem C1_valid_bundle_returned_unchanged
    (p : ptr) (b : info) (cfg : Config) (dnsname : string) (names : list string)
    (s : Sys) :
  heap s !! p = Some b ->
  DnsNames cfg = dnsname :: names ->
  fst (IsValid (Some p) dnsname (Rest cfg) s) = Ok true ->
  exists s',
    UpdateCertificate (Some p) cfg s = (Ok (Success (Some p)), s') /\
    heap s' !! p = Some b /\
    heap s' = heap s ++ [b] /\
    world s' = snd (time_Now (world s)) /\
    trace s' = trace s ++ [EvPrintf "val: %!s(<nil>)"].
Proof.
  intros Hb Hdns Hvalid.
  destruct (IsValid (Some p) dnsname (Rest cfg) s) as [o s1] eqn:Hrun.
  simpl in Hvalid. subst o.
  pose proof (IsValid_true _ _ _ _ _ _ Hb Hrun) as HV.
  pose proof (Valid_true _ _ _ _ _ _ _ HV) as Hs1. subst s1.
  set (s2 := {| heap := heap s ++ [b]; world := world s; trace := trace s |}).
  assert (Hs2 : heap s2 !! length (heap s) = Some b) by apply lookup_fresh.
  assert (HV2 : IsValid (Some (length (heap s))) dnsname (Rest cfg) s2 =
                (Ok true, {| heap := heap s ++ [b]; world := snd (time_Now (world s));
                             trace := trace s ++ [EvPrintf "val: %!s(<nil>)"] |})).
  { rewrite (IsValid_frame _ b) by exact Hs2.
    rewrite (IsValid_frame _ b) in Hrun by exact Hb.
    destruct (cert b), (key b), (cacert b); simplify_eq.
    rewrite Valid_frame in HV. rewrite Valid_frame. simpl.
    injection HV as Hr Hw Htr. rewrite Hr, Hw.
    apply app_inv_head in Htr. rewrite Htr. reflexivity. }
  eexists. split.
  - unfold UpdateCertificate, fields, load, alloc, store, bind at 1 2 3. simpl.
    rewrite (lookup_app_l_Some _ _ _ _ Hb). simpl.
    rewrite info_eta, insert_fresh. rewrite Hdns.
    unfold bind at 1.
    match goal with
    | |- context [IsValid ?a ?d ?r ?st] =>
        change (IsValid a d r st) with (IsValid (Some (length (heap s))) dnsname (Rest cfg) s2)
    end.
    rewrite HV2. simpl. reflexivity.
  - simpl. repeat split; try reflexivity.
    apply lookup_app_l_Some. exact Hb.
Qed.

(** ** The issuing path of [UpdateCertificate] *)

Lemma NewSignedCert_spec cfg key caCert caKey duration s c s' :
  NewSignedCert cfg key caCert caKey duration s = (Ok (Success c), s') ->
  exists serial w1 now w2 der w3,
    cryptorand_Int MaxInt64 (world s) = (Success serial, w1) /\
    0 <= serial < MaxInt64 /\
    cc_CommonName cfg <> "" /\
    cc_Usages cfg <> [] /\
    time_Now w1 = (now, w2) /\
    x509_CreateCertificate (certTemplate cfg caCert serial now duration) caCert
      (Signer_Public key) caKey w2 = (Success der, w3) /\
    x509_ParseCertificate der = Success c /\
    s' = {| heap := heap s; world := w3;
            trace := trace s ++
                     [EvCreateCertificate (certTemplate cfg caCert serial now duration)] |}.
Proof.
  unfold NewSignedCert, call, emit, bind, ret. destruct s as [h w tr]; simpl.
  destruct (cryptorand_Int MaxInt64 w) as [[serial|e] w1] eqn:Hr; simpl; [|discriminate].
  destruct (String.length (cc_CommonName cfg) =? 0)%nat eqn:Hcn; [discriminate|].
  destruct (length (cc_Usages cfg) =? 0)%nat eqn:Hus; [discriminate|].
  destruct (time_Now w1) as [now w2] eqn:Hnow; simpl. rewrite ?Hnow; simpl.
  change {| Subject := _; DNSNames := _; IPAddresses := _; SerialNumber := serial;
            NotBefore := _; NotAfter := _; KeyUsage := _; ExtKeyUsage := _; Raw := _ |}
    with (certTemplate cfg caCert serial now duration).
  destruct (x509_CreateCertificate (certTemplate cfg caCert serial now duration)
              caCert (Signer_Public key) caKey w2) as [[der|e] w3] eqn:Hc;
    simpl; [|discriminate].
  intros H. injection H as Hp <-.
  exists serial, w1, now, w2, der, w3. repeat split; try done.
  - apply (cryptorand_Int_range _ _ _ _ Hr).
  - apply (cryptorand_Int_range _ _ _ _ Hr).
  - intros E. rewrite E in Hcn. discriminate.
  - intros E. rewrite E in Hus. discriminate.
Qed.

Lemma NewSignedCert_heap cfg key caCert caKey duration s r s' :
  NewSignedCert cfg key caCert caKey duration s = (r, s') ->
  heap s' = heap s /\ exists x, r = Ok x.
Proof.
  unfold NewSignedCert, call, emit, bind, ret. destruct s as [h w tr]; simpl.
  intros H. repeat case_match; simplify_eq; simpl in *; simplify_eq; eauto.
Qed.

Lemma newPrivateKey_spec s :
  exists r w,
    newPrivateKey s =
      (Ok r, {| heap := heap s; world := w; trace := trace s ++ [EvNewPrivateKey] |}) /\
    (forall k, r = Success k -> pkiutil_NewPrivateKey (world s) = (Success (SignerRSA k), w)).
Proof.
  unfold newPrivateKey, call, emit, bind, ret. destruct s as [h w tr]; simpl.
  destruct (pkiutil_NewPrivateKey w) as [[[k|k]|e] w1] eqn:Hk; simpl;
    eexists _, _; (split; [reflexivity|]); intros; simplify_eq; reflexivity.
Qed.


Lemma Valid_on_true_key k c ca dnsname duration w :
  fst (Valid_on k c ca dnsname duration w) = Ok true -> is_Some k.
Proof.
  unfold Valid_on, Valid. destruct k as [k|]; [eauto|].
  simpl. rewrite orb_true_r. simpl. discriminate.
Qed.

Lemma existingCA_spec n s ok k c s' :
  existingCA n s = (Ok (ok, k, c), s') ->
  heap s' = heap s /\
  ok = caUsable n (world s) /\
  (exists tr, trace s' = trace s ++ tr) /\
  (ok = true -> is_Some k /\ is_Some c /\ is_Some (cakey n) /\ is_Some (cacert n)).
Proof.
  unfold existingCA, caUsable.
  destruct (cacert n) as [ca|] eqn:Hca; simpl.
  - unfold bind at 1. unfold Printf at 1, emit. unfold bind at 1.
    rewrite Valid_frame. simpl.
    pose proof (Valid_on_true_key (cakey n) (Some ca) (Some ca) "" (5 * Hour * 24) (world s)) as Hk.
    destruct (fst (Valid_on (cakey n) (Some ca) (Some ca) "" (5 * Hour * 24) (world s)))
      as [[|]| |] eqn:HV; simpl; try discriminate.
    + unfold Printf, emit, bind, ret; simpl.
      destruct (keyutil_ParsePrivateKeyPEM (bytes (cakey n))) as [[rk|ok']|e];
        destruct (cert_ParseCertsPEM ca) as [[|c0 cs]|e']; simpl;
        intros H; simplify_eq; simpl; (split; [reflexivity|]); (split; [reflexivity|]);
        (split; [rewrite <- !app_assoc; eexists; reflexivity|]).
      all: try (intros; discriminate).
      intros _. repeat split; eauto.
    + unfold ret. intros H; simplify_eq. simpl. repeat split; try done.
      rewrite <- !app_assoc; eexists; reflexivity.
  - unfold ret. intros H; simplify_eq. simpl. repeat split; try done.
    exists []. rewrite app_nil_r. reflexivity.
Qed.

Lemma list_insert_twice (h : list info) (i : nat) (x y : info) :
  <[i := y]> (<[i := x]> h) = <[i := y]> h.
Proof. apply list_insert_insert_eq. Qed.

Lemma generateCA_spec new n cfg s n' k c s' :
  generateCA new n cfg s = (Ok (Success (n', k, c)), s') ->
  n' = {| cert := cert n; key := key n;
          cacert := Some (pkiutil_EncodeCertPEM c);
          cakey := Some (encodePrivateKeyPEM k) |} /\
  heap s' = <[new := n']> (heap s) /\
  exists w1,
    pkiutil_NewPrivateKey (world s) = (Success (SignerRSA k), w1) /\
    cert_NewSelfSignedCACert (caConfig cfg) (SignerRSA k) w1 = (Success c, world s') /\
    trace s' = trace s ++ [EvPrintf "generate cacert"; EvNewPrivateKey;
                           EvNewSelfSignedCACert ("webhook-certmgmt-ca:" +:+ CommonName cfg)].
Proof.
  unfold generateCA. unfold bind at 1. unfold Printf at 1, emit at 1.
  unfold bind at 1.
  destruct (newPrivateKey_spec
              {| heap := heap s; world := world s;
                 trace := trace s ++ [EvPrintf "generate cacert"] |})
    as (r & w1 & Hrun & Hkey).
  rewrite Hrun. simpl in *. destruct r as [k0|e]; [|unfold ret; discriminate].
  specialize (Hkey k0 eq_refl).
  unfold store, emit, call, bind, ret. simpl.
  destruct (cert_NewSelfSignedCACert (caConfig cfg) (SignerRSA k0) w1)
    as [[c0|e] w2] eqn:Hca; simpl; [|discriminate].
  intros H. simplify_eq. simpl. split; [reflexivity|]. split.
  - apply list_insert_twice.
  - exists w1. rewrite <- !app_assoc. simpl. done.
Qed.

Lemma issueServer_spec new n cfg caKey caCert s r s' :
  issueServer new n cfg caKey caCert s = (Ok (Success r), s') ->
  r = Some new /\
  exists newKey newCert serial now,
    heap s' = <[new := {| cert := Some (pkiutil_EncodeCertPEM newCert);
                          key := Some (encodePrivateKeyPEM newKey);
                          cacert := cacert n; cakey := cakey n |}]> (heap s) /\
    0 <= serial < MaxInt64 /\
    trace s' = trace s ++
               [EvPrintf "generate key"; EvNewPrivateKey; EvPrintf "generate certmgmt";
                EvCreateCertificate
                  (certTemplate (serverConfig cfg) caCert serial now (Validity cfg))].
Proof.
  unfold issueServer. unfold bind at 1. unfold Printf at 1, emit at 1.
  unfold bind at 1.
  destruct (newPrivateKey_spec
              {| heap := heap s; world := world s;
                 trace := trace s ++ [EvPrintf "generate key"] |})
    as (r0 & w1 & Hrun & Hkey).
  rewrite Hrun. simpl in *. destruct r0 as [k0|e]; [|unfold ret; discriminate].
  unfold bind at 1. unfold store at 1. unfold bind at 1. unfold Printf at 1, emit at 1.
  unfold bind at 1. simpl.
  match goal with
  | |- context [NewSignedCert ?a ?b ?c ?d ?e ?st] =>
      destruct (NewSignedCert a b c d e st) as [o s2] eqn:HN
  end.
  destruct (NewSignedCert_heap _ _ _ _ _ _ _ _ HN) as [Hh [x ->]].
  destruct x as [newCert|e]; [|unfold ret; discriminate].
  apply NewSignedCert_spec in HN.
  destruct HN as (serial & w1' & now & w2 & der & w3 & _ & Hser & _ & _ & _ & _ & _ & ->).
  unfold store, bind, ret. simpl. intros H. simplify_eq. split; [reflexivity|].
  exists k0, newCert, serial, now. simpl. split; [apply list_insert_twice|].
  split; [exact Hser|]. rewrite <- !app_assoc. reflexivity.
Qed.


Lemma IsValid_on_frame p b dnsname duration s :
  heap s !! p = Some b ->
  IsValid (Some p) dnsname duration s =
  (fst (IsValid_on b dnsname duration (world s)),
   {| heap := heap s;
      world := world (snd (IsValid_on b dnsname duration (world s)));
      trace := trace s ++ trace (snd (IsValid_on b dnsname duration (world s))) |}).
Proof.
  intros Hb. unfold IsValid_on.
  rewrite (IsValid_frame p b) by exact Hb.
  rewrite (IsValid_frame O b) by reflexivity.
  destruct (cert b), (key b), (cacert b); simpl; try reflexivity.
  rewrite Valid_frame.
  rewrite (Valid_frame _ _ _ _ _ {| heap := [b]; world := world s; trace := [] |}).
  simpl. reflexivity.
Qed.

(** [UpdateCertificate] from line 108 on. *)
Lemma UpdateCertificate_from_108 old cfg s b dnsname names :
  workingCopy old (heap s) = Some b ->
  DnsNames cfg = dnsname :: names ->
  UpdateCertificate old cfg s =
  (let new := length (heap s) in
   let* valid := IsValid (Some new) dnsname (Rest cfg) in
   if negb valid then
     let* _ := Printf "not valid" in
     let* n := load new in
     let* ca := existingCA n in
     let '(ok, caKey, caCert) := ca in
     let* r :=
       if isNil (cacert n) || negb ok then generateCA new n cfg
       else
         match caKey, caCert with
         | Some caKey, Some caCert => ret (Success (n, caKey, caCert))
         | _, _ => panic "invalid memory address or nil pointer dereference"
         end in
     match r with
     | Failure err => ret (Failure err)
     | Success (n, caKey, caCert) => issueServer new n cfg caKey caCert
     end
   else ret (Success old))
    {| heap := heap s ++ [b]; world := world s; trace := trace s |}.
Proof.
  intros Hb Hdns. unfold UpdateCertificate.
  unfold bind at 1. unfold alloc at 1. unfold bind at 1.
  destruct old as [p|]; simpl in Hb.
  - unfold fields, load, store, bind at 1. simpl.
    rewrite (lookup_app_l_Some _ _ _ _ Hb). simpl.
    rewrite info_eta, insert_fresh, Hdns. reflexivity.
  - simplify_eq. unfold ret at 1. simpl. rewrite Hdns. reflexivity.
Qed.

Arguments IsValid_on : simpl never.
Arguments Valid_on : simpl never.
Arguments existingCA : simpl never.
Arguments generateCA : simpl never.
Arguments issueServer : simpl never.
Arguments caUsable : simpl never.

(** What a successful issuing run leaves behind. *)
Lemma UpdateCertificate_issue old cfg s b dnsname names r s' :
  workingCopy old (heap s) = Some b ->
  DnsNames cfg = dnsname :: names ->
  fst (IsValid_on b dnsname (Rest cfg) (world s)) = Ok false ->
  UpdateCertificate old cfg s = (Ok (Success r), s') ->
  let w1 := world (snd (IsValid_on b dnsname (Rest cfg) (world s))) in
  r = Some (length (heap s)) /\
  exists n' newKey newCert caCert serial now pre,
    heap s' = heap s ++ [n'] /\
    key n' = Some (encodePrivateKeyPEM newKey) /\
    cert n' = Some (pkiutil_EncodeCertPEM newCert) /\
    0 <= serial < MaxInt64 /\
    trace s' = trace s ++ pre ++
               [EvPrintf "generate key"; EvNewPrivateKey; EvPrintf "generate certmgmt";
                EvCreateCertificate
                  (certTemplate (serverConfig cfg) caCert serial now (Validity cfg))] /\
    if caUsable b w1 then
      cacert n' = cacert b /\ cakey n' = cakey b /\
      is_Some (cacert b) /\ is_Some (cakey b)
    else
      exists caKey wx wa wb pre',
        cakey n' = Some (encodePrivateKeyPEM caKey) /\
        cacert n' = Some (pkiutil_EncodeCertPEM caCert) /\
        pkiutil_NewPrivateKey wx = (Success (SignerRSA caKey), wa) /\
        cert_NewSelfSignedCACert (caConfig cfg) (SignerRSA caKey) wa = (Success caCert, wb) /\
        pre = pre' ++ [EvPrintf "generate cacert"; EvNewPrivateKey;
                       EvNewSelfSignedCACert ("webhook-certmgmt-ca:" +:+ CommonName cfg)].
Proof.
  intros Hb Hdns Hinvalid Hrun w1.
  rewrite (UpdateCertificate_from_108 _ _ _ _ _ _ Hb Hdns) in Hrun.
  cbv zeta in Hrun. unfold bind at 1 in Hrun.
  rewrite (IsValid_on_frame _ b) in Hrun by apply lookup_fresh.
  simpl in Hrun. rewrite Hinvalid in Hrun. simpl in Hrun.
  fold w1 in Hrun.
  unfold bind at 1 in Hrun. unfold Printf at 1, emit at 1 in Hrun.
  unfold bind at 1 in Hrun. unfold load at 1 in Hrun. simpl in Hrun.
  rewrite lookup_fresh in Hrun.
  unfold bind at 1 in Hrun.
  match type of Hrun with
  | context [existingCA b ?st] => destruct (existingCA b st) as [o sx] eqn:Hex
  end.
  destruct o as [[[ok k] c]| |]; try discriminate.
  apply existingCA_spec in Hex. simpl in Hex.
  destruct Hex as (Hhx & Hok & [trx Htrx] & Hsome).
  unfold bind at 1 in Hrun.
  destruct (isNil (cacert b) || negb ok) eqn:Hgen.
  - (* a new CA *)
    destruct (generateCA (length (heap s)) b cfg sx) as [o sg] eqn:Hg.
    destruct o as [[[[ng kg] cg]|e]| |]; try discriminate.
    apply generateCA_spec in Hg.
    destruct Hg as (Hng & Hhg & wa & Hka & Hca & Htg).
    apply issueServer_spec in Hrun.
    destruct Hrun as (-> & newKey & newCert & serial & now & Hh' & Hser & Htr').
    split; [reflexivity|].
    eexists _, newKey, newCert, cg, serial, now,
      (trace (IsValid_on b dnsname (Rest cfg) (world s)).2 ++ [EvPrintf "not valid"] ++ trx ++
       [EvPrintf "generate cacert"; EvNewPrivateKey;
        EvNewSelfSignedCACert ("webhook-certmgmt-ca:" +:+ CommonName cfg)]).
    split. { rewrite Hh', Hhg, Hhx, list_insert_twice. apply insert_fresh. }
    split; [reflexivity|]. split; [reflexivity|]. split; [exact Hser|].
    split. { rewrite Htr', Htg, Htrx. rewrite <- !app_assoc. reflexivity. }
    assert (Hno : caUsable b w1 = false).
    { rewrite <- Hok. destruct ok; [|reflexivity].
      rewrite orb_false_r in Hgen. unfold caUsable in Hok.
      rewrite Hgen in Hok. discriminate. }
    rewrite Hno. subst ng.
    exists kg, (world sx), wa, (world sg),
      (trace (IsValid_on b dnsname (Rest cfg) (world s)).2 ++ [EvPrintf "not valid"] ++ trx).
    split; [reflexivity|]. split; [reflexivity|]. split; [exact Hka|].
    split; [exact Hca|]. rewrite <- !app_assoc. reflexivity.
  - (* the CA is kept *)
    apply orb_false_iff in Hgen. destruct Hgen as [Hnil Hneg].
    destruct ok; [|discriminate].
    destruct (Hsome eq_refl) as ([k0 ->] & [c0 ->] & Hck & Hcc).
    unfold ret at 1 in Hrun.
    apply issueServer_spec in Hrun.
    destruct Hrun as (-> & newKey & newCert & serial & now & Hh' & Hser & Htr').
    split; [reflexivity|].
    eexists _, newKey, newCert, c0, serial, now,
      (trace (IsValid_on b dnsname (Rest cfg) (world s)).2 ++ [EvPrintf "not valid"] ++ trx).
    split. { rewrite Hh', Hhx. apply insert_fresh. }
    split; [reflexivity|]. split; [reflexivity|]. split; [exact Hser|].
    split. { rewrite Htr', Htrx. rewrite <- !app_assoc. reflexivity. }
    rewrite <- Hok. simpl. done.
Qed.



(** ** The engine *)

Lemma IsValid_on_empty dnsname duration w :
  fst (IsValid_on {| cert := None; key := None; cacert := None; cakey := None |}
         dnsname duration w) = Ok false.
Proof. reflexivity. Qed.

Lemma UpdateCertificate_names old cfg s r s' :
  is_Some (workingCopy old (heap s)) ->
  UpdateCertificate old cfg s = (Ok r, s') -> DnsNames cfg <> [].
Proof.
  intros [b Hb] H E. revert H. unfold UpdateCertificate.
  unfold bind at 1. unfold alloc at 1. unfold bind at 1.
  destruct old as [p|]; simpl in Hb.
  - unfold fields, load, store, bind at 1. simpl.
    rewrite (lookup_app_l_Some _ _ _ _ Hb). simpl. rewrite E. discriminate.
  - unfold ret at 1. simpl. rewrite E. discriminate.
Qed.

(** A run of [UpdateCertificate] in which line 108 finds the bundle
    valid returns its argument. *)
Lemma UpdateCertificate_keep old cfg s b dnsname names :
  workingCopy old (heap s) = Some b ->
  DnsNames cfg = dnsname :: names ->
  fst (IsValid_on b dnsname (Rest cfg) (world s)) = Ok true ->
  exists s', UpdateCertificate old cfg s = (Ok (Success old), s') /\
             heap s' = heap s ++ [b].
Proof.
  intros Hb Hdns Hvalid.
  rewrite (UpdateCertificate_from_108 _ _ _ _ _ _ Hb Hdns).
  cbv zeta. unfold bind at 1.
  rewrite (IsValid_on_frame _ b) by apply lookup_fresh.
  simpl. rewrite Hvalid. simpl. unfold ret. eexists. split; reflexivity.
Qed.

(** C4 (as the code has it).  Whenever [UpdateCertificate(nil, cfg)]
    returns without error, it returns a newly allocated bundle, so not
    its nil input (a change), whose four fields are all set.  Fed back
    at once, that bundle is returned as it is (no change) if it passes
    the check of line 108 at that moment, and is replaced by another
    new bundle if it does not. *)
Theorem C4_issue_from_nil (cfg : Config) (s s' : Sys) (r : CertificateInfo) :
  UpdateCertificate None cfg s = (Ok (Success r), s') ->
  exists (p : ptr) (n : info) (dnsname : string) (names : list string),
    r = Some p /\ r <> None /\
    DnsNames cfg = dnsname :: names /\
    heap s' !! p = Some n /\
    is_Some (cert n) /\ is_Some (key n) /\ is_Some (cacert n) /\ is_Some (cakey n) /\
    (fst (IsValid_on n dnsname (Rest cfg) (world s')) = Ok true ->
     exists s'', UpdateCertificate r cfg s' = (Ok (Success r), s'') /\
                 heap s'' !! p = Some n) /\
    (fst (IsValid_on n dnsname (Rest cfg) (world s')) = Ok false ->
     forall r2 s'', UpdateCertificate r cfg s' = (Ok (Success r2), s'') -> r2 <> r).
Proof.
  intros Hrun.
  pose proof (UpdateCertificate_names None cfg s _ _ ltac:(simpl; eauto) Hrun) as Hne.
  destruct (DnsNames cfg) as [|dnsname names] eqn:Hdns; [done|].
  destruct (UpdateCertificate_issue None cfg s _ dnsname names r s'
              eq_refl Hdns (IsValid_on_empty _ _ _) Hrun)
    as (-> & n & newKey & newCert & caCert & serial & now & pre &
        Hh & Hkey & Hcert & _ & _ & Hca).
  unfold caUsable in Hca. simpl in Hca.
  destruct Hca as (caKey & wx & wa & wb & pre' & Hcakey & Hcacert & _).
  assert (Hn : heap s' !! length (heap s) = Some n).
  { rewrite Hh. apply lookup_fresh. }
  exists (length (heap s)), n, dnsname, names.
  split; [reflexivity|]. split; [discriminate|]. split; [reflexivity|].
  split; [exact Hn|].
  rewrite Hkey, Hcert, Hcakey, Hcacert.
  do 4 (split; [eexists; reflexivity|]). split.
  - intros Hvalid.
    destruct (UpdateCertificate_keep (Some (length (heap s))) cfg s' n dnsname names
                Hn Hdns Hvalid) as (s'' & Hrun2 & Hh2).
    exists s''. split; [exact Hrun2|].
    rewrite Hh2. apply lookup_app_l_Some. exact Hn.
  - intros Hinvalid r2 s'' Hrun2.
    destruct (UpdateCertificate_issue (Some (length (heap s))) cfg s' n dnsname names
                r2 s'' Hn Hdns Hinvalid Hrun2) as (-> & _).
    rewrite Hh. rewrite length_app. simpl. intros [= E]. lia.
Qed.

(** C5 (as the code has it).  Whenever [UpdateCertificate]
    regenerates the server certificate (line 108 finds the bundle not
    valid) and succeeds: if the CA certificate is present, valid
    against itself with the 5-day lookahead, its key parses as an RSA
    key and the CA certificate PEM parses ([caUsable]), the new
    bundle's CA certificate and CA key are the input's bytes;
    otherwise both CA fields hold a freshly generated key and a
    self-signed CA certificate issued for it, and that CA was issued
    before the server certificate, which is signed under it. *)
Theorem C5_ca_kept_or_reissued
    (old : CertificateInfo) (cfg : Config) (s s' : Sys) (b : info)
    (dnsname : string) (names : list string) (r : CertificateInfo) :
  workingCopy old (heap s) = Some b ->
  DnsNames cfg = dnsname :: names ->
  fst (IsValid_on b dnsname (Rest cfg) (world s)) = Ok false ->
  UpdateCertificate old cfg s = (Ok (Success r), s') ->
  exists (n : info) (caCert : Cert) (serial : Z) (now : Time) (pre : list Event),
    r = Some (length (heap s)) /\
    heap s' !! length (heap s) = Some n /\
    trace s' = trace s ++ pre ++
               [EvPrintf "generate key"; EvNewPrivateKey; EvPrintf "generate certmgmt";
                EvCreateCertificate
                  (certTemplate (serverConfig cfg) caCert serial now (Validity cfg))] /\
    if caUsable b (world (snd (IsValid_on b dnsname (Rest cfg) (world s)))) then
      cacert n = cacert b /\ cakey n = cakey b
    else
      exists (caKey : RSAPrivateKey) (wx wa wb : World) (pre' : list Event),
        cakey n = Some (encodePrivateKeyPEM caKey) /\
        cacert n = Some (pkiutil_EncodeCertPEM caCert) /\
        pkiutil_NewPrivateKey wx = (Success (SignerRSA caKey), wa) /\
        cert_NewSelfSignedCACert (caConfig cfg) (SignerRSA caKey) wa = (Success caCert, wb) /\
        pre = pre' ++ [EvPrintf "generate cacert"; EvNewPrivateKey;
                       EvNewSelfSignedCACert ("webhook-certmgmt-ca:" +:+ CommonName cfg)].
Proof.
  intros Hb Hdns Hinvalid Hrun.
  destruct (UpdateCertificate_issue old cfg s b dnsname names r s' Hb Hdns Hinvalid Hrun)
    as (-> & n & newKey & newCert & caCert & serial & now & pre &
        Hh & _ & _ & _ & Htr & Hca).
  exists n, caCert, serial, now, pre.
  split; [reflexivity|].
  split; [rewrite Hh; apply lookup_fresh|].
  split; [exact Htr|].
  destruct (caUsable b _); [|exact Hca].
  destruct Hca as (? & ? & _). done.
Qed.

(** C6 (as the code has it).  A server certificate that
    [NewSignedCert] returns, called as [UpdateCertificate] calls it, is
    the parse of the DER that [x509.CreateCertificate] made, with the
    CA certificate and key, from a template whose serial number is the
    number drawn from the entropy source, at least 0 and below
    2^63 - 1, whose NotBefore is the CA certificate's, whose NotAfter is
    the clock reading at issuance plus the configured validity, whose
    key usage is key encipherment and digital signature and whose
    extended key usage is server authentication. *)
Theorem C6_server_certificate_template
    (cfg : Config) (newKey caKey : RSAPrivateKey) (caCert c : Cert) (s s' : Sys) :
  NewSignedCert (serverConfig cfg) (SignerRSA newKey) caCert (SignerRSA caKey)
    (Validity cfg) s = (Ok (Success c), s') ->
  exists (serial : Z) (now : Time) (w1 w2 w3 : World) (der : list byte) (tmpl : Cert),
    cryptorand_Int MaxInt64 (world s) = (Success serial, w1) /\
    time_Now w1 = (now, w2) /\
    x509_CreateCertificate tmpl caCert (Signer_Public (SignerRSA newKey))
      (SignerRSA caKey) w2 = (Success der, w3) /\
    x509_ParseCertificate der = Success c /\
    trace s' = trace s ++ [EvCreateCertificate tmpl] /\
    SerialNumber tmpl = serial /\ 0 <= serial < 2 ^ 63 - 1 /\
    NotBefore tmpl = NotBefore caCert /\
    NotAfter tmpl = now + Validity cfg /\
    KeyUsage tmpl = Z.lor KeyUsageKeyEncipherment KeyUsageDigitalSignature /\
    ExtKeyUsage tmpl = [ExtKeyUsageServerAuth] /\
    DNSNames tmpl = DnsNames cfg /\
    Name_CommonName (Subject tmpl) = CommonName cfg.
Proof.
  intros H. apply NewSignedCert_spec in H.
  destruct H as (serial & w1 & now & w2 & der & w3 & Hr & Hser & _ & _ & Hnow & Hc & Hp & ->).
  exists serial, now, w1, w2, w3, der,
    (certTemplate (serverConfig cfg) caCert serial now (Validity cfg)).
  repeat (split; [done|]). done.
Qed.

(** ** The watchers *)

Arguments UpdateCertificate : simpl never.

(** C2.  A refresh that does not succeed leaves the watcher as it was:
    whenever [AccessSource.ReadCertificate] returns an error (from the
    store's Get, from [UpdateCertificate], from the store's Set or from
    parsing the key pair), or [CertWatcher.ReadCertificate] returns one
    (from loading the key pair), the receiver, and so its current
    certificate, is what it was before the call, and [GetCertificate]
    still hands out that certificate. *)
Theorem C2_failed_refresh_keeps_certificate :
  (forall (st st' : St AccessSource) (err : error),
      AccessSource_ReadCertificate st = (Ok (Some err), st') ->
      this st' = this st /\
      fst (AccessSource_GetCertificate st') = Ok (currentCert (this st), None)) /\
  (forall (st st' : St CertWatcher) (err : error),
      CertWatcher_ReadCertificate st = (Ok (Some err), st') ->
      this st' = this st /\
      fst (CertWatcher_GetCertificate st') = Ok (cw_currentCert (this st), None)).
Proof.
  split.
  - intros st st' err H.
    assert (Ht : this st' = this st).
    { revert H. unfold AccessSource_ReadCertificate, AccessSource_setCurrentCert,
        liftSys, getThis, setThis, callStore, emit, fields, load, bind, ret.
      destruct st as [t s]; simpl.
      intros H. repeat case_match; simplify_eq; simpl in *; simplify_eq; try reflexivity. }
    split; [exact Ht|].
    unfold AccessSource_GetCertificate, liftSys, getThis, emit, bind, ret. simpl.
    rewrite Ht. reflexivity.
  - intros st st' err H.
    assert (Ht : this st' = this st).
    { revert H. unfold CertWatcher_ReadCertificate, CertWatcher_setCurrentCert,
        liftSys, getThis, setThis, call, emit, bind, ret.
      destruct st as [t s]; simpl.
      intros H. repeat case_match; simplify_eq; simpl in *; simplify_eq; try reflexivity. }
    split; [exact Ht|].
    unfold CertWatcher_GetCertificate, liftSys, getThis, emit, bind, ret. simpl.
    rewrite Ht. reflexivity.
Qed.


(** C3 (as the code has it).  [GetCertificate], of either watcher and
    whatever client hello it is given, returns the current certificate
    of the receiver and a nil error, always: when no certificate has
    been loaded it returns nil and a nil error.  It takes and releases
    the lock and changes nothing else. *)
Theorem C3_GetCertificate_returns_current_and_nil_error :
  (forall st : St AccessSource,
      AccessSource_GetCertificate st =
      (Ok (currentCert (this st), None),
       {| this := this st; sys := after (sys st) [EvLock; EvUnlock] |})) /\
  (forall st : St CertWatcher,
      CertWatcher_GetCertificate st =
      (Ok (cw_currentCert (this st), None),
       {| this := this st; sys := after (sys st) [EvLock; EvUnlock] |})).
Proof.
  split; intros [t s];
    unfold AccessSource_GetCertificate, CertWatcher_GetCertificate,
      liftSys, getThis, emit, bind, ret, after; simpl;
    rewrite <- app_assoc; reflexivity.
Qed.

(** C7.  In a refresh in which the store's Get succeeds with [got]
    and [UpdateCertificate] succeeds with [new]:
    if [new] is [got] itself and a certificate is loaded,
    [ReadCertificate] returns nil in the very state [UpdateCertificate]
    left: no Set, no key-pair parse, no lock, the receiver untouched;
    if [new] differs from [got] or no certificate is loaded, the next
    thing it does is the store's Set of [new].  So the comparison
    [info != new] together with [currentCert == nil] decides. *)
Theorem C7_no_change_no_write
    (st : St AccessSource) (got new : CertificateInfo)
    (h1 : list info) (w1 : World) (s2 : Sys) :
  access_Get (access (this st)) (heap (sys st)) (world (sys st)) =
    (Success got, (h1, w1)) ->
  UpdateCertificate got (config (this st))
    {| heap := h1; world := w1; trace := trace (sys st) ++ [EvGet] |} =
    (Ok (Success new), s2) ->
  (new = got /\ is_Some (currentCert (this st)) ->
   AccessSource_ReadCertificate st = (Ok None, {| this := this st; sys := s2 |})) /\
  (new <> got \/ currentCert (this st) = None ->
   exists r st' post,
     AccessSource_ReadCertificate st = (r, st') /\
     trace (sys st') = trace s2 ++ EvSet new :: post).
Proof.
  intros HGet HUpd. destruct st as [t s]. simpl in *.
  split.
  - intros [-> [c Hc]].
    unfold AccessSource_ReadCertificate.
    unfold liftSys, getThis, callStore, emit, bind at 1 2 3. simpl.
    rewrite HGet. simpl. unfold bind at 1. simpl. rewrite HUpd. simpl.
    rewrite bool_decide_eq_true_2 by reflexivity. rewrite Hc. reflexivity.
  - intros Hchg.
    unfold AccessSource_ReadCertificate.
    unfold liftSys, getThis, callStore, emit, bind at 1 2 3. simpl.
    rewrite HGet. simpl. unfold bind at 1. simpl. rewrite HUpd. simpl.
    replace (negb (bool_decide (got = new)) || isNil (currentCert t)) with true.
    2:{ destruct Hchg as [Hne | ->]; [|symmetry; apply orb_true_r].
        rewrite bool_decide_eq_false_2 by congruence. reflexivity. }
    unfold AccessSource_setCurrentCert, fields, load, setThis, bind, ret. simpl.
    destruct (access_Set (access t) new (heap s2) (world s2)) as [e [h3 w3]]; simpl.
    destruct e as [e|]; simpl.
    { eexists _, _, []. split; reflexivity. }
    destruct new as [p|]; simpl.
    2:{ eexists _, _, []. split; reflexivity. }
    destruct (h3 !! p) as [f|]; simpl.
    2:{ eexists _, _, []. split; reflexivity. }
    destruct (tls_X509KeyPair (bytes (cert f)) (bytes (key f))); simpl.
    + eexists _, _, [EvLock; EvUnlock]. split; [reflexivity|]. simpl.
      rewrite <- !app_assoc. reflexivity.
    + eexists _, _, []. split; reflexivity.
Qed.


Lemma nextBackoff_floor backoff :
  0 <= backoff -> 3 * backoff < 2 ^ 63 -> nextBackoff backoff = 3 * backoff / 2.
Proof.
  intros H0 H1. unfold nextBackoff, ddiv, dmul, wrap64.
  assert (E : forall z, 0 <= z < 2 ^ 63 -> (z + 2 ^ 63) mod 2 ^ 64 - 2 ^ 63 = z).
  { intros z Hz. rewrite Z.mod_small by lia. lia. }
  rewrite (E (backoff * 3)) by lia.
  rewrite Z.quot_div_nonneg by lia.
  replace (backoff * 3) with (3 * backoff) by lia.
  apply E. split; [apply Z.div_pos; lia|].
  apply Z.div_lt_upper_bound; lia.
Qed.

(** C8 (as the code has it).  The refresh timer is first armed with
    [min(Rest, 10 minutes)] and the back-off starts at one second.  At a
    tick, a failed refresh re-arms the timer with the current back-off
    and replaces the back-off by [backoff * 3 / 2] in 64-bit integer
    nanoseconds (3/2 of it rounded down, while three times it fits); a
    successful refresh re-arms the timer with the normal interval and
    resets the back-off to one second.  The delays after the first ten
    failures in a row are exactly 1s, 1.5s, 2.25s, ..., 1.5^9 s. *)
Theorem C8_refresh_schedule :
  (forall (ws : list Wakeup) (st : St AccessSource),
      let d := Z.min (Rest (config (this st))) (10 * Minute) in
      AccessSource_watch ws st =
      AccessSource_loop ws d (1 * Second)
        {| this := this st; sys := after (sys st) [EvNewTimer d] |}) /\
  (forall (ws : list Wakeup) (d backoff : Duration) (st st1 : St AccessSource)
          (err : option error),
      AccessSource_ReadCertificate
        {| this := this st;
           sys := after (sys st) [EvLog "reconciling certificate %s"] |} =
        (Ok err, st1) ->
      AccessSource_loop (WTick :: ws) d backoff st =
      match err with
      | Some _ =>
          AccessSource_loop ws d (nextBackoff backoff)
            {| this := this st1;
               sys := after (sys st1)
                        [EvLog "cannot reconcile certificate %s: %s (backoff=%s)";
                         EvTimerReset backoff] |}
      | None =>
          AccessSource_loop ws d (1 * Second)
            {| this := this st1; sys := after (sys st1) [EvTimerReset d] |}
      end) /\
  (forall backoff : Duration,
      0 <= backoff -> 3 * backoff < 2 ^ 63 -> nextBackoff backoff = 3 * backoff / 2) /\
  (forall k : nat, (k <= 9)%nat -> 2 ^ Z.of_nat k * backoffAfter k = 3 ^ Z.of_nat k * Second) /\
  backoffAfter 0 = 1000000000 /\
  backoffAfter 1 = 1500000000 /\
  backoffAfter 2 = 2250000000.
Proof.
  split; [|split; [|split; [|split]]].
  - intros ws [t s]. simpl.
    unfold AccessSource_watch, liftSys, getThis, emit, bind, after. simpl.
    replace (if 10 * Minute <? Rest (config t) then 10 * Minute else Rest (config t))
      with (Z.min (Rest (config t)) (10 * Minute)).
    2:{ destruct (10 * Minute <? Rest (config t)) eqn:E.
        - apply Z.ltb_lt in E. lia.
        - apply Z.ltb_ge in E. lia. }
    reflexivity.
  - intros ws d backoff [t s] st1 err H. simpl in H.
    cbn [AccessSource_loop]. unfold bind at 1. unfold liftSys at 1, emit at 1. simpl.
    unfold bind at 1. unfold after in H. rewrite H.
    destruct err as [e|].
    + unfold liftSys, emit, bind, ret, after, nextBackoff. destruct st1 as [t1 s1]. simpl.
      rewrite <- app_assoc. reflexivity.
    + unfold liftSys, emit, bind, ret, after. destruct st1 as [t1 s1]. simpl.
      reflexivity.
  - apply nextBackoff_floor.
  - intros k Hk.
    do 10 (destruct k as [|k]; [vm_compute; reflexivity|]). lia.
  - repeat split; vm_compute; reflexivity.
Qed.

(** C9 (what the code does).  When the initial load, the creation of
    the watcher and both [Add] calls succeed, [file.New] starts the
    event loop and then waits in [start] for the stop channel: with a
    context that is never cancelled it does not return; with one that
    is cancelled it returns only after the cancellation, having closed
    the watcher. *)
Theorem C9_New_waits_for_cancellation
    (certPath keyPath : string) (s : Sys) (c : TLSCertificate) (w : Watcher)
    (w1 w2 w3 w4 w5 : World) (e : option error) :
  tls_LoadX509KeyPair certPath keyPath (world s) = (Success c, w1) ->
  fsnotify_NewWatcher w1 = (Success w, w2) ->
  Watcher_Add w certPath w2 = (None, w3) ->
  Watcher_Add w keyPath w3 = (None, w4) ->
  Watcher_Close w w4 = (e, w5) ->
  let started_up :=
    [EvLoadX509KeyPair certPath keyPath; EvLock; EvUnlock;
     EvLog "Updated current TLS certiface"; EvNewWatcher;
     EvWatcherAdd certPath; EvWatcherAdd keyPath;
     EvGo "watch"; EvLog "Starting certificate watcher"] in
  file_New NeverClosed certPath keyPath s =
    (Blocked, {| heap := heap s; world := w4; trace := trace s ++ started_up |}) /\
  file_New EventuallyClosed certPath keyPath s =
    (Ok (Success {| cw_currentCert := Some c; watcher := Some w;
                    certPath := certPath; keyPath := keyPath |}),
     {| heap := heap s; world := w5;
        trace := trace s ++ started_up ++ [EvRecvStop; EvWatcherClose] |}).
Proof.
  intros HL HW HA1 HA2 HC. destruct s as [h w0 tr]. simpl in *.
  split.
  - unfold file_New, CertWatcher_ReadCertificate, CertWatcher_setCurrentCert,
      CertWatcher_setWatcher, CertWatcher_start, CertWatcher_addAll, CertWatcher_Add,
      recv, liftSys, getThis, setThis, call, emit, bind, ret. simpl.
    rewrite HL. simpl. rewrite HW. simpl. rewrite HA1. simpl. rewrite HA2. simpl.
    rewrite <- !app_assoc. reflexivity.
  - unfold file_New, CertWatcher_ReadCertificate, CertWatcher_setCurrentCert,
      CertWatcher_setWatcher, CertWatcher_start, CertWatcher_addAll, CertWatcher_Add,
      recv, liftSys, getThis, setThis, call, emit, bind, ret. simpl.
    rewrite HL. simpl. rewrite HW. simpl. rewrite HA1. simpl. rewrite HA2. simpl.
    rewrite HC. simpl. rewrite <- !app_assoc. reflexivity.
Qed.

(** C10.  When, in [file.New], the initial load and the creation of the
    watcher succeed but [Add] fails for the certificate path, or
    succeeds for it and fails for the key path, [New] discards the
    error: it returns the watcher and a nil error, whether or not the
    context is ever cancelled, without having started the event loop;
    notifications that arrive afterwards cause no reload (the state
    stays as it is). *)
Theorem C10_failed_watch_is_ignored
    (done : Chan) (certPath keyPath : string) (s : Sys) (c : TLSCertificate)
    (w : Watcher) (w1 w2 w3 : World) (adds : list Event) :
  started "watch" (trace s) = false ->
  tls_LoadX509KeyPair certPath keyPath (world s) = (Success c, w1) ->
  fsnotify_NewWatcher w1 = (Success w, w2) ->
  ((exists err, Watcher_Add w certPath w2 = (Some err, w3)) /\
   adds = [EvWatcherAdd certPath]) \/
  ((exists err w', Watcher_Add w certPath w2 = (None, w') /\
                   Watcher_Add w keyPath w' = (Some err, w3)) /\
   adds = [EvWatcherAdd certPath; EvWatcherAdd keyPath]) ->
  let cw := {| cw_currentCert := Some c; watcher := Some w;
               certPath := certPath; keyPath := keyPath |} in
  let s' := {| heap := heap s; world := w3;
               trace := trace s ++
                        [EvLoadX509KeyPair certPath keyPath; EvLock; EvUnlock;
                         EvLog "Updated current TLS certiface"; EvNewWatcher] ++ adds |} in
  file_New done certPath keyPath s = (Ok (Success cw), s') /\
  started "watch" (trace s') = false /\
  forall ns : list Notification,
    CertWatcher_deliver ns {| this := cw; sys := s' |} =
    (Ok tt, {| this := cw; sys := s' |}).
Proof.
  intros Hnot HL HW HA cw s'. destruct s as [h w0 tr]. simpl in *.
  assert (Hs : started "watch" (trace s') = false).
  { unfold s', started. simpl. rewrite existsb_app.
    unfold started in Hnot. rewrite Hnot. simpl.
    destruct HA as [[_ ->] | [_ ->]]; reflexivity. }
  split; [|split; [exact Hs|]].
  - unfold file_New, CertWatcher_ReadCertificate, CertWatcher_setCurrentCert,
      CertWatcher_setWatcher, CertWatcher_start, CertWatcher_addAll, CertWatcher_Add,
      recv, liftSys, getThis, setThis, call, emit, bind, ret. simpl.
    rewrite HL. simpl. rewrite HW. simpl.
    destruct HA as [[[err HA1] ->] | [(err & w' & HA1 & HA2) ->]].
    + rewrite HA1. simpl. unfold cw, s'. rewrite <- !app_assoc. reflexivity.
    + rewrite HA1. simpl. rewrite HA2. simpl. unfold cw, s'.
      rewrite <- !app_assoc. reflexivity.
  - intros ns. unfold CertWatcher_deliver. simpl.
    change (trace s') with (trace s') in Hs.
    unfold s' in Hs at 1. simpl in Hs. rewrite Hs. reflexivity.
Qed.

End Properties.

(** * Further properties *)

(** * Further properties of the engine *)
Section EngineProperties.
Context `{L : Lib}.

Lemma engineStep_refl new s : engineStep new s s.
Proof.
  split; [reflexivity|]. split; [reflexivity|].
  exists []. rewrite app_nil_r. split; [reflexivity|constructor].
Qed.

Lemma engineStep_trans new s1 s2 s3 :
  engineStep new s1 s2 -> engineStep new s2 s3 -> engineStep new s1 s3.
Proof.
  intros (Hl1 & Hq1 & tr1 & Ht1 & Hf1) (Hl2 & Hq2 & tr2 & Ht2 & Hf2).
  split; [congruence|]. split.
  - intros q Hq. rewrite Hq2, Hq1 by exact Hq. reflexivity.
  - exists (tr1 ++ tr2). split.
    + rewrite Ht2, Ht1, app_assoc. reflexivity.
    + apply Forall_app. split; assumption.
Qed.

Lemma engineOnly_ret {A} new (a : A) : engineOnly new (ret a).
Proof.
  intros s r s' H. unfold ret in H. simplify_eq.
  split; [apply engineStep_refl|discriminate].
Qed.

Lemma engineOnly_panic {A} new msg : engineOnly new (panic (A := A) msg).
Proof.
  intros s r s' H. unfold panic in H. simplify_eq.
  split; [apply engineStep_refl|discriminate].
Qed.

Lemma engineOnly_bind {A B} new (m : M Sys A) (k : A -> M Sys B) :
  engineOnly new m -> (forall a, engineOnly new (k a)) -> engineOnly new (bind m k).
Proof.
  intros Hm Hk s r s' H. unfold bind in H.
  destruct (m s) as [o s1] eqn:E. destruct (Hm _ _ _ E) as [H1 Hnb].
  destruct o as [a|msg|].
  - destruct (Hk a _ _ _ H) as [H2 Hnb2].
    split; [eapply engineStep_trans; eassumption|exact Hnb2].
  - simplify_eq. split; [exact H1|discriminate].
  - congruence.
Qed.

Lemma engineOnly_emit new e : engineEvent e = true -> engineOnly new (emit e).
Proof.
  intros He s r s' H. unfold emit in H. simplify_eq. split; [|discriminate].
  split; [reflexivity|]. split; [reflexivity|].
  exists [e]. split; [reflexivity|]. constructor; [exact He|constructor].
Qed.

Lemma engineOnly_call {A} new (f : World -> A * World) : engineOnly new (call f).
Proof.
  intros s r s' H. unfold call in H. destruct (f (world s)) as [a w].
  simplify_eq. split; [|discriminate].
  split; [reflexivity|]. split; [reflexivity|].
  exists []. simpl. rewrite app_nil_r. split; [reflexivity|constructor].
Qed.

Lemma engineOnly_load new p : engineOnly new (load p).
Proof.
  intros s r s' H. unfold load in H.
  destruct (heap s !! p); simplify_eq; (split; [apply engineStep_refl|discriminate]).
Qed.

Lemma engineOnly_store new i : engineOnly new (store new i).
Proof.
  intros s r s' H. unfold store in H. simplify_eq. split; [|discriminate].
  split; [simpl; apply length_insert|]. split.
  - intros q Hq. simpl. apply list_lookup_insert_ne. congruence.
  - exists []. simpl. rewrite app_nil_r. split; [reflexivity|constructor].
Qed.

Ltac engine :=
  repeat first
    [ apply engineOnly_ret
    | apply engineOnly_panic
    | apply engineOnly_load
    | apply engineOnly_store
    | apply engineOnly_call
    | apply engineOnly_emit; reflexivity
    | apply engineOnly_bind; [|intros ?]
    | match goal with
      | |- engineOnly _ (match ?x with _ => _ end) => destruct x
      | |- engineOnly _ (let (_, _) := ?x in _) => destruct x
      end ].

Lemma engineOnly_Valid new k c ca dnsname duration :
  engineOnly new (Valid k c ca dnsname duration).
Proof. unfold Valid, Printf. engine. Qed.

Lemma engineOnly_IsValid new i dnsname duration :
  engineOnly new (IsValid i dnsname duration).
Proof.
  unfold IsValid, fields, Printf. engine; apply engineOnly_Valid.
Qed.

Lemma engineOnly_newPrivateKey new : engineOnly new newPrivateKey.
Proof. unfold newPrivateKey. engine. Qed.

Lemma engineOnly_NewSignedCert new cfg key caCert caKey duration :
  engineOnly new (NewSignedCert cfg key caCert caKey duration).
Proof. unfold NewSignedCert. engine. Qed.

Lemma engineOnly_existingCA new n : engineOnly new (existingCA n).
Proof.
  unfold existingCA, Printf. engine; try apply engineOnly_Valid.
Qed.

Lemma engineOnly_generateCA new n cfg : engineOnly new (generateCA new n cfg).
Proof.
  unfold generateCA, Printf. engine; try apply engineOnly_newPrivateKey.
Qed.

Lemma engineOnly_issueServer new n cfg caKey caCert :
  engineOnly new (issueServer new n cfg caKey caCert).
Proof.
  unfold issueServer, Printf.
  engine; try apply engineOnly_newPrivateKey; try apply engineOnly_NewSignedCert.
Qed.


Lemma app_one_more (l l' : list info) (x : info) :
  length l' = length (l ++ [x]) ->
  (forall q : ptr, q <> length l -> l' !! q = (l ++ [x]) !! q) ->
  exists n, l' = l ++ [n].
Proof.
  intros Hlen Hq. rewrite length_app in Hlen. simpl in Hlen.
  destruct (lookup_lt_is_Some_2 l' (length l) ltac:(lia)) as [n Hn].
  exists n. apply list_eq. intros q.
  destruct (decide (q = length l)) as [->|Hne].
  - rewrite Hn. symmetry. apply lookup_fresh.
  - etrans; [apply Hq; exact Hne|].
    destruct (decide (q < length l)%nat).
    + rewrite !lookup_app_l by assumption. reflexivity.
    + rewrite !lookup_ge_None_2; [reflexivity| |]; rewrite length_app; simpl; lia.
Qed.

(** X1.  [NewCertInfo] hands out a non-nil bundle at a fresh address whose
    four accessors return the four slices it was given, and it leaves
    every existing bundle as it was. *)
Theorem X1_NewCertInfo_round_trip (c k cac cak : slice) (s : Sys) :
  exists p s',
    NewCertInfo c k cac cak s = (Ok (Some p), s') /\
    heap s !! p = None /\
    fields (Some p) s' =
      (Ok {| cert := c; key := k; cacert := cac; cakey := cak |}, s') /\
    (forall q i, heap s !! q = Some i -> heap s' !! q = Some i) /\
    world s' = world s /\ trace s' = trace s.
Proof.
  exists (length (heap s)), {| heap := heap s ++ [{| cert := c; key := k; cacert := cac;
                                                 cakey := cak |}];
                               world := world s; trace := trace s |}.
  split; [reflexivity|]. split; [apply lookup_ge_None_2; lia|]. split.
  - unfold fields, load. simpl. rewrite lookup_fresh. reflexivity.
  - split; [|split; reflexivity].
    intros q i Hq. simpl. apply lookup_app_l_Some. exact Hq.
Qed.

(** X2.  [Valid] answers true exactly when the three slices are
    non-empty, the certificate and key form a key pair, the CA bytes
    yield a non-empty pool, the first PEM block of the certificate
    parses, and that certificate verifies for the DNS name against the
    pool at the clock reading plus the lookahead. *)
Theorem X2_Valid_true_iff (k c ca : slice) (dnsname : string) (duration : Duration)
    (s : Sys) :
  fst (Valid k c ca dnsname duration s) = Ok true <->
  (len c <> O /\ len k <> O /\ len ca <> O /\
   exists (pair : TLSCertificate) (pool : CertPool) (block : pem_Block) (x : Cert),
     tls_X509KeyPair (bytes c) (bytes k) = Success pair /\
     CertPool_AppendCertsFromPEM x509_NewCertPool (bytes ca) = (pool, true) /\
     fst (pem_Decode (bytes c)) = Some block /\
     x509_ParseCertificate (Block_Bytes block) = Success x /\
     Certificate_Verify x
       {| vo_DNSName := dnsname; vo_Roots := pool;
          vo_CurrentTime := fst (time_Now (world s)) + duration |} = None).
Proof.
  unfold Valid, Printf, emit, call, bind, ret, Time_Add. destruct s as [h w tr]; simpl.
  destruct (len c) as [|nc] eqn:Hc; simpl.
  { split; [discriminate|]. intros (H & _). done. }
  destruct (len k) as [|nk] eqn:Hk; simpl.
  { split; [discriminate|]. intros (_ & H & _). done. }
  destruct (len ca) as [|nca] eqn:Hca; simpl.
  { split; [discriminate|]. intros (_ & _ & H & _). done. }
  destruct (tls_X509KeyPair (bytes c) (bytes k)) as [pair|e] eqn:Hp; simpl.
  2:{ split; [discriminate|]. intros (_ & _ & _ & ? & ? & ? & ? & ? & _). discriminate. }
  destruct (CertPool_AppendCertsFromPEM x509_NewCertPool (bytes ca)) as [pool ok] eqn:Ha.
  destruct ok; simpl.
  2:{ split; [discriminate|]. intros (_ & _ & _ & ? & ? & ? & ? & _ & ? & _). congruence. }
  destruct (fst (pem_Decode (bytes c))) as [block|] eqn:Hd; simpl.
  2:{ split; [discriminate|]. intros (_ & _ & _ & ? & ? & ? & ? & _ & _ & ? & _). congruence. }
  destruct (x509_ParseCertificate (Block_Bytes block)) as [x|e] eqn:Hx; simpl.
  2:{ split; [discriminate|].
      intros (_ & _ & _ & ? & ? & ? & ? & _ & _ & ? & ? & _). congruence. }
  destruct (time_Now w) as [now w'] eqn:Hn; simpl.
  split.
  - intros [= H]. apply bool_decide_eq_true in H.
    repeat (split; [done|]). exists pair, pool, block, x. done.
  - intros (_ & _ & _ & pair' & pool' & block' & x' & _ & Ha' & Hd' & Hx' & Hv).
    assert (x' = x) by congruence. assert (pool' = pool) by congruence.
    subst. rewrite Hv. reflexivity.
Qed.

(** X3.  [Valid] never fails, panics or blocks: it answers a boolean,
    leaves the heap alone, prints exactly one diagnostic line and reads
    the clock at most once. *)
Theorem X3_Valid_effects (k c ca : slice) (dnsname : string) (duration : Duration)
    (s : Sys) :
  exists (b : bool) (msg : string) (w : World),
    Valid k c ca dnsname duration s =
      (Ok b, {| heap := heap s; world := w; trace := trace s ++ [EvPrintf msg] |}) /\
    (w = world s \/ w = snd (time_Now (world s))).
Proof.
  unfold Valid, Printf, emit, call, bind, ret. destruct s as [h w tr]; simpl.
  repeat case_match; simplify_eq; simpl;
    try (eexists _, _, _; split; [reflexivity|left; reflexivity]).
  eexists _, _, _. split; [reflexivity|].
  right. simpl in *. match goal with E : time_Now _ = _ |- _ => rewrite E end. reflexivity.
Qed.

Lemma Valid_empty (k c ca : slice) (dnsname : string) (duration : Duration) (s : Sys) :
  len c = O \/ len k = O \/ len ca = O ->
  Valid k c ca dnsname duration s = (Ok false, after s [EvPrintf "something empty"]).
Proof.
  intros H. unfold Valid, Printf, emit, bind, ret, after.
  replace ((len c =? 0)%nat || (len k =? 0)%nat || (len ca =? 0)%nat) with true;
    [reflexivity|].
  symmetry. destruct H as [H|[H|H]]; rewrite H; simpl; rewrite ?orb_true_r; reflexivity.
Qed.

(** X4.  On a bundle whose server certificate, server key or CA
    certificate is nil or empty, [IsValid] answers false having printed
    one line: it does not read the clock and changes nothing else. *)
Theorem X4_IsValid_incomplete (p : ptr) (b : info) (dnsname : string)
    (duration : Duration) (s : Sys) :
  heap s !! p = Some b ->
  incomplete b ->
  exists msg : string,
    IsValid (Some p) dnsname duration s = (Ok false, after s [EvPrintf msg]).
Proof.
  intros Hb Hinc. rewrite (IsValid_frame p b) by exact Hb. unfold after.
  destruct (cert b) as [c|] eqn:Hc; [|eexists; reflexivity].
  destruct (key b) as [k|] eqn:Hk; [|eexists; reflexivity].
  destruct (cacert b) as [ca|] eqn:Hca; [|eexists; reflexivity].
  exists "something empty". apply Valid_empty.
  unfold incomplete in Hinc. rewrite Hc, Hk, Hca in Hinc. tauto.
Qed.

Lemma returns_ret {S A} (Q : A -> Prop) (a : A) : Q a -> returns (S := S) Q (ret a).
Proof. intros H s a' s' E. unfold ret in E. simplify_eq. exact H. Qed.

Lemma returns_panic {S A} (Q : A -> Prop) msg : returns (S := S) Q (panic msg).
Proof. intros s a s' E. unfold panic in E. discriminate. Qed.

Lemma returns_bind {S A B} (P : A -> Prop) (Q : B -> Prop) (m : M S A) (k : A -> M S B) :
  returns P m -> (forall a, P a -> returns Q (k a)) -> returns Q (bind m k).
Proof.
  intros Hm Hk s b s' E. unfold bind in E.
  destruct (m s) as [[a|msg|] s1] eqn:Em; try discriminate.
  exact (Hk a (Hm _ _ _ Em) _ _ _ E).
Qed.

Lemma returns_any {S A} (m : M S A) : returns (fun _ => True) m.
Proof. intros s a s' _. exact I. Qed.

Definition issueErrors {A} (r : result A) : Prop :=
  match r with
  | Failure err => IssueError err
  | Success _ => True
  end.

Lemma generateCA_errors new n cfg : returns issueErrors (generateCA new n cfg).
Proof.
  unfold generateCA.
  apply (returns_bind (fun _ => True)); [apply returns_any|intros _ _].
  apply (returns_bind (fun _ => True)); [apply returns_any|intros r _].
  destruct r as [caKey|err]; [|apply returns_ret; constructor].
  apply (returns_bind (fun _ => True)); [apply returns_any|intros _ _].
  apply (returns_bind (fun _ => True)); [apply returns_any|intros _ _].
  apply (returns_bind (fun _ => True)); [apply returns_any|intros r _].
  destruct r as [caCert|err]; [|apply returns_ret; constructor].
  apply (returns_bind (fun _ => True)); [apply returns_any|intros _ _].
  apply returns_ret. exact I.
Qed.

(** What [issueServer] returns: an error of the two server stages, or
    the new address, and then the common name is not empty. *)
Definition issued (new : ptr) (cfg : Config) (r : result CertificateInfo) : Prop :=
  match r with
  | Failure err => IssueError err
  | Success i => i = Some new /\ CommonName cfg <> ""
  end.

Lemma NewSignedCert_guards cfg key caCert caKey duration :
  returns (fun r => match r with
                    | Success _ => cc_CommonName cfg <> "" /\ cc_Usages cfg <> []
                    | Failure _ => True
                    end)
    (NewSignedCert cfg key caCert caKey duration).
Proof.
  intros s r s' E. destruct r as [c|e]; [|exact I].
  apply NewSignedCert_spec in E.
  destruct E as (? & ? & ? & ? & ? & ? & _ & _ & Hcn & Hus & _). split; assumption.
Qed.

Lemma issueServer_issued new n cfg caKey caCert :
  returns (issued new cfg) (issueServer new n cfg caKey caCert).
Proof.
  unfold issueServer.
  apply (returns_bind (fun _ => True)); [apply returns_any|intros _ _].
  apply (returns_bind (fun _ => True)); [apply returns_any|intros r _].
  destruct r as [newKey|err]; [|apply returns_ret; constructor].
  apply (returns_bind (fun _ => True)); [apply returns_any|intros _ _].
  apply (returns_bind (fun _ => True)); [apply returns_any|intros _ _].
  eapply returns_bind; [apply NewSignedCert_guards|intros r Hr].
  destruct r as [newCert|err]; [|apply returns_ret; constructor].
  apply (returns_bind (fun _ => True)); [apply returns_any|intros _ _].
  apply returns_ret. split; [reflexivity|]. exact (proj1 Hr).
Qed.

Lemma bind_alloc {A} (i : info) (k : ptr -> M Sys A) (s : Sys) :
  bind (alloc i) k s =
  k (length (heap s)) {| heap := heap s ++ [i]; world := world s; trace := trace s |}.
Proof. reflexivity. Qed.

(** What [UpdateCertificate] returns: its argument, or the address of
    the bundle it allocated (and then the common name is not empty), or
    an error of one of the four stages. *)
Lemma UpdateCertificate_returns old cfg s r s' :
  UpdateCertificate old cfg s = (Ok r, s') ->
  match r with
  | Failure err => IssueError err
  | Success i => i = old \/ (i = Some (length (heap s)) /\ CommonName cfg <> "")
  end.
Proof.
  intros H. unfold UpdateCertificate in H. rewrite bind_alloc in H. cbv beta in H.
  set (new := length (heap s)) in *.
  match type of H with
  | ?m ?s1 = (Ok _, _) =>
      cut (returns (fun r => match r with
                             | Failure err => IssueError err
                             | Success i => i = old \/ (i = Some new /\ CommonName cfg <> "")
                             end) m);
      [intros HR; exact (HR s1 r s' H)|]
  end.
  clear H.
  apply (returns_bind (fun _ => True)); [apply returns_any|intros _ _].
  destruct (DnsNames cfg) as [|dnsname names]; [apply returns_panic|].
  apply (returns_bind (fun _ => True)); [apply returns_any|intros valid _].
  destruct valid; simpl; [apply returns_ret; left; reflexivity|].
  apply (returns_bind (fun _ => True)); [apply returns_any|intros _ _].
  apply (returns_bind (fun _ => True)); [apply returns_any|intros n _].
  apply (returns_bind (fun _ => True)); [apply returns_any|intros [[ok caKey] caCert] _].
  apply (returns_bind issueErrors).
  - destruct (isNil (cacert n) || negb ok); [apply generateCA_errors|].
    destruct caKey, caCert; try apply returns_panic. apply returns_ret. exact I.
  - intros [[[n' caKey'] caCert']|err] Herr; [|apply returns_ret; exact Herr].
    intros s0 r0 s0' E. apply issueServer_issued in E.
    destruct r0 as [i|err]; [|exact E]. right. exact E.
Qed.

(** X5.  [UpdateCertificate] allocates exactly one bundle and never
    writes to an existing one, whatever the outcome; it never blocks;
    and its only effects are those of the engine (printing, key
    generation, CA issuing, signing): it does not touch the store, the
    lock, watchers or timers. *)
Theorem X5_UpdateCertificate_frame (old : CertificateInfo) (cfg : Config) (s : Sys) :
  fst (UpdateCertificate old cfg s) <> Blocked /\
  exists (n : info) (tr : list Event),
    heap (snd (UpdateCertificate old cfg s)) = heap s ++ [n] /\
    trace (snd (UpdateCertificate old cfg s)) = trace s ++ tr /\
    Forall (fun e => engineEvent e = true) tr.
Proof.
  destruct (UpdateCertificate old cfg s) as [r s'] eqn:H. simpl.
  unfold UpdateCertificate in H. rewrite bind_alloc in H. cbv beta in H.
  set (new := length (heap s)) in *.
  set (s1 := {| heap := heap s ++ [_]; world := world s; trace := trace s |}) in H.
  match type of H with
  | ?m s1 = _ => assert (HE : engineOnly new m)
  end.
  { unfold Printf, fields.
    repeat first
      [ apply engineOnly_IsValid | apply engineOnly_Valid | apply engineOnly_existingCA
      | apply engineOnly_generateCA | apply engineOnly_issueServer
      | apply engineOnly_newPrivateKey | apply engineOnly_NewSignedCert
      | progress engine ]. }
  destruct (HE _ _ _ H) as [(Hlen & Hq & tr & Htr & Hev) Hnb].
  split; [exact Hnb|].
  destruct (app_one_more (heap s) (heap s') _ Hlen Hq) as [n Hn].
  exists n, tr. split; [exact Hn|]. split; [exact Htr|exact Hev].
Qed.

(** X6.  Every error [UpdateCertificate] returns names the stage that
    failed: the CA key pair, the CA certificate, the server key pair or
    the server certificate. *)
Theorem X6_UpdateCertificate_errors (old : CertificateInfo) (cfg : Config) (s : Sys)
    (err : error) :
  fst (UpdateCertificate old cfg s) = Ok (Failure err) ->
  (exists e, err = "failed to create the CA key pair: " +:+ e) \/
  (exists e, err = "failed to create the CA certmgmt: " +:+ e) \/
  (exists e, err = "failed to create the server key pair: " +:+ e) \/
  (exists e, err = "failed to create the server certmgmt: " +:+ e).
Proof.
  destruct (UpdateCertificate old cfg s) as [r s'] eqn:H. simpl. intros ->.
  apply UpdateCertificate_returns in H. destruct H; eauto.
Qed.

(** X7.  With an empty list of DNS names [UpdateCertificate] panics
    (index out of range at line 108), whatever bundle it is given,
    before validating or issuing anything. *)
Theorem X7_UpdateCertificate_no_names (old : CertificateInfo) (cfg : Config) (s : Sys) :
  DnsNames cfg = [] ->
  exists msg : string,
    fst (UpdateCertificate old cfg s) = Panic msg /\
    world (snd (UpdateCertificate old cfg s)) = world s /\
    trace (snd (UpdateCertificate old cfg s)) = trace s.
Proof.
  intros Hn. unfold UpdateCertificate. rewrite bind_alloc. cbv beta. rewrite Hn.
  destruct old as [p|]; unfold fields, load, store, bind, ret, panic; simpl.
  - destruct ((heap s ++ [_]) !! p); simpl; eexists; repeat split; reflexivity.
  - eexists; repeat split; reflexivity.
Qed.

(** X8.  With an empty common name [UpdateCertificate] issues nothing:
    if it succeeds, it returns its argument (the bundle was still
    valid). *)
Theorem X8_UpdateCertificate_no_common_name
    (old r : CertificateInfo) (cfg : Config) (s : Sys) :
  CommonName cfg = "" ->
  fst (UpdateCertificate old cfg s) = Ok (Success r) ->
  r = old.
Proof.
  intros Hcn. destruct (UpdateCertificate old cfg s) as [o s'] eqn:H. simpl. intros ->.
  apply UpdateCertificate_returns in H. destruct H as [H|[_ H]]; [exact H|]. done.
Qed.

Lemma Valid_on_total k c ca dnsname duration w :
  exists b : bool, fst (Valid_on k c ca dnsname duration w) = Ok b.
Proof.
  unfold Valid_on, Valid, Printf, emit, call, bind, ret. simpl.
  repeat case_match; simplify_eq; simpl; eexists; reflexivity.
Qed.


Lemma IsValid_on_total b dnsname duration w :
  exists v : bool, fst (IsValid_on b dnsname duration w) = Ok v.
Proof.
  unfold IsValid_on. rewrite (IsValid_frame O b) by reflexivity.
  destruct (cert b), (key b), (cacert b); simpl; try (eexists; reflexivity).
  rewrite Valid_frame. simpl. apply Valid_on_total.
Qed.

Lemma workingCopy_fresh old (h : list info) b :
  workingCopy old h = Some b -> old <> Some (length h).
Proof.
  destruct old as [p|]; simpl; [|discriminate].
  intros H [= ->]. apply lookup_lt_Some in H. lia.
Qed.

(** X9.  For an argument that is nil or points into the heap, a
    successful [UpdateCertificate] returns its argument itself exactly
    when the bundle passes the check of line 108, and the address of
    the new bundle otherwise: comparing the result with the argument
    tells whether anything was issued. *)
Theorem X9_UpdateCertificate_identity
    (old r : CertificateInfo) (cfg : Config) (s : Sys) (b : info)
    (dnsname : string) (names : list string) :
  workingCopy old (heap s) = Some b ->
  DnsNames cfg = dnsname :: names ->
  fst (UpdateCertificate old cfg s) = Ok (Success r) ->
  (r = old <-> fst (IsValid_on b dnsname (Rest cfg) (world s)) = Ok true) /\
  (r <> old <-> r = Some (length (heap s))).
Proof.
  intros Hb Hdns. destruct (UpdateCertificate old cfg s) as [o s'] eqn:H. simpl. intros ->.
  pose proof (workingCopy_fresh _ _ _ Hb) as Hfresh.
  destruct (IsValid_on_total b dnsname (Rest cfg) (world s)) as [[|] Hv].
  - destruct (UpdateCertificate_keep old cfg s b dnsname names Hb Hdns Hv)
      as (s'' & Hrun & _).
    rewrite Hrun in H. simplify_eq. split; split; try done.
  - destruct (UpdateCertificate_issue old cfg s b dnsname names r s' Hb Hdns Hv H)
      as (-> & _).
    split; split; try done. rewrite Hv. discriminate.
Qed.

Lemma IsValid_on_incomplete b dnsname duration w :
  incomplete b -> fst (IsValid_on b dnsname duration w) = Ok false.
Proof.
  intros Hinc. unfold IsValid_on. rewrite (IsValid_frame O b) by reflexivity.
  destruct (cert b) as [c|] eqn:Hc; [|reflexivity].
  destruct (key b) as [k|] eqn:Hk; [|reflexivity].
  destruct (cacert b) as [ca|] eqn:Hca; [|reflexivity].
  rewrite Valid_empty; [reflexivity|].
  unfold incomplete in Hinc. rewrite Hc, Hk, Hca in Hinc. tauto.
Qed.

(** X10.  A bundle whose server certificate, server key or CA
    certificate is nil or empty is never handed back: a successful
    [UpdateCertificate] returns a new bundle, whose server certificate
    and key are set. *)
Theorem X10_incomplete_bundle_is_reissued
    (old r : CertificateInfo) (cfg : Config) (s : Sys) (b : info) :
  workingCopy old (heap s) = Some b ->
  incomplete b ->
  fst (UpdateCertificate old cfg s) = Ok (Success r) ->
  r <> old /\
  exists n : info,
    r = Some (length (heap s)) /\
    heap (snd (UpdateCertificate old cfg s)) !! length (heap s) = Some n /\
    is_Some (cert n) /\ is_Some (key n) /\ is_Some (cacert n).
Proof.
  intros Hb Hinc. destruct (UpdateCertificate old cfg s) as [o s'] eqn:H. simpl. intros ->.
  pose proof (UpdateCertificate_names old cfg s _ _ ltac:(eauto) H) as Hne.
  destruct (DnsNames cfg) as [|dnsname names] eqn:Hdns; [done|].
  destruct (UpdateCertificate_issue old cfg s b dnsname names r s' Hb Hdns
              (IsValid_on_incomplete _ _ _ _ Hinc) H)
    as (-> & n & newKey & newCert & caCert & serial & now & pre &
        Hh & Hkey & Hcert & _ & _ & Hca).
  split; [intros E; symmetry in E; exact (workingCopy_fresh _ _ _ Hb E)|].
  exists n. split; [reflexivity|]. split; [rewrite Hh; apply lookup_fresh|].
  rewrite Hkey, Hcert. split; [eauto|]. split; [eauto|].
  destruct (caUsable b _).
  - destruct Hca as (-> & _ & Hs & _). exact Hs.
  - destruct Hca as (? & ? & ? & ? & ? & _ & -> & _). eauto.
Qed.


(** X11.  [NewSignedCert] draws the serial number first; if that fails
    it returns the error, and if the common name or the list of usages
    is empty it returns the error for it (the common name is checked
    first), in each case without reading the clock or signing. *)
Theorem X11_NewSignedCert_guards
    (cfg : cert_Config) (key caKey : Key) (caCert : Cert) (duration : Duration) (s : Sys) :
  cc_CommonName cfg = "" \/ cc_Usages cfg = [] ->
  NewSignedCert cfg key caCert caKey duration s =
  (Ok (Failure match fst (cryptorand_Int MaxInt64 (world s)) with
               | Failure err => err
               | Success _ =>
                   if (String.length (cc_CommonName cfg) =? 0)%nat
                   then "must specify a CommonName"
                   else "must specify at least one ExtKeyUsage"
               end),
   {| heap := heap s; world := snd (cryptorand_Int MaxInt64 (world s));
      trace := trace s |}).
Proof.
  intros H. unfold NewSignedCert, call, bind, ret.
  destruct (cryptorand_Int MaxInt64 (world s)) as [[serial|err] w1]; simpl; [|reflexivity].
  destruct (String.length (cc_CommonName cfg) =? 0)%nat eqn:Hcn; [reflexivity|].
  destruct H as [H|H]; [rewrite H in Hcn; discriminate|].
  rewrite H. reflexivity.
Qed.

Lemma UpdateCertificate_trace old cfg s :
  fst (UpdateCertificate old cfg s) <> Blocked /\
  exists tr, trace (snd (UpdateCertificate old cfg s)) = trace s ++ tr /\
             Forall (fun e => refreshEvent e = true) tr.
Proof.
  destruct (UpdateCertificate old cfg s) as [r s'] eqn:H. simpl.
  unfold UpdateCertificate in H. rewrite bind_alloc in H. cbv beta in H.
  set (new := length (heap s)) in *.
  set (s1 := {| heap := heap s ++ [_]; world := world s; trace := trace s |}) in H.
  match type of H with
  | ?m s1 = _ => assert (HE : engineOnly new m)
  end.
  { unfold Printf, fields.
    repeat first
      [ apply engineOnly_IsValid | apply engineOnly_Valid | apply engineOnly_existingCA
      | apply engineOnly_generateCA | apply engineOnly_issueServer
      | apply engineOnly_newPrivateKey | apply engineOnly_NewSignedCert
      | progress engine ]. }
  destruct (HE _ _ _ H) as [(_ & _ & tr & Htr & Hev) Hnb].
  split; [exact Hnb|]. exists tr. split; [exact Htr|].
  eapply Forall_impl; [|exact Hev]. intros e He. unfold refreshEvent. rewrite He. reflexivity.
Qed.

End EngineProperties.

(** * Further properties of the watchers *)
Section WatcherProperties.
Context `{L : Lib}.

Arguments UpdateCertificate : simpl never.

(** X12.  [AccessSource.ReadCertificate] either leaves the watcher as
    it was, or returns nil having replaced the current certificate,
    under the lock and as its last step, by the key pair parsed from the
    certificate and key of the bundle it has just written to the store
    with Set. *)
Theorem X12_ReadCertificate_installs_what_it_stored (st : St AccessSource) :
  let o := fst (AccessSource_ReadCertificate st) in
  let st' := snd (AccessSource_ReadCertificate st) in
  this st' = this st \/
  (o = Ok None /\
   exists (p : ptr) (f : info) (c : TLSCertificate) (pre : list Event),
     trace (sys st') = pre ++ [EvSet (Some p); EvLock; EvUnlock] /\
     heap (sys st') !! p = Some f /\
     tls_X509KeyPair (bytes (cert f)) (bytes (key f)) = Success c /\
     this st' = {| currentCert := Some c; config := config (this st);
                   access := access (this st) |}).
Proof.
  destruct st as [t s]. cbv zeta.
  destruct (AccessSource_ReadCertificate {| this := t; sys := s |}) as [o st'] eqn:H.
  simpl. revert H. unfold AccessSource_ReadCertificate.
  unfold liftSys, getThis, callStore, emit, bind at 1 2 3. simpl.
  destruct (access_Get (access t) (heap s) (world s)) as [[got|e] [h1 w1]]; simpl;
    [|intros [= <- <-]; left; reflexivity].
  unfold bind at 1. simpl.
  destruct (UpdateCertificate got (config t) _) as [[[new|e]|msg|] s2]; simpl;
    try (intros [= <- <-]; left; reflexivity).
  destruct (negb (bool_decide (got = new)) || isNil (currentCert t)); simpl;
    [|intros [= <- <-]; left; reflexivity].
  unfold AccessSource_setCurrentCert, fields, load, setThis, bind, ret. simpl.
  destruct (access_Set (access t) new (heap s2) (world s2)) as [[e|] [h3 w3]]; simpl;
    [intros [= <- <-]; left; reflexivity|].
  destruct new as [p|]; simpl; [|intros [= <- <-]; left; reflexivity].
  destruct (h3 !! p) as [f|] eqn:Hf; simpl; [|intros [= <- <-]; left; reflexivity].
  destruct (tls_X509KeyPair (bytes (cert f)) (bytes (key f))) as [c|e] eqn:Hc; simpl;
    [|intros [= <- <-]; left; reflexivity].
  intros [= <- <-]. right. split; [reflexivity|].
  exists p, f, c, (trace s2). split; [simpl; rewrite <- !app_assoc; reflexivity|].
  split; [exact Hf|]. split; [exact Hc|reflexivity].
Qed.

(** What a refresh does to the polling watcher and to the trace. *)
Lemma ReadCertificate_step (st : St AccessSource) :
  let o := fst (AccessSource_ReadCertificate st) in
  let st' := snd (AccessSource_ReadCertificate st) in
  o <> Blocked /\
  config (this st') = config (this st) /\
  access (this st') = access (this st) /\
  (is_Some (currentCert (this st)) -> is_Some (currentCert (this st'))) /\
  (o = Ok None -> is_Some (currentCert (this st'))) /\
  exists tr, trace (sys st') = trace (sys st) ++ tr /\
             Forall (fun e => refreshEvent e = true) tr /\
             (o = Ok None -> currentCert (this st) = None ->
              exists pre p, tr = pre ++ [EvSet (Some p); EvLock; EvUnlock]).
Proof.
  destruct st as [t s]. cbv zeta.
  destruct (AccessSource_ReadCertificate {| this := t; sys := s |}) as [o st'] eqn:H.
  simpl. revert H. unfold AccessSource_ReadCertificate.
  unfold liftSys, getThis, callStore, emit, bind at 1 2 3. simpl.
  assert (Hfail : forall (e : error) (s1 : Sys) (tr : list Event),
             trace s1 = trace s ++ tr ->
             Forall (fun e => refreshEvent e = true) tr ->
             (Ok (Some e), {| this := t; sys := s1 |}) = (o, st') ->
             o <> Blocked /\
             config (this st') = config t /\
             access (this st') = access t /\
             (is_Some (currentCert t) -> is_Some (currentCert (this st'))) /\
             (o = Ok None -> is_Some (currentCert (this st'))) /\
             exists tr, trace (sys st') = trace s ++ tr /\
               Forall (fun e => refreshEvent e = true) tr /\
               (o = Ok None -> currentCert t = None ->
                exists pre p, tr = pre ++ [EvSet (Some p); EvLock; EvUnlock])).
  { intros e s1 tr Htr Hev [= <- <-]. simpl. repeat (split; [done|]).
    exists tr. split; [exact Htr|]. split; [exact Hev|]. discriminate. }
  destruct (access_Get (access t) (heap s) (world s)) as [[got|e] [h1 w1]]; simpl.
  2:{ apply (Hfail e _ [EvGet]); [reflexivity|repeat constructor]. }
  unfold bind at 1. simpl.
  pose proof (UpdateCertificate_trace got (config t)
                {| heap := h1; world := w1; trace := trace s ++ [EvGet] |}) as HU.
  destruct (UpdateCertificate got (config t) _) as [r s2]; simpl in HU.
  destruct HU as (Hnb & tr & Htr & Hev).
  assert (Hev' : Forall (fun e => refreshEvent e = true) (EvGet :: tr)).
  { constructor; [reflexivity|exact Hev]. }
  assert (Htr' : trace s2 = trace s ++ EvGet :: tr).
  { rewrite Htr, <- app_assoc. reflexivity. }
  destruct r as [[new|e]|msg|]; simpl; [|apply (Hfail e _ _ Htr' Hev')| |done].
  2:{ intros [= <- <-]. simpl. repeat (split; [done|]).
      exists (EvGet :: tr). split; [exact Htr'|]. split; [exact Hev'|]. discriminate. }
  destruct (negb (bool_decide (got = new)) || isNil (currentCert t)) eqn:Hbr; simpl.
  2:{ apply orb_false_iff in Hbr. destruct Hbr as [_ Hl].
      assert (Hs : is_Some (currentCert t)) by (destruct (currentCert t); [eauto|discriminate]).
      intros [= <- <-]; simpl.
      repeat (split; [done|]). exists (EvGet :: tr). split; [exact Htr'|].
      split; [exact Hev'|]. intros _ Hn. rewrite Hn in Hs. destruct Hs; discriminate. }
  unfold AccessSource_setCurrentCert, fields, load, setThis, bind, ret. simpl.
  assert (Hev2 : Forall (fun e => refreshEvent e = true) (EvGet :: tr ++ [EvSet new])).
  { constructor; [reflexivity|]. apply Forall_app. split; [exact Hev|]. repeat constructor. }
  assert (Htr2 : trace s2 ++ [EvSet new] = trace s ++ EvGet :: tr ++ [EvSet new]).
  { rewrite Htr'. rewrite <- app_assoc. reflexivity. }
  destruct (access_Set (access t) new (heap s2) (world s2)) as [[e|] [h3 w3]]; simpl.
  { apply (Hfail e {| heap := h3; world := w3; trace := trace s2 ++ [EvSet new] |}
             _ Htr2 Hev2). }
  destruct new as [p|]; simpl.
  2:{ intros [= <- <-]. simpl. repeat (split; [done|]).
      eexists. split; [exact Htr2|]. split; [exact Hev2|]. discriminate. }
  destruct (h3 !! p) as [f|] eqn:Hf; simpl.
  2:{ intros [= <- <-]. simpl. repeat (split; [done|]).
      eexists. split; [exact Htr2|]. split; [exact Hev2|]. discriminate. }
  destruct (tls_X509KeyPair (bytes (cert f)) (bytes (key f))) as [c|e] eqn:Hc; simpl.
  2:{ apply (Hfail e {| heap := h3; world := w3; trace := trace s2 ++ [EvSet (Some p)] |}
               _ Htr2 Hev2). }
  intros [= <- <-]; simpl.
  split; [done|]. split; [done|]. split; [done|]. split; [eauto|]. split; [eauto|].
  exists (EvGet :: tr ++ [EvSet (Some p); EvLock; EvUnlock]). split.
  - rewrite Htr'. rewrite <- !app_assoc. reflexivity.
  - split.
    + constructor; [reflexivity|]. apply Forall_app. split; [exact Hev|]. repeat constructor.
    + intros _ _. exists (EvGet :: tr), p. reflexivity.
Qed.

Lemma started_refresh (f : string) (tr tr' : list Event) :
  Forall (fun e => refreshEvent e = true) tr' -> started f (tr ++ tr') = started f tr.
Proof.
  intros H. unfold started. rewrite existsb_app.
  replace (existsb _ tr') with false; [apply orb_false_r|].
  symmetry. induction H as [|e tr' He _ IH]; [reflexivity|].
  simpl. rewrite IH. destruct e; try reflexivity; discriminate.
Qed.

(** X13.  [access.New] never waits for the stop channel.  When it
    succeeds, the watcher it returns has a certificate loaded, carries
    the given configuration and store, the store's Set was called
    right before the certificate was installed, and the refresh loop
    has been started as its last step.  When it fails or panics, no
    loop has been started. *)
Theorem X13_access_New (acc : CertificateAccess) (cfg : Config) (s : Sys) :
  match fst (access_New acc cfg s) with
  | Ok (Success a) =>
      is_Some (currentCert a) /\ config a = cfg /\ access a = acc /\
      exists pre p,
        trace (snd (access_New acc cfg s)) =
        trace s ++ pre ++ [EvSet (Some p); EvLock; EvUnlock; EvGo "watch"]
  | Ok (Failure _) | Panic _ =>
      started "watch" (trace (snd (access_New acc cfg s))) = started "watch" (trace s)
  | Blocked => False
  end.
Proof.
  destruct (access_New acc cfg s) as [r s'] eqn:H. simpl.
  unfold access_New in H.
  set (st0 := {| this := {| currentCert := None; config := cfg; access := acc |};
                 sys := s |}) in H.
  unfold bind at 1 in H.
  pose proof (ReadCertificate_step st0) as Hstep. cbv zeta in Hstep.
  destruct (AccessSource_ReadCertificate st0) as [o st1]. simpl in Hstep.
  destruct Hstep as (Hnb & Hcfg & Hacc & _ & Hload & tr & Htr & Hev & Hset).
  destruct o as [[e|]|msg|]; [| | |done].
  - unfold ret in H. injection H as <- <-. rewrite Htr. apply started_refresh. exact Hev.
  - unfold AccessSource_start, liftSys, emit, getThis, bind, ret in H. simpl in H.
    injection H as <- <-. simpl.
    split; [apply Hload; reflexivity|]. split; [exact Hcfg|]. split; [exact Hacc|].
    destruct (Hset eq_refl eq_refl) as (pre & p & ->).
    exists pre, p. rewrite Htr. rewrite <- !app_assoc. reflexivity.
  - injection H as <- <-. rewrite Htr. apply started_refresh. exact Hev.
Qed.

(** X14.  The refresh loop of the polling watcher, on any sequence of
    wake-ups, never blocks in a refresh, never changes the watcher's
    configuration or store, and never unloads a certificate: if one was
    loaded when the loop was entered, one is loaded whenever the loop
    waits or exits. *)
Theorem X14_refresh_loop_keeps_certificate
    (ws : list Wakeup) (d backoff : Duration) (st : St AccessSource) :
  let r := AccessSource_loop ws d backoff st in
  fst r <> Blocked /\
  config (this (snd r)) = config (this st) /\
  access (this (snd r)) = access (this st) /\
  (is_Some (currentCert (this st)) -> is_Some (currentCert (this (snd r)))).
Proof.
  cbv zeta. destruct (AccessSource_loop ws d backoff st) as [o st'] eqn:H. simpl.
  revert backoff st o st' H.
  induction ws as [|w ws IH]; intros backoff st o st' H.
  { simpl in H. unfold ret in H. injection H as <- <-. repeat split; done. }
  destruct w; cbn [AccessSource_loop] in H.
  - unfold liftSys, emit, bind, ret in H. simpl in H. injection H as <- <-.
    repeat split; done.
  - unfold bind at 1 in H. unfold liftSys at 1, emit at 1 in H. simpl in H.
    unfold bind at 1 in H.
    match type of H with
    | context [AccessSource_ReadCertificate ?x] =>
        pose proof (ReadCertificate_step x) as Hstep; cbv zeta in Hstep;
        destruct (AccessSource_ReadCertificate x) as [o1 st1]
    end.
    simpl in Hstep. destruct Hstep as (Hnb & Hcfg & Hacc & Hkeep & _).
    destruct o1 as [err|msg|]; [| |done].
    2:{ injection H as <- <-. repeat split; done. }
    destruct err as [e|]; unfold liftSys, emit, ret in H; unfold bind at 1 2 in H;
      simpl in H; try (unfold bind at 1 in H; simpl in H);
      apply IH in H; simpl in H; destruct H as (H1 & H2 & H3 & H4);
      (split; [exact H1|]); (split; [congruence|]); (split; [congruence|]); tauto.
  - unfold ret in H. injection H as <- <-. repeat split; done.
Qed.


Lemma ReadCertificate_down (st : St AccessSource) :
  storeDown (access (this st)) ->
  exists (e : error) (h : list info) (w : World),
    AccessSource_ReadCertificate st =
    (Ok (Some e),
     {| this := this st;
        sys := {| heap := h; world := w; trace := trace (sys st) ++ [EvGet] |} |}).
Proof.
  intros Hdown. destruct st as [t s]. simpl in *.
  destruct (Hdown (heap s) (world s)) as (e & [h w] & HGet).
  exists e, h, w. unfold AccessSource_ReadCertificate.
  unfold liftSys, getThis, callStore, emit, bind, ret. simpl. rewrite HGet. reflexivity.
Qed.

Lemma delays_app (a b : list Event) : delays (a ++ b) = delays a ++ delays b.
Proof. unfold delays. apply omap_app. Qed.

Lemma outage_run (n : nat) (d backoff : Duration) (st : St AccessSource)
    (o : Outcome LoopStatus) (st' : St AccessSource) :
  storeDown (access (this st)) ->
  AccessSource_loop (replicate n WTick) d backoff st = (o, st') ->
  o = Ok (Waiting (Nat.iter n nextBackoff backoff)) /\
  this st' = this st /\
  exists tr,
    trace (sys st') = trace (sys st) ++ tr /\
    Forall (fun e => quietEvent e = true) tr /\
    delays tr = map (fun k => Nat.iter k nextBackoff backoff) (seq 0 n).
Proof.
  revert backoff st.
  induction n as [|n IH]; intros backoff st Hdown H.
  { simpl in H. unfold ret in H. injection H as <- <-.
    split; [reflexivity|]. split; [reflexivity|].
    exists []. rewrite app_nil_r. repeat split. constructor. }
  cbn [replicate AccessSource_loop] in H.
  unfold bind at 1 in H. unfold liftSys at 1, emit at 1 in H. simpl in H.
  unfold bind at 1 in H.
  match type of H with
  | context [AccessSource_ReadCertificate ?x] =>
      destruct (ReadCertificate_down x Hdown) as (e & h & w & Hrun)
  end.
  rewrite Hrun in H. clear Hrun.
  unfold liftSys, emit, ret in H. unfold bind at 1 2 in H. simpl in H.
  unfold bind at 1 in H. simpl in H.
  change (ddiv (dmul backoff 3) 2) with (nextBackoff backoff) in H.
  apply IH in H; [|exact Hdown].
  simpl in H. destruct H as (Ho & Ht & tr & Htr & Hq & Hd).
  split. { rewrite Ho, <- Nat.iter_succ_r. reflexivity. }
  split; [exact Ht|].
  exists ([EvLog "reconciling certificate %s"; EvGet;
           EvLog "cannot reconcile certificate %s: %s (backoff=%s)";
           EvTimerReset backoff] ++ tr).
  split. { rewrite Htr. rewrite <- !app_assoc. reflexivity. }
  split. { apply Forall_app. split; [repeat constructor|exact Hq]. }
  rewrite delays_app, Hd.
  change (delays [EvLog "reconciling certificate %s"; EvGet;
           EvLog "cannot reconcile certificate %s: %s (backoff=%s)";
           EvTimerReset backoff]) with [backoff].
  cbn [seq map app Nat.iter]. f_equal.
  rewrite <- seq_shift, map_map. apply map_ext. intros k.
  rewrite <- Nat.iter_succ_r. reflexivity.
Qed.

(** X16.  While the store's Get fails every time, [n] ticks of the
    refresh loop leave the watcher (and its certificate) as it was,
    write nothing to the store and issue nothing (they only log, call
    Get and re-arm the timer), re-arm the timer with the back-off
    after 0, 1, ..., n-1 failures, and leave the loop waiting with the
    back-off after [n] failures. *)
Theorem X16_outage_schedule
    (n : nat) (d backoff : Duration) (st : St AccessSource) :
  storeDown (access (this st)) ->
  let r := AccessSource_loop (replicate n WTick) d backoff st in
  fst r = Ok (Waiting (Nat.iter n nextBackoff backoff)) /\
  this (snd r) = this st /\
  exists tr,
    trace (sys (snd r)) = trace (sys st) ++ tr /\
    Forall (fun e => quietEvent e = true) tr /\
    delays tr = map (fun k => Nat.iter k nextBackoff backoff) (seq 0 n).
Proof.
  intros Hdown r. subst r.
  destruct (AccessSource_loop (replicate n WTick) d backoff st) as [o st'] eqn:H.
  simpl. exact (outage_run n d backoff st o st' Hdown H).
Qed.

(** X17.  The back-off has no cap: as long as three times the back-off
    fits in 64 bits, a failure makes it strictly larger (from 2
    nanoseconds on) and never more than 1.5 times as large.  Starting
    from one second it is positive for 54 failures in a row, and the
    multiplication wraps at the 55th, which makes it negative. *)
Theorem X17_backoff_grows_until_it_wraps :
  (forall backoff : Duration,
      2 <= backoff -> 3 * backoff < 2 ^ 63 ->
      backoff < nextBackoff backoff /\ 2 * nextBackoff backoff <= 3 * backoff) /\
  (forall k : nat, (k <= 54)%nat -> 0 < backoffAfter k) /\
  backoffAfter 55 < 0.
Proof.
  split; [|split].
  - intros backoff H2 H3. rewrite nextBackoff_floor by lia.
    pose proof (Z.div_mod (3 * backoff) 2 ltac:(lia)) as Hdm.
    pose proof (Z.mod_pos_bound (3 * backoff) 2 ltac:(lia)) as Hm. lia.
  - intros k Hk.
    assert (H : forallb (fun k => 0 <? backoffAfter k) (seq 0 55) = true)
      by (vm_compute; reflexivity).
    rewrite forallb_forall in H. apply Z.ltb_lt. apply H. apply in_seq. lia.
  - vm_compute. reflexivity.
Qed.

Lemma bind_ext_at {S A B : Type} (m : M S A) (k k' : A -> M S B) (s : S) :
  (forall a s', k a s' = k' a s') -> bind m k s = bind m k' s.
Proof.
  intros H. unfold bind. destruct (m s) as [[a|msg|] s']; [apply H|reflexivity..].
Qed.

Lemma bind_fst_neq {S A B : Type} (m : M S A) (k : A -> M S B) (s : S) (b : B) :
  (forall a s', fst (k a s') <> Ok b) -> fst (bind m k s) <> Ok b.
Proof.
  intros H. unfold bind. destruct (m s) as [[a|msg|] s']; [apply H|discriminate..].
Qed.

Lemma AccessSource_loop_cut (stop : Wakeup) (ws ws' : list Wakeup)
    (d backoff : Duration) (st : St AccessSource) :
  stop <> WTick ->
  AccessSource_loop (ws ++ stop :: ws') d backoff st =
  AccessSource_loop (ws ++ [stop]) d backoff st.
Proof.
  intros Hstop. revert backoff st.
  induction ws as [|w ws IH]; intros backoff st.
  { destruct stop; [reflexivity|congruence|reflexivity]. }
  destruct w; cbn [app AccessSource_loop]; try reflexivity.
  apply bind_ext_at. intros _ st1.
  apply bind_ext_at. intros err st2.
  apply bind_ext_at. intros nb st3.
  apply bind_ext_at. intros _ st4. apply IH.
Qed.

Lemma AccessSource_loop_exits (stop : Wakeup) (ws : list Wakeup)
    (d backoff b : Duration) (st : St AccessSource) :
  stop <> WTick ->
  fst (AccessSource_loop (ws ++ [stop]) d backoff st) <> Ok (Waiting b).
Proof.
  intros Hstop. revert backoff st.
  induction ws as [|w ws IH]; intros backoff st.
  { destruct stop; [discriminate|congruence|discriminate]. }
  destruct w; cbn [app AccessSource_loop]; try discriminate.
  apply bind_fst_neq. intros _ st1.
  apply bind_fst_neq. intros err st2.
  apply bind_fst_neq. intros nb st3.
  apply bind_fst_neq. intros _ st4. apply IH.
Qed.

(** X22.  Once the stop channel or the timer channel is closed the
    refresh loop returns: whatever would have woken it afterwards is
    never acted on, and the loop is not left waiting. *)
Theorem X22_refresh_loop_stops
    (ws ws' : list Wakeup) (d backoff : Duration) (st : St AccessSource) :
  AccessSource_loop (ws ++ WStop :: ws') d backoff st =
    AccessSource_loop (ws ++ [WStop]) d backoff st /\
  AccessSource_loop (ws ++ WTimerClosed :: ws') d backoff st =
    AccessSource_loop (ws ++ [WTimerClosed]) d backoff st /\
  (forall b, fst (AccessSource_loop (ws ++ [WStop]) d backoff st) <> Ok (Waiting b)) /\
  (forall b, fst (AccessSource_loop (ws ++ [WTimerClosed]) d backoff st) <> Ok (Waiting b)).
Proof.
  split; [apply AccessSource_loop_cut; discriminate|].
  split; [apply AccessSource_loop_cut; discriminate|].
  split; intros b; apply AccessSource_loop_exits; discriminate.
Qed.

End WatcherProperties.

Section FileWatcherProperties.
Context `{L : Lib}.

Lemma reloadStep_refl (st : St CertWatcher) : reloadStep st st.
Proof.
  unfold reloadStep. repeat split; try tauto. exists []. symmetry. apply app_nil_r.
Qed.

Lemma reloadStep_trans (a b c : St CertWatcher) :
  reloadStep a b -> reloadStep b c -> reloadStep a c.
Proof.
  unfold reloadStep.
  intros (Hw & Hc & Hk & Hh & Hl & tr & Ht) (Hw' & Hc' & Hk' & Hh' & Hl' & tr' & Ht').
  repeat split; try congruence; [tauto|].
  exists (tr ++ tr'). rewrite Ht', Ht. symmetry. apply app_assoc.
Qed.

Lemma reloadOnly_ret {A} (a : A) : reloadOnly (ret a).
Proof.
  intros st r st' [= <- <-]. split; [apply reloadStep_refl|].
  split; [discriminate|]. intros _. eexists. reflexivity.
Qed.

Lemma reloadOnly_bind {A B} (m : M (St CertWatcher) A) (k : A -> M (St CertWatcher) B) :
  reloadOnly m -> (forall a, reloadOnly (k a)) -> reloadOnly (bind m k).
Proof.
  intros Hm Hk st r st' H. unfold bind in H.
  destruct (m st) as [[a|msg|] st1] eqn:Hrun; apply Hm in Hrun;
    destruct Hrun as (Hstep & Hnb & Hok).
  - apply Hk in H. destruct H as (Hstep' & Hnb' & Hok').
    split; [eapply reloadStep_trans; eassumption|]. split; [exact Hnb'|].
    intros Hw. apply Hok'. destruct Hstep as (-> & _). exact Hw.
  - injection H as <- <-. split; [exact Hstep|]. split; [discriminate|].
    intros Hw. destruct (Hok Hw) as [a Ha]. discriminate.
  - congruence.
Qed.

Lemma reloadOnly_emit (e : Event) : reloadOnly (liftSys (emit e)).
Proof.
  intros st r st' [= <- <-].
  split; [unfold reloadStep; simpl; repeat split; try tauto; eexists; reflexivity|].
  split; [discriminate|]. intros _. eexists. reflexivity.
Qed.

Lemma reloadOnly_call {A} (f : World -> A * World) : reloadOnly (liftSys (call f)).
Proof.
  intros st r st' H. unfold liftSys, call in H.
  destruct (f (world (sys st))) as [a w]. injection H as <- <-.
  split; [unfold reloadStep; simpl; repeat split; try tauto;
          exists []; symmetry; apply app_nil_r|].
  split; [discriminate|]. intros _. eexists. reflexivity.
Qed.

Lemma reloadOnly_Add (f : string) : reloadOnly (CertWatcher_Add f).
Proof.
  intros st r st' H. unfold CertWatcher_Add, getThis in H. unfold bind at 1 in H.
  cbv beta iota in H.
  destruct (watcher (this st)) as [w|] eqn:Hw.
  - assert (Ho : reloadOnly (let* _ := liftSys (emit (EvWatcherAdd f)) in
                             liftSys (call (Watcher_Add w f)))).
    { apply reloadOnly_bind; [apply reloadOnly_emit|].
      intros _. apply reloadOnly_call. }
    apply Ho in H. simpl in H. rewrite Hw in H. exact H.
  - injection H as <- <-. split; [apply reloadStep_refl|]. split; [discriminate|].
    intros [? [=]].
Qed.

Lemma CertWatcher_ReadCertificate_run (st : St CertWatcher) :
  CertWatcher_ReadCertificate st =
  let t := this st in
  let load := EvLoadX509KeyPair (certPath t) (keyPath t) in
  match tls_LoadX509KeyPair (certPath t) (keyPath t) (world (sys st)) with
  | (Failure err, w1) =>
      (Ok (Some err),
       {| this := t;
          sys := {| heap := heap (sys st); world := w1;
                    trace := trace (sys st) ++ [load] |} |})
  | (Success c, w1) =>
      (Ok None,
       {| this := {| cw_currentCert := Some c; watcher := watcher t;
                     certPath := certPath t; keyPath := keyPath t |};
          sys := {| heap := heap (sys st); world := w1;
                    trace := trace (sys st) ++
                             [load; EvLock; EvUnlock;
                              EvLog "Updated current TLS certiface"] |} |})
  end.
Proof.
  destruct st as [t s]. unfold CertWatcher_ReadCertificate, CertWatcher_setCurrentCert,
    liftSys, getThis, setThis, call, emit, bind, ret. simpl.
  destruct (tls_LoadX509KeyPair (certPath t) (keyPath t) (world s)) as [[c|err] w1];
    simpl; [|reflexivity].
  rewrite <- !app_assoc. reflexivity.
Qed.

Lemma reloadOnly_ReadCertificate : reloadOnly CertWatcher_ReadCertificate.
Proof.
  intros st r st' H. rewrite CertWatcher_ReadCertificate_run in H. cbv zeta in H.
  destruct (tls_LoadX509KeyPair _ _ _) as [[c|err] w1]; injection H as <- <-;
    (split; [unfold reloadStep; simpl; repeat split; eauto|]);
    (split; [discriminate|]); intros _; eexists; reflexivity.
Qed.

Lemma reloadOnly_handleEvent (event : fsnotify_Event) :
  reloadOnly (CertWatcher_handleEvent event).
Proof.
  unfold CertWatcher_handleEvent.
  destruct (negb _); [apply reloadOnly_ret|].
  apply reloadOnly_bind; [apply reloadOnly_emit|]. intros _.
  apply reloadOnly_bind.
  { destruct (isRemove event); [|apply reloadOnly_ret].
    apply reloadOnly_bind; [apply reloadOnly_Add|].
    intros [e|]; [apply reloadOnly_emit|apply reloadOnly_ret]. }
  intros _. apply reloadOnly_bind; [apply reloadOnly_ReadCertificate|].
  intros [e|]; [apply reloadOnly_emit|apply reloadOnly_ret].
Qed.

Lemma reloadOnly_watch (ns : list Notification) : reloadOnly (CertWatcher_watch ns).
Proof.
  induction ns as [|n ns IH]; [apply reloadOnly_ret|].
  destruct n; cbn [CertWatcher_watch]; try apply reloadOnly_ret.
  - apply reloadOnly_bind; [apply reloadOnly_handleEvent|]. intros _. exact IH.
  - apply reloadOnly_bind; [apply reloadOnly_emit|]. intros _. exact IH.
Qed.

(** X15.  The event loop of the file watcher, on any sequence of
    notifications, never blocks inside a step, never changes the
    fsnotify watcher, the two paths or the heap, never unloads a
    certificate (a failed reload keeps the one that was loaded), and
    cannot panic once the fsnotify watcher is set. *)
Theorem X15_event_loop_keeps_certificate
    (ns : list Notification) (st : St CertWatcher) :
  let r := CertWatcher_watch ns st in
  fst r <> Blocked /\
  watcher (this (snd r)) = watcher (this st) /\
  certPath (this (snd r)) = certPath (this st) /\
  keyPath (this (snd r)) = keyPath (this st) /\
  heap (sys (snd r)) = heap (sys st) /\
  (is_Some (cw_currentCert (this st)) -> is_Some (cw_currentCert (this (snd r)))) /\
  (is_Some (watcher (this st)) -> exists status, fst r = Ok status).
Proof.
  intros r. subst r. destruct (CertWatcher_watch ns st) as [o st'] eqn:H.
  apply reloadOnly_watch in H.
  destruct H as ((Hw & Hc & Hk & Hh & Hl & _) & Hnb & Hok).
  simpl. tauto.
Qed.

Lemma land_bit (a : Z) (k : Z) :
  0 <= k -> Z.land a (2 ^ k) = if Z.testbit a k then 2 ^ k else 0.
Proof.
  intros Hk. apply Z.bits_inj'. intros n Hn.
  rewrite Z.land_spec, Z.pow2_bits_eqb by lia.
  destruct (Z.eqb_spec k n) as [->|Hne].
  - destruct (Z.testbit a n); simpl.
    + rewrite Z.pow2_bits_eqb by lia. symmetry. apply Z.eqb_refl.
    + symmetry. apply Z.bits_0.
  - rewrite andb_false_r. destruct (Z.testbit a k).
    + rewrite Z.pow2_bits_eqb by lia. symmetry. apply Z.eqb_neq. exact Hne.
    + symmetry. apply Z.bits_0.
Qed.

Lemma isCreate_bit (event : fsnotify_Event) :
  isCreate event = Z.testbit (Event_Op event) 0.
Proof.
  unfold isCreate, fsnotify_Create. rewrite (land_bit _ 0) by lia.
  destruct (Z.testbit _ 0); reflexivity.
Qed.

Lemma isWrite_bit (event : fsnotify_Event) :
  isWrite event = Z.testbit (Event_Op event) 1.
Proof.
  unfold isWrite, fsnotify_Write. rewrite (land_bit _ 1) by lia.
  destruct (Z.testbit _ 1); reflexivity.
Qed.

Lemma isRemove_bit (event : fsnotify_Event) :
  isRemove event = Z.testbit (Event_Op event) 2.
Proof.
  unfold isRemove, fsnotify_Remove. rewrite (land_bit _ 2) by lia.
  destruct (Z.testbit _ 2); reflexivity.
Qed.

Lemma relevant_mask (event : fsnotify_Event) :
  relevant event = negb (Z.land (Event_Op event) 7 =? 0).
Proof.
  unfold relevant. rewrite isWrite_bit, isRemove_bit, isCreate_bit.
  assert (E : Z.land (Event_Op event) 7 =
              Z.lor (Z.land (Event_Op event) (2 ^ 0))
                    (Z.lor (Z.land (Event_Op event) (2 ^ 1))
                           (Z.land (Event_Op event) (2 ^ 2))))
    by (rewrite <- !Z.land_lor_distr_r; reflexivity).
  rewrite E, !land_bit by lia.
  destruct (Z.testbit (Event_Op event) 0), (Z.testbit (Event_Op event) 1),
    (Z.testbit (Event_Op event) 2); reflexivity.
Qed.

Lemma reloadOnly_handleEvent_rest (event : fsnotify_Event) :
  reloadOnly
    (let* _ :=
       if isRemove event then
         let* e := CertWatcher_Add (Event_Name event) in
         match e with
         | Some _ => liftSys (emit (EvLog "error re-watching file"))
         | None => ret tt
         end
       else ret tt in
     let* e := CertWatcher_ReadCertificate in
     match e with
     | Some _ => liftSys (emit (EvLog "error re-reading certificate"))
     | None => ret tt
     end).
Proof.
  apply reloadOnly_bind.
  { destruct (isRemove event); [|apply reloadOnly_ret].
    apply reloadOnly_bind; [apply reloadOnly_Add|].
    intros [e|]; [apply reloadOnly_emit|apply reloadOnly_ret]. }
  intros _. apply reloadOnly_bind; [apply reloadOnly_ReadCertificate|].
  intros [e|]; [apply reloadOnly_emit|apply reloadOnly_ret].
Qed.

Lemma handleEvent_logged (event : fsnotify_Event) (st : St CertWatcher)
    (o : Outcome unit) (st' : St CertWatcher) :
  Z.land (Event_Op event) 7 <> 0 ->
  CertWatcher_handleEvent event st = (o, st') ->
  exists tr, trace (sys st') = trace (sys st) ++ EvLog "certificate event" :: tr.
Proof.
  intros E H.
  pose proof (relevant_mask event) as Hm. unfold relevant in Hm.
  unfold CertWatcher_handleEvent in H. rewrite Hm, negb_involutive in H.
  apply Z.eqb_neq in E. rewrite E in H.
  unfold bind at 1 in H. unfold liftSys at 1, emit at 1 in H. cbv beta iota in H.
  apply reloadOnly_handleEvent_rest in H.
  destruct H as ((_ & _ & _ & _ & _ & tr & Ht) & _).
  exists tr. rewrite Ht. simpl. rewrite <- app_assoc. reflexivity.
Qed.

(** X18.  [handleEvent] leaves everything as it is exactly for the
    events in which none of the bits Create (1), Write (2) and Remove
    (4) is set, that is, when [event.Op & 7 == 0]; for every other
    event the first thing it does is to log the event. *)
Theorem X18_handleEvent_filter (event : fsnotify_Event) (st : St CertWatcher) :
  (CertWatcher_handleEvent event st = (Ok tt, st) <->
   Z.land (Event_Op event) 7 = 0) /\
  (Z.land (Event_Op event) 7 <> 0 ->
   exists tr,
     trace (sys (snd (CertWatcher_handleEvent event st))) =
     trace (sys st) ++ EvLog "certificate event" :: tr).
Proof.
  split.
  - destruct (Z.eq_dec (Z.land (Event_Op event) 7) 0) as [E|E].
    + split; [intros _; exact E|]. intros _.
      pose proof (relevant_mask event) as Hm. unfold relevant in Hm.
      unfold CertWatcher_handleEvent. rewrite Hm, E. reflexivity.
    + split; [|intros E'; contradiction].
      intros H. exfalso.
      destruct (handleEvent_logged event st _ _ E H) as [tr Ht].
      apply (f_equal length) in Ht. rewrite length_app in Ht. simpl in Ht. lia.
  - intros E.
    destruct (CertWatcher_handleEvent event st) as [o st'] eqn:H.
    exact (handleEvent_logged event st o st' E H).
Qed.

Lemma handleEvent_remove_run
    (event : fsnotify_Event) (t : CertWatcher) (s : Sys) (w : Watcher) :
  isRemove event = true ->
  watcher t = Some w ->
  CertWatcher_handleEvent event {| this := t; sys := s |} =
  match Watcher_Add w (Event_Name event) (world s) with
  | (e, w1) =>
      let tr1 :=
        trace s ++
        [EvLog "certificate event"; EvWatcherAdd (Event_Name event)] ++
        match e with
        | Some _ => [EvLog "error re-watching file"]
        | None => []
        end ++ [EvLoadX509KeyPair (certPath t) (keyPath t)] in
      match tls_LoadX509KeyPair (certPath t) (keyPath t) w1 with
      | (Success c, w2) =>
          (Ok tt,
           {| this := {| cw_currentCert := Some c; watcher := watcher t;
                         certPath := certPath t; keyPath := keyPath t |};
              sys := {| heap := heap s; world := w2;
                        trace := tr1 ++ [EvLock; EvUnlock;
                                         EvLog "Updated current TLS certiface"] |} |})
      | (Failure _, w2) =>
          (Ok tt,
           {| this := t;
              sys := {| heap := heap s; world := w2;
                        trace := tr1 ++ [EvLog "error re-reading certificate"] |} |})
      end
  end.
Proof.
  intros Hrm Hw.
  unfold CertWatcher_handleEvent. rewrite Hrm, orb_true_r.
  unfold CertWatcher_Add, CertWatcher_ReadCertificate, CertWatcher_setCurrentCert,
    liftSys, getThis, setThis, call, emit, bind, ret. simpl. rewrite Hw. simpl.
  destruct (Watcher_Add w (Event_Name event) (world s)) as [[e|] w1]; simpl;
    destruct (tls_LoadX509KeyPair (certPath t) (keyPath t) w1) as [[c|err] w2]; simpl;
    rewrite <- !app_assoc, ?Hw; reflexivity.
Qed.

(** X19.  On an event with the Remove bit, with the fsnotify watcher
    set, [handleEvent] logs the event, re-adds the watch for the
    event's file name, logs a failure of that and goes on, and then
    reloads from the watcher's two paths; afterwards the current
    certificate is the one loaded if the load succeeded and the
    previous one if it failed. *)
Theorem X19_removed_file_is_rewatched
    (event : fsnotify_Event) (st : St CertWatcher) (w : Watcher) :
  isRemove event = true ->
  watcher (this st) = Some w ->
  let r := CertWatcher_handleEvent event st in
  let added := Watcher_Add w (Event_Name event) (world (sys st)) in
  let loaded :=
    tls_LoadX509KeyPair (certPath (this st)) (keyPath (this st)) (snd added) in
  fst r = Ok tt /\
  (exists rest,
      trace (sys (snd r)) =
      trace (sys st) ++
      [EvLog "certificate event"; EvWatcherAdd (Event_Name event)] ++
      match fst added with
      | Some _ => [EvLog "error re-watching file"]
      | None => []
      end ++
      EvLoadX509KeyPair (certPath (this st)) (keyPath (this st)) :: rest) /\
  cw_currentCert (this (snd r)) =
    match fst loaded with
    | Success c => Some c
    | Failure _ => cw_currentCert (this st)
    end.
Proof.
  intros Hrm Hw r added loaded. subst r added loaded.
  destruct st as [t s]. simpl in Hw. simpl this. simpl sys.
  rewrite (handleEvent_remove_run event t s w Hrm Hw).
  destruct (Watcher_Add w (Event_Name event) (world s)) as [e w1]. cbv zeta. simpl snd.
  destruct (tls_LoadX509KeyPair (certPath t) (keyPath t) w1) as [[c|err] w2]; simpl.
  - split; [reflexivity|]. split; [|reflexivity].
    exists [EvLock; EvUnlock; EvLog "Updated current TLS certiface"].
    destruct e; simpl; rewrite <- ?app_assoc; reflexivity.
  - split; [reflexivity|]. split; [|reflexivity].
    exists [EvLog "error re-reading certificate"].
    destruct e; simpl; rewrite <- ?app_assoc; reflexivity.
Qed.

(** X20.  [CertWatcher.ReadCertificate] followed by [GetCertificate]:
    when [tls.LoadX509KeyPair] on the watcher's two paths succeeds,
    [ReadCertificate] returns nil and [GetCertificate] then returns
    exactly the loaded pair; when it fails, [ReadCertificate] returns
    that error, the watcher is as before and [GetCertificate] returns
    the certificate that was current before.  [GetCertificate] always
    returns a nil error and changes nothing in the watcher. *)
Theorem X20_reload_then_get (st : St CertWatcher) :
  let r := CertWatcher_ReadCertificate st in
  let g := CertWatcher_GetCertificate (snd r) in
  match fst (tls_LoadX509KeyPair (certPath (this st)) (keyPath (this st))
               (world (sys st))) with
  | Success c => fst r = Ok None /\ fst g = Ok (Some c, None)
  | Failure err =>
      fst r = Ok (Some err) /\ this (snd r) = this st /\
      fst g = Ok (cw_currentCert (this st), None)
  end /\
  this (snd g) = this (snd r).
Proof.
  cbv zeta. rewrite CertWatcher_ReadCertificate_run. cbv zeta.
  destruct (tls_LoadX509KeyPair (certPath (this st)) (keyPath (this st))
              (world (sys st))) as [[c|err] w1]; simpl; repeat split.
Qed.

Lemma file_New_run (done : Chan) (cp kp : string) (s : Sys) :
  file_New done cp kp s =
  let cw0 := {| cw_currentCert := None; watcher := None;
                certPath := cp; keyPath := kp |} in
  let sys_ w tr := {| heap := heap s; world := w; trace := trace s ++ tr |} in
  let load := EvLoadX509KeyPair cp kp in
  match tls_LoadX509KeyPair cp kp (world s) with
  | (Failure err, w1) => (Ok (Failure err), sys_ w1 [load])
  | (Success c, w1) =>
      let loaded := [load; EvLock; EvUnlock;
                     EvLog "Updated current TLS certiface"; EvNewWatcher] in
      match fsnotify_NewWatcher w1 with
      | (Failure err, w2) => (Ok (Failure err), sys_ w2 loaded)
      | (Success w, w2) =>
          let cw := {| cw_currentCert := Some c; watcher := Some w;
                       certPath := cp; keyPath := kp |} in
          match Watcher_Add w cp w2 with
          | (Some _, w3) => (Ok (Success cw), sys_ w3 (loaded ++ [EvWatcherAdd cp]))
          | (None, w3) =>
              match Watcher_Add w kp w3 with
              | (Some _, w4) =>
                  (Ok (Success cw),
                   sys_ w4 (loaded ++ [EvWatcherAdd cp; EvWatcherAdd kp]))
              | (None, w4) =>
                  let running := loaded ++ [EvWatcherAdd cp; EvWatcherAdd kp;
                                            EvGo "watch";
                                            EvLog "Starting certificate watcher"] in
                  match done with
                  | NeverClosed => (Blocked, sys_ w4 running)
                  | EventuallyClosed =>
                      (Ok (Success cw),
                       sys_ (snd (Watcher_Close w w4))
                            (running ++ [EvRecvStop; EvWatcherClose]))
                  end
              end
          end
      end
  end.
Proof.
  destruct s as [h w0 tr].
  unfold file_New, CertWatcher_ReadCertificate, CertWatcher_setCurrentCert,
    CertWatcher_setWatcher, CertWatcher_start, CertWatcher_addAll, CertWatcher_Add,
    recv, liftSys, getThis, setThis, call, emit, bind, ret. simpl.
  destruct (tls_LoadX509KeyPair cp kp w0) as [[c|err] w1]; simpl; [|reflexivity].
  destruct (fsnotify_NewWatcher w1) as [[w|err] w2]; simpl;
    [|rewrite <- !app_assoc; reflexivity].
  destruct (Watcher_Add w cp w2) as [[e|] w3]; simpl;
    [rewrite <- !app_assoc; reflexivity|].
  destruct (Watcher_Add w kp w3) as [[e|] w4]; simpl;
    [rewrite <- !app_assoc; reflexivity|].
  destruct done; simpl; [|rewrite <- !app_assoc; reflexivity].
  destruct (Watcher_Close w w4) as [e w5]; simpl.
  rewrite <- !app_assoc. reflexivity.
Qed.

Lemma started_app (f : string) (a b : list Event) :
  started f (a ++ b) = started f a || started f b.
Proof. unfold started. apply existsb_app. Qed.

(** X21.  The outcomes of [file.New].  It never panics.  It returns an
    error only when the initial load or [fsnotify.NewWatcher] fails:
    the error is theirs, and no watch was added and no event loop
    started.  It blocks only with a context that is never cancelled,
    the event loop running.  When it returns a watcher, the watcher
    has a certificate and the given paths, and either the event loop
    was never started, or the context was cancelled and the last thing
    [New] did was to close the fsnotify watcher: [New] never hands
    back a watcher whose event loop still receives events. *)
Theorem X21_file_New_outcomes (done : Chan) (cp kp : string) (s : Sys) :
  exists tr,
    trace (snd (file_New done cp kp s)) = trace s ++ tr /\
    heap (snd (file_New done cp kp s)) = heap s /\
    match fst (file_New done cp kp s) with
    | Ok (Failure err) =>
        (fst (tls_LoadX509KeyPair cp kp (world s)) = Failure err \/
         fst (fsnotify_NewWatcher (snd (tls_LoadX509KeyPair cp kp (world s)))) =
           Failure err) /\
        started "watch" tr = false /\
        Forall (fun e => forall path, e <> EvWatcherAdd path) tr
    | Ok (Success cw) =>
        is_Some (cw_currentCert cw) /\ is_Some (watcher cw) /\
        certPath cw = cp /\ keyPath cw = kp /\
        (started "watch" tr = false \/
         (done = EventuallyClosed /\
          exists pre, tr = pre ++ [EvRecvStop; EvWatcherClose]))
    | Blocked =>
        done = NeverClosed /\
        exists pre, tr = pre ++ [EvGo "watch"; EvLog "Starting certificate watcher"]
    | Panic _ => False
    end.
Proof.
  rewrite file_New_run. cbv zeta.
  destruct (tls_LoadX509KeyPair cp kp (world s)) as [[c|err] w1].
  2:{ eexists. simpl. split; [reflexivity|]. split; [reflexivity|].
      split; [left; reflexivity|].
      split; [reflexivity|]. repeat constructor. discriminate. }
  simpl snd.
  destruct (fsnotify_NewWatcher w1) as [[w|err] w2].
  2:{ eexists. simpl. split; [reflexivity|]. split; [reflexivity|].
      split; [right; reflexivity|].
      split; [reflexivity|]. repeat constructor; discriminate. }
  destruct (Watcher_Add w cp w2) as [[e|] w3].
  { eexists. simpl. split; [reflexivity|]. split; [reflexivity|].
    repeat split; eauto. }
  destruct (Watcher_Add w kp w3) as [[e|] w4].
  { eexists. simpl. split; [reflexivity|]. split; [reflexivity|].
    repeat split; eauto. }
  destruct done.
  - eexists. simpl. split; [reflexivity|]. split; [reflexivity|].
    repeat split; eauto. right. split; [reflexivity|].
    exists [EvLoadX509KeyPair cp kp; EvLock; EvUnlock;
            EvLog "Updated current TLS certiface"; EvNewWatcher;
            EvWatcherAdd cp; EvWatcherAdd kp;
            EvGo "watch"; EvLog "Starting certificate watcher"]. reflexivity.
  - eexists. simpl. split; [reflexivity|]. split; [reflexivity|].
    split; [reflexivity|].
    exists [EvLoadX509KeyPair cp kp; EvLock; EvUnlock;
            EvLog "Updated current TLS certiface"; EvNewWatcher;
            EvWatcherAdd cp; EvWatcherAdd kp]. reflexivity.
Qed.

Lemma CertWatcher_watch_cut (close : Notification) (ns ns' : list Notification)
    (st : St CertWatcher) :
  close = NEventsClosed \/ close = NErrorsClosed ->
  CertWatcher_watch (ns ++ close :: ns') st = CertWatcher_watch (ns ++ [close]) st /\
  fst (CertWatcher_watch (ns ++ [close]) st) <> Ok (Waiting 0).
Proof.
  intros Hclose. revert st. induction ns as [|n ns IH]; intros st.
  { destruct Hclose as [-> | ->]; split; try reflexivity; discriminate. }
  destruct n; cbn [app CertWatcher_watch];
    try (split; [reflexivity|discriminate]).
  - split.
    + apply bind_ext_at. intros _ st1. apply IH.
    + apply bind_fst_neq. intros _ st1. apply IH.
  - split.
    + apply bind_ext_at. intros _ st1. apply IH.
    + apply bind_fst_neq. intros _ st1. apply IH.
Qed.

(** X23.  The event loop of the file watcher returns when the Events
    or the Errors channel is closed: notifications after that are
    never handled.  An error from the Errors channel is only logged:
    the watcher, the world and the heap stay as they are and the loop
    goes on. *)
Theorem X23_event_loop_stops_and_logs_errors
    (ns ns' : list Notification) (errs : list error) (st : St CertWatcher) :
  CertWatcher_watch (ns ++ NEventsClosed :: ns') st =
    CertWatcher_watch (ns ++ [NEventsClosed]) st /\
  CertWatcher_watch (ns ++ NErrorsClosed :: ns') st =
    CertWatcher_watch (ns ++ [NErrorsClosed]) st /\
  fst (CertWatcher_watch (ns ++ [NEventsClosed]) st) <> Ok (Waiting 0) /\
  fst (CertWatcher_watch (ns ++ [NErrorsClosed]) st) <> Ok (Waiting 0) /\
  CertWatcher_watch (map NError errs ++ ns) st =
    CertWatcher_watch ns
      {| this := this st;
         sys := {| heap := heap (sys st); world := world (sys st);
                   trace := trace (sys st) ++
                            replicate (length errs)
                                      (EvLog "certificate watch error") |} |}.
Proof.
  split; [apply CertWatcher_watch_cut; auto|].
  split; [apply CertWatcher_watch_cut; auto|].
  split; [apply (CertWatcher_watch_cut NEventsClosed ns []); auto|].
  split; [apply (CertWatcher_watch_cut NErrorsClosed ns []); auto|].
  revert st. induction errs as [|e errs IH]; intros st.
  { simpl. rewrite app_nil_r. destruct st as [t [h w tr]]. reflexivity. }
  cbn [map app CertWatcher_watch length replicate].
  unfold bind at 1. unfold liftSys at 1, emit at 1. cbv beta iota.
  rewrite IH. simpl. rewrite <- app_assoc. reflexivity.
Qed.

End FileWatcherProperties.

(** * The program on concrete inputs *)

Import Toy.

Lemma bytes_eqb_refl (a : list byte) : bytes_eqb a a = true.
Proof.
  induction a as [|x a IH]; [reflexivity|].
  simpl. rewrite IH. destruct x; reflexivity.
Qed.

Lemma slice_eqb_false (a b : slice) : slice_eqb a b = false -> a <> b.
Proof.
  intros H E. subst b. destruct a as [a|]; [|discriminate].
  simpl in H. rewrite bytes_eqb_refl in H. discriminate.
Qed.

Lemma run_eq {S A : Type} (m : M S A) (s : S) (o : Outcome A) :
  fst (m s) = o -> m s = (o, snd (m s)).
Proof. destruct (m s); simpl; congruence. Qed.

(** The bundle issued from nil under [cfg0] passes the check and is
    handed back. *)
Lemma witness_C1 :
  exists s',
    UpdateCertificate (Some O) cfg0 s_issued = (Ok (Success (Some O)), s') /\
    heap s' !! O = Some b_issued /\
    heap s' = heap s_issued ++ [b_issued] /\
    world s' = snd (time_Now (world s_issued)) /\
    trace s' = trace s_issued ++ [EvPrintf "val: %!s(<nil>)"].
Proof.
  apply (C1_valid_bundle_returned_unchanged O b_issued cfg0 "svc.ns" [] s_issued).
  - vm_compute. reflexivity.
  - reflexivity.
  - vm_compute. reflexivity.
Defined.

(** A refresh while the store is down, and a reload after the files
    have gone, leave the watchers as they were. *)
Lemma witness_C2 :
  (this (snd (AccessSource_ReadCertificate (st_outage 1))) = this (st_outage 1) /\
   fst (AccessSource_GetCertificate (snd (AccessSource_ReadCertificate (st_outage 1)))) =
     Ok (currentCert (this (st_outage 1)), None)) /\
  (this (snd (CertWatcher_ReadCertificate st_gone)) = this st_gone /\
   fst (CertWatcher_GetCertificate (snd (CertWatcher_ReadCertificate st_gone))) =
     Ok (cw_currentCert (this st_gone), None)).
Proof.
  split.
  - apply (proj1 C2_failed_refresh_keeps_certificate (st_outage 1) _ "store unavailable").
    apply run_eq. vm_compute. reflexivity.
  - apply (proj2 C2_failed_refresh_keeps_certificate st_gone _
             "open: no such file or directory").
    apply run_eq. vm_compute. reflexivity.
Defined.

(** C3, as stated, fails: a watcher that has never loaded a certificate
    returns the absent certificate with a nil error. *)
Lemma counterexample_C3 :
  currentCert (this st_never) = None /\
  fst (AccessSource_GetCertificate st_never) = Ok (None, None).
Proof. split; reflexivity. Qed.

(** C4, as stated, fails: without a common name nothing is returned but
    an error; and with a validity shorter than the renewal lookahead the
    bundle just issued is replaced when fed back. *)
Lemma counterexample_C4 :
  fst (UpdateCertificate None cfg_nocn s0) =
    Ok (Failure "failed to create the server certmgmt: must specify a CommonName") /\
  fst (UpdateCertificate None cfg_short s0) = Ok (Success (Some O)) /\
  fst (UpdateCertificate (Some O) cfg_short (snd (UpdateCertificate None cfg_short s0))) =
    Ok (Success (Some 1%nat)).
Proof. repeat split; vm_compute; reflexivity. Qed.

Lemma witness_C4 :
  exists (p : ptr) (n : info) (dnsname : string) (names : list string),
    Some O = Some p /\ Some O <> (None : CertificateInfo) /\
    DnsNames cfg0 = dnsname :: names /\
    heap s_issued !! p = Some n /\
    is_Some (cert n) /\ is_Some (key n) /\ is_Some (cacert n) /\ is_Some (cakey n) /\
    (fst (IsValid_on n dnsname (Rest cfg0) (world s_issued)) = Ok true ->
     exists s'', UpdateCertificate (Some O) cfg0 s_issued = (Ok (Success (Some O)), s'') /\
                 heap s'' !! p = Some n) /\
    (fst (IsValid_on n dnsname (Rest cfg0) (world s_issued)) = Ok false ->
     forall r2 s'', UpdateCertificate (Some O) cfg0 s_issued = (Ok (Success r2), s'') ->
                    r2 <> Some O).
Proof.
  apply (C4_issue_from_nil cfg0 s0 s_issued (Some O)).
  apply (run_eq (UpdateCertificate None cfg0) s0). vm_compute. reflexivity.
Defined.

(** C5, as stated, fails: the CA certificate is present and valid
    against itself 5 days ahead and the CA key parses as an RSA key, yet
    both CA fields are replaced, because the CA certificate PEM does
    not parse in full. *)
Lemma counterexample_C5 :
  fst (IsValid_on b_trailing "svc.ns" (Rest cfg0) (world s_trailing)) = Ok false /\
  caUsable_spec b_trailing (world s_trailing) = true /\
  fst (UpdateCertificate (Some O) cfg0 s_trailing) = Ok (Success (Some 1%nat)) /\
  exists n : info,
    heap (snd (UpdateCertificate (Some O) cfg0 s_trailing)) !! 1%nat = Some n /\
    cacert n <> cacert b_trailing /\ cakey n <> cakey b_trailing.
Proof.
  split; [vm_compute; reflexivity|]. split; [vm_compute; reflexivity|].
  split; [vm_compute; reflexivity|].
  exists (default nil_info (heap (snd (UpdateCertificate (Some O) cfg0 s_trailing)) !! 1%nat)).
  split; [vm_compute; reflexivity|].
  split; apply slice_eqb_false; vm_compute; reflexivity.
Qed.

(** With a usable CA the server certificate is reissued under the same
    CA bytes. *)
Lemma witness_C5 :
  exists n : info,
    heap (snd (UpdateCertificate (Some O) cfg0 s_nocert)) !! 1%nat = Some n /\
    cacert n = cacert b_nocert /\ cakey n = cakey b_nocert.
Proof.
  destruct (C5_ca_kept_or_reissued (Some O) cfg0 s_nocert
              (snd (UpdateCertificate (Some O) cfg0 s_nocert)) b_nocert "svc.ns" []
              (Some 1%nat))
    as (n & caCert & serial & now & pre & _ & Hn & _ & Hca).
  - reflexivity.
  - reflexivity.
  - vm_compute. reflexivity.
  - apply (run_eq (UpdateCertificate (Some O) cfg0) s_nocert). vm_compute. reflexivity.
  - exists n. split; [exact Hn|].
    replace (caUsable b_nocert
               (world (snd (IsValid_on b_nocert "svc.ns" (Rest cfg0) (world s_nocert)))))
      with true in Hca by (vm_compute; reflexivity).
    exact Hca.
Defined.

(** C6, as stated, fails: the serial number drawn can be 0, which is
    not positive. *)
Lemma counterexample_C6 :
  fst (signed [0]) = Ok (Success (cert_signed [0])) /\
  SerialNumber (cert_signed [0]) = 0 /\
  ~ 0 < SerialNumber (cert_signed [0]).
Proof.
  split; [vm_compute; reflexivity|].
  assert (E : SerialNumber (cert_signed [0]) = 0) by (vm_compute; reflexivity).
  split; [exact E|]. rewrite E. lia.
Qed.

Lemma witness_C6 :
  exists (serial : Z) (now : Time) (w1 w2 w3 : ToyWorld) (der : list byte) (tmpl : TCert),
    cryptorand_Int MaxInt64 (world (s_signing [33])) = (Success serial, w1) /\
    time_Now w1 = (now, w2) /\
    x509_CreateCertificate tmpl ca0 (Signer_Public (SignerRSA 22)) (SignerRSA 11) w2 =
      (Success der, w3) /\
    x509_ParseCertificate der = Success (cert_signed [33]) /\
    trace (snd (signed [33])) = trace (s_signing [33]) ++ [EvCreateCertificate tmpl] /\
    SerialNumber tmpl = serial /\ 0 <= serial < 2 ^ 63 - 1 /\
    NotBefore tmpl = NotBefore ca0 /\
    NotAfter tmpl = now + Validity cfg0 /\
    KeyUsage tmpl = Z.lor KeyUsageKeyEncipherment KeyUsageDigitalSignature /\
    ExtKeyUsage tmpl = [ExtKeyUsageServerAuth] /\
    DNSNames tmpl = DnsNames cfg0 /\
    Name_CommonName (Subject tmpl) = CommonName cfg0.
Proof.
  apply (C6_server_certificate_template (L := toy) cfg0 22 11 ca0 (cert_signed [33]) (s_signing [33])).
  apply (run_eq (NewSignedCert (L := toy) (serverConfig cfg0) (SignerRSA 22) ca0
                   (SignerRSA 11) (Validity cfg0)) (s_signing [33])).
  vm_compute. reflexivity.
Defined.

Lemma triple_eq {A B C : Type} (x : A * (B * C)) (a : A) :
  fst x = a -> x = (a, (fst (snd x), snd (snd x))).
Proof. destruct x as [a' [b c]]; simpl; congruence. Qed.

(** The running watcher, refreshed while its bundle is still good,
    stops right after [UpdateCertificate]. *)
Lemma witness_C7 :
  AccessSource_ReadCertificate st_running =
  (Ok None, {| this := this st_running; sys := s_updated |}).
Proof.
  assert (HGet : access_Get (access (this st_running)) (heap (sys st_running))
                   (world (sys st_running)) = (Success (Some 1%nat), (h_got, w_got))).
  { apply (triple_eq got_running). vm_compute. reflexivity. }
  assert (HUpd : UpdateCertificate (Some 1%nat) (config (this st_running))
                   {| heap := h_got; world := w_got;
                      trace := trace (sys st_running) ++ [EvGet] |} =
                 (Ok (Success (Some 1%nat)), s_updated)).
  { apply run_eq. vm_compute. reflexivity. }
  apply (proj1 (C7_no_change_no_write st_running (Some 1%nat) (Some 1%nat)
                  h_got w_got s_updated HGet HUpd)).
  split; [reflexivity|]. vm_compute. eexists. reflexivity.
Defined.

(** C8, as stated, fails: the delay after the eleventh failure in a
    row is not 1.5 times the delay after the tenth. *)
Lemma counterexample_C8 :
  let ds := delays (trace (sys (snd (AccessSource_watch (replicate 12 WTick)
                                       (st_outage 12))))) in
  ds !! 10%nat = Some 38443359375 /\
  ds !! 11%nat = Some 57665039062 /\
  2 * 57665039062 <> 3 * 38443359375.
Proof. split; [|split]; [vm_compute; reflexivity ..|lia]. Qed.

(** Three failed refreshes, then a good one: 10 minutes, 1s, 1.5s,
    2.25s, and 10 minutes again. *)
Example outage_of_three :
  delays (trace (sys (snd (AccessSource_watch [WTick; WTick; WTick; WTick]
                             (st_outage 3))))) =
  [600000000000; 1000000000; 1500000000; 2250000000; 600000000000].
Proof. vm_compute. reflexivity. Qed.

Lemma witness_C8 :
  AccessSource_loop [WTick] (10 * Minute) (1 * Second) (st_outage 1) =
  AccessSource_loop [] (10 * Minute) (nextBackoff (1 * Second))
    {| this := this (snd (AccessSource_ReadCertificate
                            {| this := this (st_outage 1);
                               sys := after (sys (st_outage 1))
                                        [EvLog "reconciling certificate %s"] |}));
       sys := after (sys (snd (AccessSource_ReadCertificate
                                 {| this := this (st_outage 1);
                                    sys := after (sys (st_outage 1))
                                             [EvLog "reconciling certificate %s"] |})))
                [EvLog "cannot reconcile certificate %s: %s (backoff=%s)";
                 EvTimerReset (1 * Second)] |}.
Proof.
  apply (proj1 (proj2 C8_refresh_schedule) [] (10 * Minute) (1 * Second) (st_outage 1) _
           (Some "store unavailable")).
  apply run_eq. vm_compute. reflexivity.
Defined.

(** With both files in place and watchable, [New] does not return
    while the context is not cancelled. *)
Lemma witness_C9 :
  let started_up :=
    [EvLoadX509KeyPair "tls.crt" "tls.key"; EvLock; EvUnlock;
     EvLog "Updated current TLS certiface"; EvNewWatcher;
     EvWatcherAdd "tls.crt"; EvWatcherAdd "tls.key";
     EvGo "watch"; EvLog "Starting certificate watcher"] in
  file_New NeverClosed "tls.crt" "tls.key" s_files =
    (Blocked, {| heap := heap s_files; world := world s_files;
                 trace := trace s_files ++ started_up |}) /\
  file_New EventuallyClosed "tls.crt" "tls.key" s_files =
    (Ok (Success {| cw_currentCert := Some cert0; watcher := Some tt;
                    certPath := "tls.crt"; keyPath := "tls.key" |}),
     {| heap := heap s_files; world := world s_files;
        trace := trace s_files ++ started_up ++ [EvRecvStop; EvWatcherClose] |}).
Proof.
  apply (C9_New_waits_for_cancellation "tls.crt" "tls.key" s_files cert0 tt
           (world s_files) (world s_files) (world s_files) (world s_files)
           (world s_files) None).
  - vm_compute. reflexivity.
  - reflexivity.
  - vm_compute. reflexivity.
  - vm_compute. reflexivity.
  - reflexivity.
Defined.

(** With a key file that cannot be watched, [New] returns the watcher
    and no error, and later notifications change nothing. *)
Lemma witness_C10 :
  let cw := {| cw_currentCert := Some cert0; watcher := Some tt;
               certPath := "tls.crt"; keyPath := "tls.key" |} in
  let s' := {| heap := heap s_unwatchable; world := world s_unwatchable;
               trace := trace s_unwatchable ++
                        [EvLoadX509KeyPair "tls.crt" "tls.key"; EvLock; EvUnlock;
                         EvLog "Updated current TLS certiface"; EvNewWatcher] ++
                        [EvWatcherAdd "tls.crt"; EvWatcherAdd "tls.key"] |} in
  file_New NeverClosed "tls.crt" "tls.key" s_unwatchable = (Ok (Success cw), s') /\
  started "watch" (trace s') = false /\
  forall ns : list Notification,
    CertWatcher_deliver ns {| this := cw; sys := s' |} =
    (Ok tt, {| this := cw; sys := s' |}).
Proof.
  apply (C10_failed_watch_is_ignored NeverClosed "tls.crt" "tls.key" s_unwatchable cert0 tt
           (world s_unwatchable) (world s_unwatchable) (world s_unwatchable)
           [EvWatcherAdd "tls.crt"; EvWatcherAdd "tls.key"]).
  - reflexivity.
  - vm_compute. reflexivity.
  - reflexivity.
  - right. split; [|reflexivity].
    exists "no such file or directory", (world s_unwatchable).
    split; vm_compute; reflexivity.
Defined.

(** ** Further runs *)

Import ToyMore.

(** The bundle of the first issuance passes [Valid] one hour ahead. *)
Lemma witness_X2 :
  len (cert b_issued) <> O /\ len (key b_issued) <> O /\ len (cacert b_issued) <> O /\
  exists (pair : TLSCertificate) (pool : CertPool) (block : pem_Block) (x : Cert),
    tls_X509KeyPair (bytes (cert b_issued)) (bytes (key b_issued)) = Success pair /\
    CertPool_AppendCertsFromPEM x509_NewCertPool (bytes (cacert b_issued)) = (pool, true) /\
    fst (pem_Decode (bytes (cert b_issued))) = Some block /\
    x509_ParseCertificate (Block_Bytes block) = Success x /\
    Certificate_Verify x
      {| vo_DNSName := "svc.ns"; vo_Roots := pool;
         vo_CurrentTime := fst (time_Now (world s_issued)) + Hour |} = None.
Proof.
  apply (proj1 (X2_Valid_true_iff (key b_issued) (cert b_issued) (cacert b_issued)
                  "svc.ns" Hour s_issued)).
  vm_compute. reflexivity.
Defined.

(** A bundle without server certificate and key is rejected without a
    look at the clock. *)
Lemma witness_X4 :
  exists msg : string,
    IsValid (Some O) "svc.ns" Hour s_nocert = (Ok false, after s_nocert [EvPrintf msg]).
Proof.
  apply (X4_IsValid_incomplete O b_nocert "svc.ns" Hour s_nocert).
  - reflexivity.
  - left. reflexivity.
Defined.

(** Without a common name the error names the server certificate. *)
Lemma witness_X6 :
  (exists e, "failed to create the server certmgmt: must specify a CommonName" =
             "failed to create the CA key pair: " +:+ e) \/
  (exists e, "failed to create the server certmgmt: must specify a CommonName" =
             "failed to create the CA certmgmt: " +:+ e) \/
  (exists e, "failed to create the server certmgmt: must specify a CommonName" =
             "failed to create the server key pair: " +:+ e) \/
  (exists e, "failed to create the server certmgmt: must specify a CommonName" =
             "failed to create the server certmgmt: " +:+ e).
Proof.
  apply (X6_UpdateCertificate_errors None cfg_nocn s0).
  vm_compute. reflexivity.
Defined.

(** Without DNS names the call panics, with a valid bundle at hand. *)
Lemma witness_X7 :
  exists msg : string,
    fst (UpdateCertificate (Some O) cfg_nonames s_issued) = Panic msg /\
    world (snd (UpdateCertificate (Some O) cfg_nonames s_issued)) = world s_issued /\
    trace (snd (UpdateCertificate (Some O) cfg_nonames s_issued)) = trace s_issued.
Proof.
  apply (X7_UpdateCertificate_no_names (Some O) cfg_nonames s_issued).
  reflexivity.
Defined.

(** Without a common name a valid bundle is still handed back. *)
Lemma witness_X8 : Some O = (Some O : CertificateInfo).
Proof.
  apply (X8_UpdateCertificate_no_common_name (Some O) (Some O) cfg_nocn s_issued).
  - reflexivity.
  - vm_compute. reflexivity.
Defined.

Lemma witness_X9 :
  ((Some O : CertificateInfo) = Some O <->
   fst (IsValid_on b_issued "svc.ns" (Rest cfg0) (world s_issued)) = Ok true) /\
  ((Some O : CertificateInfo) <> Some O <-> Some O = Some (length (heap s_issued))).
Proof.
  apply (X9_UpdateCertificate_identity (Some O) (Some O) cfg0 s_issued b_issued "svc.ns" []).
  - vm_compute. reflexivity.
  - reflexivity.
  - vm_compute. reflexivity.
Defined.

(** The bundle without server certificate and key is replaced by a new
    one at the next address. *)
Lemma witness_X10 :
  (Some 1%nat : CertificateInfo) <> Some O /\
  exists n : info,
    Some 1%nat = Some (length (heap s_nocert)) /\
    heap (snd (UpdateCertificate (Some O) cfg0 s_nocert)) !! length (heap s_nocert) =
      Some n /\
    is_Some (cert n) /\ is_Some (key n) /\ is_Some (cacert n).
Proof.
  apply (X10_incomplete_bundle_is_reissued (Some O) (Some 1%nat) cfg0 s_nocert b_nocert).
  - reflexivity.
  - left. reflexivity.
  - vm_compute. reflexivity.
Defined.

(** Signing without a common name draws a serial number and stops. *)
Lemma witness_X11 :
  NewSignedCert (serverConfig cfg_nocn) (SignerRSA 22) ca0 (SignerRSA 11) (24 * Hour) s0 =
  (Ok (Failure match fst (cryptorand_Int MaxInt64 (world s0)) with
               | Failure err => err
               | Success _ =>
                   if (String.length (cc_CommonName (serverConfig cfg_nocn)) =? 0)%nat
                   then "must specify a CommonName"
                   else "must specify at least one ExtKeyUsage"
               end),
   {| heap := heap s0; world := snd (cryptorand_Int MaxInt64 (world s0));
      trace := trace s0 |}).
Proof.
  apply (X11_NewSignedCert_guards (L := toy) (serverConfig cfg_nocn) (SignerRSA 22)
           (SignerRSA 11) ca0 (24 * Hour) s0).
  left. reflexivity.
Defined.

(** The running watcher still has a certificate after a tick and a
    stop. *)
Lemma witness_X14 :
  is_Some (currentCert (this (snd (AccessSource_loop [WTick; WStop] (10 * Minute)
                                     (1 * Second) st_running)))).
Proof.
  apply (proj2 (proj2 (proj2 (X14_refresh_loop_keeps_certificate [WTick; WStop]
                                (10 * Minute) (1 * Second) st_running)))).
  vm_compute. eexists. reflexivity.
Defined.

(** A watcher whose files have gone keeps its certificate through a
    removal and a write. *)
Lemma witness_X15 :
  is_Some (cw_currentCert (this (snd (CertWatcher_watch
             [NEvent ev_removed; NEvent {| Event_Name := "tls.key"; Event_Op := 2 |}]
             st_gone)))) /\
  exists status,
    fst (CertWatcher_watch
           [NEvent ev_removed; NEvent {| Event_Name := "tls.key"; Event_Op := 2 |}]
           st_gone) = Ok status.
Proof.
  pose proof (X15_event_loop_keeps_certificate
                [NEvent ev_removed; NEvent {| Event_Name := "tls.key"; Event_Op := 2 |}]
                st_gone) as H.
  cbv zeta in H. destruct H as (_ & _ & _ & _ & _ & Hl & Ho).
  split.
  - apply Hl. eexists. reflexivity.
  - apply Ho. eexists. reflexivity.
Defined.

(** Three ticks while the store is down: 1s, 1.5s, 2.25s. *)
Lemma witness_X16 :
  let r := AccessSource_loop (replicate 3 WTick) (10 * Minute) (1 * Second) st_down in
  fst r = Ok (Waiting (Nat.iter 3 nextBackoff (1 * Second))) /\
  this (snd r) = this st_down /\
  exists tr,
    trace (sys (snd r)) = trace (sys st_down) ++ tr /\
    Forall (fun e => quietEvent e = true) tr /\
    delays tr = map (fun k => Nat.iter k nextBackoff (1 * Second)) (seq 0 3).
Proof.
  apply (X16_outage_schedule 3 (10 * Minute) (1 * Second) st_down).
  intros h w. exists "store unavailable", (h, w). reflexivity.
Defined.

(** One second becomes one and a half. *)
Lemma witness_X17 :
  1 * Second < nextBackoff (1 * Second) /\ 2 * nextBackoff (1 * Second) <= 3 * (1 * Second).
Proof.
  apply (proj1 X17_backoff_grows_until_it_wraps (1 * Second)).
  - vm_compute. discriminate.
  - vm_compute. reflexivity.
Defined.

(** A change of mode is ignored; a removal is logged first. *)
Lemma witness_X18 :
  CertWatcher_handleEvent ev_chmod st_gone = (Ok tt, st_gone) /\
  exists tr,
    trace (sys (snd (CertWatcher_handleEvent ev_removed st_gone))) =
    trace (sys st_gone) ++ EvLog "certificate event" :: tr.
Proof.
  split.
  - apply (proj2 (proj1 (X18_handleEvent_filter ev_chmod st_gone))). reflexivity.
  - apply (proj2 (X18_handleEvent_filter ev_removed st_gone)).
    vm_compute. discriminate.
Defined.

(** The certificate file is removed while the files are gone: the
    watch is re-added, the reload fails, the certificate stays. *)
Lemma witness_X19 :
  let r := CertWatcher_handleEvent ev_removed st_gone in
  let added := Watcher_Add tt (Event_Name ev_removed) (world (sys st_gone)) in
  let loaded :=
    tls_LoadX509KeyPair (certPath (this st_gone)) (keyPath (this st_gone)) (snd added) in
  fst r = Ok tt /\
  (exists rest,
      trace (sys (snd r)) =
      trace (sys st_gone) ++
      [EvLog "certificate event"; EvWatcherAdd (Event_Name ev_removed)] ++
      match fst added with
      | Some _ => [EvLog "error re-watching file"]
      | None => []
      end ++
      EvLoadX509KeyPair (certPath (this st_gone)) (keyPath (this st_gone)) :: rest) /\
  cw_currentCert (this (snd r)) =
    match fst loaded with
    | Success c => Some c
    | Failure _ => cw_currentCert (this st_gone)
    end.
Proof.
  apply (X19_removed_file_is_rewatched ev_removed st_gone tt); reflexivity.
Defined.
